(** * Applied QM documentation generator: classification, grouping,
      navigation index and clean

    A shallow embedding of [scripts/generate-program-docs.js] (v2.1) and of
    the helpers of [utils/helpers.js].  JavaScript strings are modelled as
    [string]: every [ascii] stands for one code unit.  The patterns, the
    extension table and the type ranking of the script only mention ASCII
    code units, and the case conversions below leave every other code unit
    as it is.  [Map] and [Set] objects are insertion-ordered association
    lists and lists, because the script iterates over them; the file system
    that [cleanGenerated] works on is a finite map from paths to nodes. *)

From Stdlib Require Import ZArith NArith Ascii String.
From stdpp Require Import gmap strings list sorting.

Local Open Scope Z_scope.

(** ** Code units *)

Module Char.

Definition code (c : ascii) : N := N_of_ascii c.

Definition isDigit (c : ascii) : bool :=
  ((48 <=? code c) && (code c <=? 57))%N.

Definition isUpper (c : ascii) : bool :=
  ((65 <=? code c) && (code c <=? 90))%N.

Definition isLower (c : ascii) : bool :=
  ((97 <=? code c) && (code c <=? 122))%N.

Definition isLetter (c : ascii) : bool := isUpper c || isLower c.

(** [String.prototype.toUpperCase] and [toLowerCase] on one code unit. *)
Definition toUpper (c : ascii) : ascii :=
  if isLower c then ascii_of_N (code c - 32) else c.

Definition toLower (c : ascii) : ascii :=
  if isUpper c then ascii_of_N (code c + 32) else c.

(** The white space and line terminators that [parseInt] skips, among the
    code units below 256. *)
Definition isSpace (c : ascii) : bool :=
  ((9 <=? code c) && (code c <=? 13) || (code c =? 32) || (code c =? 160))%N.

Definition digitValue (c : ascii) : Z := Z.of_N (code c - 48).

Definition isHexDigit (c : ascii) : bool :=
  isDigit c || ((65 <=? code c) && (code c <=? 70))%N
            || ((97 <=? code c) && (code c <=? 102))%N.

Definition hexValue (c : ascii) : Z :=
  if isDigit c then digitValue c
  else if isUpper c then Z.of_N (code c - 55)
  else Z.of_N (code c - 87).

End Char.

(** ** Strings *)

Module Str.

Fixpoint map (f : ascii -> ascii) (s : string) : string :=
  match s with
  | EmptyString => EmptyString
  | String c s' => String (f c) (map f s')
  end.

Definition toUpperCase : string -> string := map Char.toUpper.
Definition toLowerCase : string -> string := map Char.toLower.

Fixpoint all (p : ascii -> bool) (s : string) : bool :=
  match s with
  | EmptyString => true
  | String c s' => p c && all p s'
  end.

(** The longest prefix whose code units satisfy [p], and the rest. *)
Fixpoint span (p : ascii -> bool) (s : string) : string * string :=
  match s with
  | EmptyString => (EmptyString, EmptyString)
  | String c s' =>
      if p c then let '(a, b) := span p s' in (String c a, b)
      else (EmptyString, s)
  end.

Fixpoint dropWhile (p : ascii -> bool) (s : string) : string :=
  match s with
  | EmptyString => EmptyString
  | String c s' => if p c then dropWhile p s' else s
  end.

Definition isEmpty (s : string) : bool :=
  match s with EmptyString => true | _ => false end.

(** [s.startsWith(p)] *)
Fixpoint startsWith (p s : string) : bool :=
  match p, s with
  | EmptyString, _ => true
  | String a p', String c s' => if ascii_dec a c then startsWith p' s' else false
  | String _ _, EmptyString => false
  end.

(** [stripSuffix suf s] is [Some pre] when [s = pre ++ suf]. *)
Fixpoint stripSuffix (suf s : string) : option string :=
  if string_dec s suf then Some EmptyString
  else match s with
       | EmptyString => None
       | String c s' =>
           match stripSuffix suf s' with
           | Some pre => Some (String c pre)
           | None => None
           end
       end.

(** Membership test of [Array.prototype.includes] / [indexOf] on strings. *)
Fixpoint includes (l : list string) (x : string) : bool :=
  match l with
  | [] => false
  | y :: l' => if string_dec y x then true else includes l' x
  end.

(** [Array.prototype.indexOf]: [-1] when absent. *)
Fixpoint indexOfFrom (i : Z) (l : list string) (x : string) : Z :=
  match l with
  | [] => -1
  | y :: l' => if string_dec y x then i else indexOfFrom (i + 1) l' x
  end.

Definition indexOf (l : list string) (x : string) : Z := indexOfFrom 0 l x.

End Str.

(** ** Node's [path] module (POSIX flavour)

    [scanDirectory] yields file names, or [dir/.../name] when scanning
    recursively; the script only applies [path.basename] and
    [path.extname] to them. *)

Module Path.

(** The segments of a path between its slashes. *)
Fixpoint segments (p : string) : list string :=
  match p with
  | EmptyString => [EmptyString]
  | String c p' =>
      if ascii_dec c "/" then EmptyString :: segments p'
      else match segments p' with
           | seg :: r => String c seg :: r
           | [] => [String c EmptyString]
           end
  end.

(** [path.basename(p)]: the last non-empty segment (trailing slashes
    are ignored), the empty string when there is none. *)
Definition basename (p : string) : string :=
  List.last (List.filter (fun s => negb (Str.isEmpty s)) (segments p)) EmptyString.

(** Split a name at its last dot: what is before it, and the dot with
    what follows. *)
Fixpoint splitLastDot (s : string) : option (string * string) :=
  match s with
  | EmptyString => None
  | String c s' =>
      match splitLastDot s' with
      | Some (pre, ext) => Some (String c pre, ext)
      | None => if ascii_dec c "." then Some (EmptyString, s) else None
      end
  end.

(** [path.extname(p)]: from the last dot of the last segment to its end;
    empty when there is no dot, when the last dot is the first code unit
    of the segment, and for the segment [..]. *)
Definition extname (p : string) : string :=
  let name := basename p in
  match splitLastDot name with
  | None => EmptyString
  | Some (pre, ext) =>
      if Str.isEmpty pre then EmptyString
      else if string_dec name ".." then EmptyString
      else ext
  end.

(** [path.basename(p, suffix)] for a suffix without slash that is not
    longer than the last segment, which is how [extractProgramInfo] calls
    it: the suffix is removed from the last segment unless it is the whole
    segment. *)
Definition basenameExt (p suffix : string) : string :=
  let name := basename p in
  if Str.isEmpty suffix then name
  else if string_dec p suffix then EmptyString
  else match Str.stripSuffix suffix name with
       | Some pre => if Str.isEmpty pre then name else pre
       | None => name
       end.

End Path.

(** ** Numbers

    A JavaScript number is modelled as [option Z]: [None] is [NaN].  The
    script only forms integers from decimal numerals and their differences;
    this is exact for numerals below 2^53. *)

Module Num.

Definition t := option Z.

Definition sub (a b : t) : t :=
  match a, b with
  | Some x, Some y => Some (x - y)
  | _, _ => None
  end.

(** The comparator result is read by [Array.prototype.sort] after
    [NaN] has been replaced by [+0]. *)
Definition positive (v : t) : bool :=
  match v with Some x => 0 <? x | None => false end.

Fixpoint decimalValue (acc : Z) (s : string) : Z :=
  match s with
  | EmptyString => acc
  | String c s' => decimalValue (10 * acc + Char.digitValue c) s'
  end.

Fixpoint hexadecimalValue (acc : Z) (s : string) : Z :=
  match s with
  | EmptyString => acc
  | String c s' => hexadecimalValue (16 * acc + Char.hexValue c) s'
  end.

Definition signOf (s : string) : Z * string :=
  match s with
  | String "-" r => (-1, r)
  | String "+" r => (1, r)
  | _ => (1, s)
  end.

(** [parseInt(s, 10)] *)
Definition parseInt10 (s : string) : t :=
  let '(sign, r) := signOf (Str.dropWhile Char.isSpace s) in
  let '(ds, _) := Str.span Char.isDigit r in
  if Str.isEmpty ds then None else Some (sign * decimalValue 0 ds).

(** [parseInt(s)]: as above, except that a [0x] or [0X] prefix selects
    radix 16. *)
Definition parseInt (s : string) : t :=
  let '(sign, r) := signOf (Str.dropWhile Char.isSpace s) in
  match r with
  | String "0" (String x r') =>
      if Ascii.eqb x "x" || Ascii.eqb x "X" then
        let '(hs, _) := Str.span Char.isHexDigit r' in
        if Str.isEmpty hs then None else Some (sign * hexadecimalValue 0 hs)
      else
        let '(ds, _) := Str.span Char.isDigit r in
        if Str.isEmpty ds then None else Some (sign * decimalValue 0 ds)
  | _ =>
      let '(ds, _) := Str.span Char.isDigit r in
      if Str.isEmpty ds then None else Some (sign * decimalValue 0 ds)
  end.

Definition digitChar (n : nat) : ascii := ascii_of_nat (48 + n).

Fixpoint natDigits (fuel n : nat) (acc : string) : string :=
  match fuel with
  | O => acc
  | S fuel' =>
      let acc' := String (digitChar (n mod 10)) acc in
      if (n / 10 =? 0)%nat then acc' else natDigits fuel' (n / 10)%nat acc'
  end.

(** [String(v)] for [NaN] and for integers below 10^21, which print as
    their decimal digits. *)
Definition toString (v : t) : string :=
  match v with
  | None => "NaN"
  | Some x =>
      let n := Z.to_nat (Z.abs x) in
      let ds := natDigits (S n) n EmptyString in
      if x <? 0 then String "-" ds else ds
  end.

End Num.

(** ** Command line: [parseArgs] and the entry point *)

(** [options.source]: [null] at the start, [undefined] when the flag is the
    last argument, the following argument otherwise. *)
Inductive SourceOption :=
  | SourceNull
  | SourceUndefined
  | SourcePath (path : string).

Record CliOptions := {
  command : option string;
  source : SourceOption;
  recursive : bool
}.

Definition defaultOptions : CliOptions :=
  {| command := None; source := SourceNull; recursive := false |}.

Definition withCommand (c : string) (o : CliOptions) : CliOptions :=
  {| command := Some c; source := source o; recursive := recursive o |}.

Definition withSource (v : SourceOption) (o : CliOptions) : CliOptions :=
  {| command := command o; source := v; recursive := recursive o |}.

Definition withRecursive (o : CliOptions) : CliOptions :=
  {| command := command o; source := source o; recursive := true |}.

Definition isFlag (long short arg : string) : bool :=
  if string_dec arg long then true
  else if string_dec arg short then true else false.

(** The [for] loop of [parseArgs] from the argument at hand; the source
    flag advances the index past its value. *)
Fixpoint parseArgsLoop (args : list string) (options : CliOptions) : CliOptions :=
  match args with
  | [] => options
  | arg :: rest =>
      if isFlag "--watch" "-w" arg then parseArgsLoop rest (withCommand "watch" options)
      else if isFlag "--clean" "-c" arg then parseArgsLoop rest (withCommand "clean" options)
      else if isFlag "--help" "-h" arg then parseArgsLoop rest (withCommand "help" options)
      else if isFlag "--source" "-s" arg then
        match rest with
        | value :: rest' => parseArgsLoop rest' (withSource (SourcePath value) options)
        | [] => withSource SourceUndefined options
        end
      else if isFlag "--recursive" "-r" arg then parseArgsLoop rest (withRecursive options)
      else parseArgsLoop rest options
  end.

(** [parseArgs], with [argv] standing for [process.argv]. *)
Definition parseArgs (argv : list string) : CliOptions :=
  parseArgsLoop (drop 2 argv) defaultOptions.

(** The path given to [path.resolve] for [CONFIG.INBOX_DIR]; [None] when the
    default directory is used ([null], [undefined] and the empty string are
    falsy). *)
Definition sourceOverride (o : CliOptions) : option string :=
  match source o with
  | SourcePath p => if Str.isEmpty p then None else Some p
  | _ => None
  end.

(** The command that an argument selects, if it is a command flag. *)
Definition commandOf (arg : string) : option string :=
  if isFlag "--watch" "-w" arg then Some "watch"
  else if isFlag "--clean" "-c" arg then Some "clean"
  else if isFlag "--help" "-h" arg then Some "help"
  else None.

Inductive Action := RunWatch | RunClean | RunHelp | RunProcess.

(** The dispatch at the end of the script. *)
Definition entryAction (o : CliOptions) : Action :=
  match command o with
  | Some c =>
      if string_dec c "watch" then RunWatch
      else if string_dec c "clean" then RunClean
      else if string_dec c "help" then RunHelp
      else RunProcess
  | None => RunProcess
  end.

(** ** Configuration *)

(** [CONFIG.SUPPORTED_EXTENSIONS] *)
Definition SUPPORTED_EXTENSIONS : list string :=
  [".m"; ".tex"; ".ipynb"; ".pdf"; ".html"; ".txt"].

(** [CONFIG.INBOX_DIR]: the directory given with [--source], resolved, or
    [INBOX] beside the documentation directory.  [resolve] stands for
    [path.resolve] in the working directory of the run and gives the
    resolved path by its segments from the site directory. *)
Definition INBOX_DIR (resolve : string -> list string) (options : CliOptions)
    : list string :=
  match sourceOverride options with
  | Some source => resolve source
  | None => ["INBOX"]
  end.

(** Locations of [CONFIG.DOCS_OUTPUT_DIR], [CONFIG.STATIC_OUTPUT_DIR] and of
    the sidebar file [docs/../sidebars.js], as lists of path segments from
    the site directory. *)
Definition DOCS_OUTPUT_DIR : list string := ["docs"].
Definition STATIC_OUTPUT_DIR : list string := ["static"; "programs"].
Definition SIDEBAR_PATH : list string := ["sidebars.js"].

(** One entry of [FILE_TYPES]. *)
Module Cfg.
Record t := {
  type : string;
  label : string;
  emoji : string;
  color : string;
  canReadText : bool;
  codeLanguage : option string;
  maxPreviewLength : option Z;
  useIframe : option bool;
  iframeHeight : option string
}.
End Cfg.

Definition FILE_TYPES : list (string * Cfg.t) :=
  [ (".m", {| Cfg.type := "matlab"; Cfg.label := "MATLAB"; Cfg.emoji := "📊";
              Cfg.color := "#0076a8"; Cfg.canReadText := true;
              Cfg.codeLanguage := Some "matlab"; Cfg.maxPreviewLength := None;
              Cfg.useIframe := None; Cfg.iframeHeight := None |});
    (".tex", {| Cfg.type := "latex"; Cfg.label := "LaTeX"; Cfg.emoji := "📝";
                Cfg.color := "#008080"; Cfg.canReadText := true;
                Cfg.codeLanguage := Some "latex"; Cfg.maxPreviewLength := Some 15000;
                Cfg.useIframe := None; Cfg.iframeHeight := None |});
    (".ipynb", {| Cfg.type := "ipynb"; Cfg.label := "Jupyter Notebook"; Cfg.emoji := "📓";
                  Cfg.color := "#f37626"; Cfg.canReadText := false;
                  Cfg.codeLanguage := None; Cfg.maxPreviewLength := None;
                  Cfg.useIframe := Some false; Cfg.iframeHeight := None |});
    (".pdf", {| Cfg.type := "pdf"; Cfg.label := "PDF Document"; Cfg.emoji := "📕";
                Cfg.color := "#dc2626"; Cfg.canReadText := false;
                Cfg.codeLanguage := None; Cfg.maxPreviewLength := None;
                Cfg.useIframe := Some true; Cfg.iframeHeight := Some "900px" |});
    (".html", {| Cfg.type := "html"; Cfg.label := "HTML Page"; Cfg.emoji := "🌐";
                 Cfg.color := "#e34c26"; Cfg.canReadText := true;
                 Cfg.codeLanguage := Some "html"; Cfg.maxPreviewLength := None;
                 Cfg.useIframe := Some true; Cfg.iframeHeight := Some "800px" |});
    (".txt", {| Cfg.type := "text"; Cfg.label := "Text File"; Cfg.emoji := "📄";
                Cfg.color := "#6b7280"; Cfg.canReadText := true;
                Cfg.codeLanguage := Some "text"; Cfg.maxPreviewLength := None;
                Cfg.useIframe := None; Cfg.iframeHeight := None |}) ].

Definition CHAPTER_NAMES : list (string * string) :=
  [ ("1", "Introduction to Quantum Mechanics");
    ("2", "Schrödinger Equation");
    ("3", "Quantum Wells and Barriers");
    ("4", "Harmonic Oscillator");
    ("5", "Tunneling and Resonance");
    ("6", "Density of States");
    ("7", "Band Structure");
    ("8", "Perturbation Theory");
    ("9", "Statistical Mechanics");
    ("utilities", "Utility Functions") ].

(** ** [Map] and [Set] with insertion order *)

Module JsMap.
Section Ops.
Context {V : Type}.

Fixpoint get (k : string) (m : list (string * V)) : option V :=
  match m with
  | [] => None
  | (k', v) :: m' => if string_dec k' k then Some v else get k m'
  end.

Definition has (k : string) (m : list (string * V)) : bool :=
  match get k m with Some _ => true | None => false end.

(** [m.set(k, v)]: an existing key keeps its position, a new key goes
    to the end. *)
Fixpoint set (k : string) (v : V) (m : list (string * V)) : list (string * V) :=
  match m with
  | [] => [(k, v)]
  | (k', v') :: m' =>
      if string_dec k' k then (k, v) :: m' else (k', v') :: set k v m'
  end.

(** In-place update of the object stored under [k]. *)
Fixpoint update (k : string) (f : V -> V) (m : list (string * V)) : list (string * V) :=
  match m with
  | [] => []
  | (k', v') :: m' =>
      if string_dec k' k then (k', f v') :: m' else (k', v') :: update k f m'
  end.

Definition keys (m : list (string * V)) : list string := List.map fst m.
End Ops.
End JsMap.

Module JsSet.
(** [s.add(x)] *)
Definition add (x : string) (s : list string) : list string :=
  if Str.includes s x then s else s ++ [x].
End JsSet.

(** ** [Array.prototype.sort]

    The sort is stable.  [after x y] says that the comparator, with [NaN]
    read as [+0], is positive on [(x, y)].  For a consistent comparator every
    stable sort returns the array computed here. *)

Section Sort.
Context {A : Type} (after : A -> A -> bool).

Fixpoint insertSorted (x : A) (l : list A) : list A :=
  match l with
  | [] => [x]
  | y :: l' => if after x y then y :: insertSorted x l' else x :: l
  end.

Definition sortWith (l : list A) : list A := foldr insertSorted [] l.
End Sort.

(** The default comparator of [sort()]: strings by code units. *)
Definition stringAfter (a b : string) : bool :=
  match String.compare a b with Gt => true | _ => false end.

(** ** The program pattern *)

(** The capture groups of a match; [capVariant] is [None] when the optional
    group did not take part. *)
Record Captures := {
  capChapter : string;
  capType : string;
  capNumber : string;
  capVariant : option string
}.

(** Case-insensitive match of a literal at the start of [s] (flag [i]:
    both sides are canonicalised with [toUpperCase]); returns the matched
    text and the rest. *)
Fixpoint matchLiteral (lit s : string) : option (string * string) :=
  match lit, s with
  | EmptyString, _ => Some (EmptyString, s)
  | String a lit', String c s' =>
      if ascii_dec (Char.toUpper a) (Char.toUpper c) then
        match matchLiteral lit' s' with
        | Some (m, r) => Some (String c m, r)
        | None => None
        end
      else None
  | String _ _, EmptyString => None
  end.

(** The body of [CONFIG.PROGRAM_PATTERN] with its flag [i]: the literal
    [Chapt], the group [\d+], the group [Exercise|Fig], the group [\d+] and
    the optional group made of [[a-z]] and any number of [\d]; matched at the
    start of [s]; returns the captures and what follows the match.  The
    digit runs are greedy and are followed by a code unit that is not a
    digit, and the two alternatives start with different letters, so no
    other way of matching exists and backtracking never changes the
    captures.  With flag [i] the class [[a-z]] accepts both cases. *)
Definition matchPrefix (s : string) : option (Captures * string) :=
  match matchLiteral "Chapt" s with
  | None => None
  | Some (_, r1) =>
      let '(chapter, r2) := Str.span Char.isDigit r1 in
      if Str.isEmpty chapter then None
      else
        let alt := match matchLiteral "Exercise" r2 with
                   | Some m => Some m
                   | None => matchLiteral "Fig" r2
                   end in
        match alt with
        | None => None
        | Some (type, r3) =>
            let '(number, r4) := Str.span Char.isDigit r3 in
            if Str.isEmpty number then None
            else
              match r4 with
              | String c r5 =>
                  if Char.isLetter c then
                    let '(ds, r6) := Str.span Char.isDigit r5 in
                    Some ({| capChapter := chapter; capType := type;
                             capNumber := number;
                             capVariant := Some (String c ds) |}, r6)
                  else
                    Some ({| capChapter := chapter; capType := type;
                             capNumber := number; capVariant := None |}, r4)
              | EmptyString =>
                  Some ({| capChapter := chapter; capType := type;
                           capNumber := number; capVariant := None |}, r4)
              end
        end
  end.

(** [baseName.match(CONFIG.PROGRAM_PATTERN)]: the pattern between [^] and
    [$]. *)
Definition matchProgramPattern (baseName : string) : option Captures :=
  match matchPrefix baseName with
  | Some (m, EmptyString) => Some m
  | _ => None
  end.

(** [programId.match] with the pattern of [updateSidebar] and of
    [extractLabelFromProgramId]: the same pattern without anchors, tried at
    every position from the left. *)
Fixpoint searchProgramPattern (s : string) : option Captures :=
  match matchPrefix s with
  | Some (m, _) => Some m
  | None =>
      match s with
      | EmptyString => None
      | String _ s' => searchProgramPattern s'
      end
  end.

(** ** Classification *)

Module Info.
Record t := {
  programId : string;
  chapter : string;
  chapterNum : string;
  type : string;
  number : string;
  variant : string;
  displayName : string;
  chapterDisplay : Num.t;
  isUtility : bool
}.
End Info.

Definition getFileTypeConfig (filename : string) : option Cfg.t :=
  let ext := Str.toLowerCase (Path.extname filename) in
  JsMap.get ext FILE_TYPES.

Definition orEmpty (v : option string) : string :=
  match v with Some s => s | None => EmptyString end.

(** The object returned for a name that does not match but has a supported
    extension. *)
Definition utilityInfo (baseName : string) : Info.t :=
  {| Info.programId := baseName;
     Info.chapter := "utilities";
     Info.chapterNum := "utilities";
     Info.type := "Utility";
     Info.number := "";
     Info.variant := "";
     Info.displayName := baseName;
     Info.chapterDisplay := Some 99; (* Sort utilities at the end *)
     Info.isUtility := true |}.

(** The object built from the capture groups [[, chapter, type, number,
    variant]] of a match. *)
Definition matchedInfo (m : Captures) : Info.t :=
  let chapter := capChapter m in
  let type := capType m in
  let number := capNumber m in
  let variant := capVariant m in
  let programId := "Chapt" +:+ chapter +:+ type +:+ number +:+ orEmpty variant in
  {| Info.programId := programId;
     Info.chapter := "chapter" +:+ chapter;
     Info.chapterNum := chapter;
     Info.type := type;
     Info.number := number;
     Info.variant := orEmpty variant;
     Info.displayName :=
       "Chapter " +:+ chapter +:+ " - " +:+ type +:+ " " +:+ number
         +:+ match variant with
             | Some v => Str.toUpperCase v
             | None => ""
             end;
     Info.chapterDisplay := Num.parseInt10 chapter;
     Info.isUtility := false |}.

Definition extractProgramInfo (filename : string) : option Info.t :=
  let baseName := Path.basenameExt filename (Path.extname filename) in
  match matchProgramPattern baseName with
  | None =>
      let ext := Str.toLowerCase (Path.extname filename) in
      if negb (Str.includes SUPPORTED_EXTENSIONS ext) then None
      else Some (utilityInfo baseName)
  | Some m => Some (matchedInfo m)
  end.

Definition getChapterName (chapterNum : string) : string :=
  match JsMap.get chapterNum CHAPTER_NAMES with
  | Some name => name
  | None => "Chapter " +:+ chapterNum
  end.

(** [extractLabelFromProgramId] of [utils/helpers.js]; [updateSidebar]
    computes the same label inline. *)
Definition extractLabelFromProgramId (programId : string) : string :=
  match searchProgramPattern programId with
  | Some m =>
      capType m +:+ " " +:+ capNumber m
        +:+ match capVariant m with
            | Some v => Str.toUpperCase v
            | None => ""
            end
  | None => programId
  end.

(** ** First pass of [processAllPrograms]: grouping *)

(** An element of a group's [files] array. *)
Record FileEntry := {
  filename : string;
  filePath : string;
  config : Cfg.t
}.

(** A value of the [stats.programFiles] map. *)
Record ProgramGroup := {
  programInfo : Info.t;
  files : list FileEntry
}.

Record Stats := {
  processed : nat;
  skipped : nat;
  utilities : nat;
  byChapter : list (string * list string);
  byType : list (string * nat);
  programFiles : list (string * ProgramGroup)
}.

Definition initialStats : Stats :=
  {| processed := 0; skipped := 0; utilities := 0;
     byChapter := []; byType := []; programFiles := [] |}.

Definition isSupported (f : string) : bool :=
  Str.includes SUPPORTED_EXTENSIONS (Str.toLowerCase (Path.extname f)).

(** [allFiles.filter(...)] *)
Definition supportedFiles (allFiles : list string) : list string :=
  List.filter isSupported allFiles.

Definition skipFile (stats : Stats) : Stats :=
  {| processed := processed stats; skipped := S (skipped stats);
     utilities := utilities stats; byChapter := byChapter stats;
     byType := byType stats; programFiles := programFiles stats |}.

Definition pushFile (e : FileEntry) (g : ProgramGroup) : ProgramGroup :=
  {| programInfo := programInfo g; files := files g ++ [e] |}.

Definition countType (ty : string) (m : list (string * nat)) : list (string * nat) :=
  let m1 := if JsMap.has ty m then m else JsMap.set ty 0%nat m in
  match JsMap.get ty m1 with
  | Some n => JsMap.set ty (S n) m1
  | None => m1
  end.

(** The body of [supportedFiles.forEach(filePath => ...)]. *)
Definition collectFile (stats : Stats) (filePath : string) : Stats :=
  let filename := Path.basename filePath in
  match extractProgramInfo filename with
  | None => skipFile stats
  | Some info =>
      match getFileTypeConfig filename with
      | None => skipFile stats
      | Some config =>
          let programId := Info.programId info in
          let chapterNum := Info.chapterNum info in
          let groups0 := programFiles stats in
          let groups1 :=
            if JsMap.has programId groups0 then groups0
            else JsMap.set programId {| programInfo := info; files := [] |} groups0 in
          let groups2 :=
            JsMap.update programId
              (pushFile {| filename := filename; filePath := filePath;
                           config := config |}) groups1 in
          let chapters0 := byChapter stats in
          let chapters1 :=
            if JsMap.has chapterNum chapters0 then chapters0
            else JsMap.set chapterNum [] chapters0 in
          let chapters2 := JsMap.update chapterNum (JsSet.add programId) chapters1 in
          {| processed := processed stats;
             skipped := skipped stats;
             utilities := if Info.isUtility info then S (utilities stats)
                          else utilities stats;
             byChapter := chapters2;
             byType := countType (Cfg.type config) (byType stats);
             programFiles := groups2 |}
      end
  end.

(** The statistics after the grouping loop over the supported files. *)
Definition collectPrograms (allFiles : list string) : Stats :=
  fold_left collectFile (supportedFiles allFiles) initialStats.

(** [processAllPrograms] returns before grouping when the listing has no
    supported file. *)
Definition groupingPass (allFiles : list string) : option Stats :=
  match supportedFiles allFiles with
  | [] => None
  | _ => Some (collectPrograms allFiles)
  end.

(** ** Second pass: what becomes of the counters and of a group's
    [filesList]

    Copying and writing may fail; the outcome of each operation is given by
    an oracle. *)

(** An element of [filesList]. *)
Record IndexEntry := {
  entryFilename : string;
  fileType : string;
  staticPath : string;
  entryConfig : Cfg.t
}.

(** [generateDetailPage] returns [null] for a type outside its [switch]. *)
Definition hasDetailPage (ty : string) : bool :=
  Str.includes ["matlab"; "latex"; "pdf"; "html"; "ipynb"; "text"] ty.

Section SecondPass.
Variable copyOk : string -> string -> bool.
Variable writeOk : string -> string -> bool.

Definition processFile (programId : string)
    (acc : nat * nat * list IndexEntry) (e : FileEntry)
    : nat * nat * list IndexEntry :=
  let '(done, skip, filesList) := acc in
  if negb (copyOk programId (filename e)) then (done, S skip, filesList)
  else
    let staticPath :=
      "/programs/" +:+ Cfg.type (config e) +:+ "/" +:+ programId +:+ "/"
        +:+ filename e in
    let '(done', skip') :=
      if hasDetailPage (Cfg.type (config e)) then
        if writeOk programId (Cfg.type (config e)) then (S done, skip)
        else (done, S skip)
      else (done, skip) in
    (done', skip',
     filesList ++ [{| entryFilename := filename e;
                      fileType := Cfg.type (config e);
                      staticPath := staticPath;
                      entryConfig := config e |}]).

Definition processGroup (counters : nat * nat) (kv : string * ProgramGroup)
    : nat * nat :=
  let '(done, skip, _) :=
    fold_left (processFile (fst kv)) (files (snd kv))
              (fst counters, snd counters, []) in
  (done, skip).

(** [stats.processed] and [stats.skipped] at the end of the run. *)
Definition finalCounters (stats : Stats) : nat * nat :=
  fold_left processGroup (programFiles stats) (processed stats, skipped stats).

(** The [filesList] handed to [generateIndexPage] for a group. *)
Definition filesListOf (programId : string) (g : ProgramGroup) : list IndexEntry :=
  snd (fold_left (processFile programId) (files g) (0%nat, 0%nat, [])).
End SecondPass.

(** ** Member order on the index page *)

Definition typeOrder : list string :=
  ["matlab"; "latex"; "pdf"; "html"; "ipynb"; "text"].

Definition typeRank (e : IndexEntry) : Z := Str.indexOf typeOrder (fileType e).

(** The comparator of [filesList.sort] in [generateIndexPage]. *)
Definition typeAfter (a b : IndexEntry) : bool := 0 <? typeRank a - typeRank b.

(** The order in which [generateIndexPage] lists the members. *)
Definition indexPageOrder (filesList : list IndexEntry) : list IndexEntry :=
  sortWith typeAfter filesList.

(** ** [updateSidebar] *)

Module Doc.
Record t := { type : string; id : string; label : string }.
End Doc.

Module Category.
Record t := {
  type : string;
  label : string;
  collapsed : bool;
  items : list Doc.t
}.
End Category.

(** The comparator [(a, b) => parseInt(a) - parseInt(b)]. *)
Definition chapterAfter (a b : string) : bool :=
  Num.positive (Num.sub (Num.parseInt a) (Num.parseInt b)).

(** [sortChapterKeys] of [utils/helpers.js], which is also the comparator of
    the chapter summary printed by [processAllPrograms]. *)
Definition sortChapterKeys (a b : string) : Num.t :=
  if string_dec a "utilities" then Some 1
  else if string_dec b "utilities" then Some (-1)
  else Num.sub (Num.parseInt10 a) (Num.parseInt10 b).

Definition summaryAfter (a b : string) : bool := Num.positive (sortChapterKeys a b).

Definition sidebarItem (chapterNum programId : string) : Doc.t :=
  {| Doc.type := "doc";
     Doc.id := "chapter" +:+ chapterNum +:+ "/" +:+ programId +:+ "/index";
     Doc.label := extractLabelFromProgramId programId |}.

Definition sidebarCategory (byChapter : list (string * list string))
    (chapterNum : string) : Category.t :=
  let programs :=
    sortWith stringAfter
      (match JsMap.get chapterNum byChapter with Some s => s | None => [] end) in
  {| Category.type := "category";
     Category.label :=
       "Ch " +:+ Num.toString (Num.parseInt10 chapterNum) +:+ ": "
         +:+ getChapterName chapterNum;
     Category.collapsed := true;
     Category.items := List.map (sidebarItem chapterNum) programs |}.

(** The array [categories] of [updateSidebar]. *)
Definition sidebarCategories (byChapter : list (string * list string))
    : list Category.t :=
  List.map (sidebarCategory byChapter)
           (sortWith chapterAfter (JsMap.keys byChapter)).

(** The chapter keys in the order of the summary of [processAllPrograms]. *)
Definition summaryOrder (byChapter : list (string * list string)) : list string :=
  sortWith summaryAfter (JsMap.keys byChapter).

(** *** The text written to [sidebars.js] *)

Module Json.

Definition nl : string := String (ascii_of_nat 10) EmptyString.
Definition quote : ascii := ascii_of_nat 34.
Definition backslash : ascii := ascii_of_nat 92.

Definition hexDigit (n : nat) : ascii :=
  if (n <? 10)%nat then ascii_of_nat (48 + n) else ascii_of_nat (87 + n).

(** [QuoteJSONString] on one code unit. *)
Definition escape (c : ascii) : string :=
  let n := nat_of_ascii c in
  if ascii_dec c quote then String backslash (String quote EmptyString)
  else if ascii_dec c backslash then String backslash (String backslash EmptyString)
  else if (n =? 8)%nat then String backslash "b"
  else if (n =? 9)%nat then String backslash "t"
  else if (n =? 10)%nat then String backslash "n"
  else if (n =? 12)%nat then String backslash "f"
  else if (n =? 13)%nat then String backslash "r"
  else if (n <? 32)%nat then
    String backslash
      ("u00" +:+ String (hexDigit (n / 16)) (String (hexDigit (n mod 16)) EmptyString))
  else String c EmptyString.

Fixpoint escapeAll (s : string) : string :=
  match s with
  | EmptyString => EmptyString
  | String c s' => escape c +:+ escapeAll s'
  end.

Definition str (s : string) : string :=
  String quote (escapeAll s +:+ String quote EmptyString).

Definition field (name value : string) : string :=
  str name +:+ ": " +:+ value.

Fixpoint joinWith (sep : string) (l : list string) : string :=
  match l with
  | [] => EmptyString
  | [x] => x
  | x :: l' => x +:+ sep +:+ joinWith sep l'
  end.

(** The lines of [JSON.stringify(v, null, 2)] for an object whose members
    are given by their own lines; the last line of a member gets the
    comma. *)
Definition indentLines (l : list string) : list string :=
  List.map (fun s => "  " +:+ s) l.

Fixpoint commaSeparated (members : list (list string)) : list string :=
  match members with
  | [] => []
  | [m] => m
  | m :: rest =>
      (match List.rev m with
       | lastLine :: front => List.rev front ++ [lastLine +:+ ","]
       | [] => []
       end) ++ commaSeparated rest
  end.

Definition object (members : list (list string)) : list string :=
  ["{"] ++ indentLines (commaSeparated members) ++ ["}"].

(** An array as the value of the field [name]. *)
Definition arrayField (name : string) (elements : list (list string)) : list string :=
  match elements with
  | [] => [field name "[]"]
  | _ => [field name "["] ++ indentLines (commaSeparated elements) ++ ["]"]
  end.

Definition doc (d : Doc.t) : list string :=
  object [ [field "type" (str (Doc.type d))];
           [field "id" (str (Doc.id d))];
           [field "label" (str (Doc.label d))] ].

Definition category (c : Category.t) : list string :=
  object [ [field "type" (str (Category.type c))];
           [field "label" (str (Category.label c))];
           [field "collapsed" (if Category.collapsed c then "true" else "false")];
           arrayField "items" (List.map doc (Category.items c)) ].

End Json.

(** The template literal of [updateSidebar]: three literal chunks around
    the time stamp [new Date().toISOString()] and the rendered categories. *)
Definition sidebarHead : string :=
  Json.joinWith Json.nl
    [ "/**";
      " * Auto-generated sidebar configuration";
      " * Generated by: generate-program-docs.js v2.0";
      " * Last updated: " ].

Definition sidebarMiddle : string :=
  Json.joinWith Json.nl
    [ "";
      " *";
      " * DO NOT EDIT MANUALLY - Changes will be overwritten on next generation";
      " */";
      "";
      "// @ts-check";
      "";
      "/** @type {import('@docusaurus/plugin-content-docs').SidebarsConfig} */";
      "const sidebars = {";
      "  tutorialSidebar: [";
      "    {";
      "      type: 'doc',";
      "      id: 'intro',";
      "      label: '📖 Introduction',";
      "    },";
      "    {";
      "      type: 'category',";
      "      label: '📚 Programs by Chapter',";
      "      collapsed: false,";
      "      items: [";
      "" ].

Definition sidebarEnd : string :=
  Json.joinWith Json.nl
    [ ",";
      "      ],";
      "    },";
      "  ],";
      "};";
      "";
      "module.exports = sidebars;";
      "" ].

Definition renderCategories (categories : list Category.t) : string :=
  Json.joinWith ("," +:+ Json.nl)
    (List.map (fun cat => "        " +:+
                 Json.joinWith (Json.nl +:+ "        ") (Json.category cat))
              categories).

(** What follows the time stamp. *)
Definition sidebarTail (categories : list Category.t) : string :=
  sidebarMiddle +:+ renderCategories categories +:+ sidebarEnd.

Definition sidebarText (now : string) (categories : list Category.t) : string :=
  sidebarHead +:+ now +:+ sidebarTail categories.

(** The text that [updateSidebar] writes to [sidebars.js]. *)
Definition updateSidebar (now : string) (byChapter : list (string * list string)) : string :=
  sidebarText now (sidebarCategories byChapter).

(** ** The documentation pages of a run

    [generateDetailPage] and [generateIndexPage] are template literals over
    their arguments; the templates are parameters here, and so is the text
    that [fs.readFileSync] gives for a source file ([None] when reading
    fails).  Copies and writes are taken to succeed. *)

Record RunOutput := {
  pages : list (list string * string);
  sidebar : string
}.

Section Pages.
Variable readText : string -> option string.
Variable detailPage : Info.t -> string -> string -> string -> Cfg.t -> string.
Variable indexPage : Info.t -> list IndexEntry -> string.

Definition fileContentOf (e : FileEntry) : string :=
  if Cfg.canReadText (config e) then
    match readText (filePath e) with Some text => text | None => "" end
  else "".

(** The detail page written for a member, with its path. *)
Definition detailWrite (info : Info.t) (programId : string) (e : FileEntry)
    : list (list string * string) :=
  if hasDetailPage (Cfg.type (config e)) then
    [ (DOCS_OUTPUT_DIR
         ++ [Info.chapter info; programId;
             programId +:+ "_" +:+ Cfg.type (config e) +:+ ".mdx"],
       detailPage info (filename e)
         ("/programs/" +:+ Cfg.type (config e) +:+ "/" +:+ programId +:+ "/"
            +:+ filename e)
         (fileContentOf e) (config e)) ]
  else [].

(** The pages written for one entry of [stats.programFiles], in the order
    of the writes. *)
Definition groupPages (kv : string * ProgramGroup) : list (list string * string) :=
  let programId := fst kv in
  let info := programInfo (snd kv) in
  let filesList :=
    filesListOf (fun _ _ => true) (fun _ _ => true) programId (snd kv) in
  flat_map (detailWrite info programId) (files (snd kv))
    ++ match filesList with
       | [] => []
       | _ => [ (DOCS_OUTPUT_DIR ++ [Info.chapter info; programId; "index.mdx"],
                 indexPage info (indexPageOrder filesList)) ]
       end.

(** What a run over the listing [allFiles] at time [now] writes: the
    documentation pages and the sidebar; [None] when the run returns before
    writing. *)
Definition runOutput (now : string) (allFiles : list string) : option RunOutput :=
  match groupingPass allFiles with
  | None => None
  | Some stats =>
      Some {| pages := flat_map groupPages (programFiles stats);
              sidebar := updateSidebar now (byChapter stats) |}
  end.
End Pages.

(** ** The file system and [cleanGenerated] *)

Inductive Node :=
  | File (content : string)
  | Directory.

(** A file system maps a path, given by its segments from the site
    directory, to the node found there. *)
Abbreviation FS := (gmap (list string) Node).

Definition existsSync (fs : FS) (p : list string) : bool :=
  bool_decide (is_Some (fs !! p)).

(** The name of [q] inside the directory [p], when [q] is an entry of it. *)
Fixpoint entryName (p q : list string) : option string :=
  match p, q with
  | [], [n] => Some n
  | a :: p', b :: q' => if string_dec a b then entryName p' q' else None
  | _, _ => None
  end.

(** [fs.readdirSync(p)]; throws ([None]) unless [p] is a directory. *)
Definition readdirSync (fs : FS) (p : list string) : option (list string) :=
  match fs !! p with
  | Some Directory => Some (omap (fun kv => entryName p (fst kv)) (map_to_list fs))
  | _ => None
  end.

Fixpoint isPrefix (p q : list string) : bool :=
  match p, q with
  | [], _ => true
  | a :: p', b :: q' => if string_dec a b then isPrefix p' q' else false
  | _ :: _, [] => false
  end.

(** [fs.rmSync(p, { recursive: true, force: true })]: removes [p] and
    whatever is below it; no error when [p] does not exist. *)
Definition rmSync (fs : FS) (p : list string) : FS :=
  filter (fun kv => isPrefix p (fst kv) = false) fs.

(** The body of [items.forEach] in [cleanGenerated], with the counter. *)
Definition cleanItem (acc : FS * nat) (item : string) : FS * nat :=
  if Str.startsWith "chapter" item
  then (rmSync (fst acc) (DOCS_OUTPUT_DIR ++ [item]), S (snd acc))
  else acc.

(** [cleanGenerated]: the file system it leaves and the number of folders
    it reports; [None] when [readdirSync] throws. *)
Definition cleanGenerated (fs : FS) : option (FS * nat) :=
  let afterDocs :=
    if existsSync fs DOCS_OUTPUT_DIR then
      match readdirSync fs DOCS_OUTPUT_DIR with
      | Some items => Some (fold_left cleanItem items (fs, 0%nat))
      | None => None
      end
    else Some (fs, 0%nat) in
  match afterDocs with
  | None => None
  | Some (fs1, n) =>
      if existsSync fs1 STATIC_OUTPUT_DIR
      then Some (rmSync fs1 STATIC_OUTPUT_DIR, S n)
      else Some (fs1, n)
  end.

(** ** Definitions used by the statements *)

(** The base name of a listed file: its name minus its extension. *)
Definition baseNameOf (f : string) : string :=
  Path.basenameExt (Path.basename f) (Path.extname (Path.basename f)).

(** The paths of the members of the group of [programId]. *)
Definition membersOf (stats : Stats) (programId : string) : list string :=
  match JsMap.get programId (programFiles stats) with
  | Some g => List.map filePath (files g)
  | None => []
  end.

(** The identity that the classifier, with its fallback, gives to a base
    name. *)
Definition classify (baseName : string) : Info.t :=
  match matchProgramPattern baseName with
  | None => utilityInfo baseName
  | Some m => matchedInfo m
  end.

Definition programIdOf (f : string) : string :=
  Info.programId (classify (baseNameOf f)).

Definition chapterNumOf (f : string) : string :=
  Info.chapterNum (classify (baseNameOf f)).

(** The entry pushed for the listed file [f] with type [config]. *)
Definition entryOf (f : string) (config : Cfg.t) : FileEntry :=
  {| filename := Path.basename f; filePath := f; config := config |}.

(** The set stored in [byChapter] under [chapterNum]. *)
Definition chapterSet (m : list (string * list string)) (chapterNum : string)
    : list string :=
  match JsMap.get chapterNum m with Some s => s | None => [] end.

(** [if (!m.has(k)) m.set(k, v0)] followed by an update of the object
    stored under [k]. *)
Definition upsert {V : Type} (k : string) (v0 : V) (f : V -> V)
    (m : list (string * V)) : list (string * V) :=
  JsMap.update k f (if JsMap.has k m then m else JsMap.set k v0 m).

(** The order that a comparator induces: [x] may stay before [y]. *)
Definition notAfter {A : Type} (after : A -> A -> bool) (x y : A) : Prop :=
  after x y = false.

(** Two [byChapter] maps with the same chapters and the same programs in
    each chapter, in whatever insertion order. *)
Definition sameChapters (m1 m2 : list (string * list string)) : Prop :=
  JsMap.keys m1 ≡ₚ JsMap.keys m2
  /\ forall k, chapterSet m1 k ≡ₚ chapterSet m2 k.

(** Every chapter key is a numeral that [parseInt] reads exactly, and
    different keys have different values. *)
Definition numericChapters (keys : list string) : Prop :=
  (forall k, k ∈ keys -> exists n, Num.parseInt k = Some n /\ 0 <= n < 2 ^ 53)
  /\ (forall a b, a ∈ keys -> b ∈ keys -> Num.parseInt a = Num.parseInt b -> a = b).

(** [q] is an entry of the documentation directory whose name starts with
    [chapter], or lies below such an entry. *)
Definition underChapterEntry (q : list string) : bool :=
  match q with
  | d :: item :: _ =>
      bool_decide (d = "docs") && Str.startsWith "chapter" item
  | _ => false
  end.

Definition isDirectory (fs : FS) (p : list string) : bool :=
  match fs !! p with Some Directory => true | _ => false end.

(** The paths that [cleanGenerated] removes from [fs]. *)
Definition removedByClean (fs : FS) (q : list string) : bool :=
  match q with
  | d :: item :: _ =>
      underChapterEntry q
      && isDirectory fs DOCS_OUTPUT_DIR
      && existsSync fs [d; item]
  | _ => false
  end
  || isPrefix STATIC_OUTPUT_DIR q && existsSync fs STATIC_OUTPUT_DIR.

(** The tree after a run over the source directory with [fermi.m] and
    [Chapt1Exercise8.m]. *)
Definition generatedTree : FS :=
  list_to_map
    [ (["INBOX"], Directory);
      (["INBOX"; "fermi.m"], File "function f = fermi(E)");
      (["INBOX"; "Chapt1Exercise8.m"], File "clear all");
      (["sidebars.js"], File "module.exports = sidebars;");
      (["docs"], Directory);
      (["docs"; "intro.md"], File "# Applied Quantum Mechanics");
      (["docs"; "chapter1"], Directory);
      (["docs"; "chapter1"; "Chapt1Exercise8"], Directory);
      (["docs"; "chapter1"; "Chapt1Exercise8"; "index.mdx"], File "index");
      (["docs"; "chapter1"; "Chapt1Exercise8"; "Chapt1Exercise8_matlab.mdx"], File "detail");
      (["docs"; "utilities"], Directory);
      (["docs"; "utilities"; "fermi"], Directory);
      (["docs"; "utilities"; "fermi"; "index.mdx"], File "index");
      (["docs"; "utilities"; "fermi"; "fermi_matlab.mdx"], File "detail");
      (["static"], Directory);
      (["static"; "programs"], Directory);
      (["static"; "programs"; "matlab"], Directory);
      (["static"; "programs"; "matlab"; "fermi"], Directory);
      (["static"; "programs"; "matlab"; "fermi"; "fermi.m"], File "function f = fermi(E)");
      (["static"; "programs"; "matlab"; "Chapt1Exercise8"], Directory);
      (["static"; "programs"; "matlab"; "Chapt1Exercise8"; "Chapt1Exercise8.m"],
       File "clear all") ].

(** A documentation directory with a hand-written page whose name starts
    with [chapter]. *)
Definition treeWithChapterPage : FS :=
  list_to_map
    [ (["docs"], Directory);
      (["docs"; "intro.md"], File "# Applied Quantum Mechanics");
      (["docs"; "chapter-overview.md"], File "# Overview of the chapters") ].

(** [path.resolve] of a relative path without [.] and [..] segments when
    the run is started in the site directory. *)
Definition resolveInSite (p : string) : list string :=
  List.filter (fun seg => negb (Str.isEmpty seg)) (Path.segments p).

(** A site whose source directory lies below the static programs root. *)
Definition treeWithSourceInStatic : FS :=
  list_to_map
    [ (["docs"], Directory);
      (["docs"; "intro.md"], File "# Applied Quantum Mechanics");
      (["static"], Directory);
      (["static"; "programs"], Directory);
      (["static"; "programs"; "inbox"], Directory);
      (["static"; "programs"; "inbox"; "Chapt1Exercise8.m"], File "clear all") ].

Definition chapt5Exercise5Files : list string :=
  ["Chapt5Exercise5.m"; "Chapt5Exercise5.pdf"; "Chapt5Exercise5.tex";
   "Chapt5Exercise5.html"].

(** [s] is a single path segment. *)
Fixpoint noSlash (s : string) : bool :=
  match s with
  | EmptyString => true
  | String c s' => (if ascii_dec c "/" then false else true) && noSlash s'
  end.

Definition nonEmpty (s : string) : Prop := s <> EmptyString.

Definition digits (s : string) : Prop := Str.all Char.isDigit s = true.

(** A variant as the pattern reads it: a letter of either case followed by
    digits. *)
Definition variantShape (v : string) : Prop :=
  exists c ds, v = String c ds /\ Char.isLetter c = true /\ digits ds.

(** [r] does not start with a code unit satisfying [p]. *)
Definition stopsAt (p : ascii -> bool) (r : string) : Prop :=
  match r with
  | EmptyString => True
  | String c _ => p c = false
  end.

(** What may follow a match of the unanchored pattern with captures [m]. *)
Definition followsMatch (m : Captures) (r : string) : Prop :=
  match capVariant m with
  | Some _ => stopsAt Char.isDigit r
  | None => stopsAt Char.isDigit r /\ stopsAt Char.isLetter r
  end.

(** [s] is [p ++ chapter ++ type ++ number ++ variant ++ r] as the pattern
    requires it, with captures [m]. *)
Definition decomposes (s : string) (m : Captures) (r : string) : Prop :=
  exists p,
    s = p +:+ capChapter m +:+ capType m +:+ capNumber m
          +:+ orEmpty (capVariant m) +:+ r
    /\ Str.toUpperCase p = "CHAPT"
    /\ digits (capChapter m) /\ nonEmpty (capChapter m)
    /\ (Str.toUpperCase (capType m) = "EXERCISE" \/ Str.toUpperCase (capType m) = "FIG")
    /\ digits (capNumber m) /\ nonEmpty (capNumber m)
    /\ match capVariant m with Some v => variantShape v | None => True end
    /\ followsMatch m r.

(** * Further parts of the script *)

(** ** [escapeForYaml] *)

Fixpoint containsChar (c : ascii) (s : string) : bool :=
  match s with
  | EmptyString => false
  | String d s' => if ascii_dec d c then true else containsChar c s'
  end.

(** [str.replace(/"/g, '\\"')]: a backslash is put before every double
    quote. *)
Fixpoint escapeQuotes (s : string) : string :=
  match s with
  | EmptyString => EmptyString
  | String c s' =>
      if ascii_dec c Json.quote
      then String Json.backslash (String Json.quote (escapeQuotes s'))
      else String c (escapeQuotes s')
  end.

Definition escapeForYaml (str : string) : string :=
  if containsChar ":" str || containsChar "#" str
     || containsChar Json.quote str || containsChar "'" str
  then String Json.quote (escapeQuotes str +:+ String Json.quote EmptyString)
  else str.

(** The titles that the page generators pass to [escapeForYaml]: the display
    name on the index page, and the display name with the suffix of the
    generator that [generateDetailPage] selects on a detail page ([None]
    for the [default] case of the [switch]). *)
Definition detailTitleSuffix (ty : string) : option string :=
  if string_dec ty "matlab" then Some " - MATLAB"
  else if string_dec ty "latex" then Some " - LaTeX"
  else if string_dec ty "pdf" then Some " - PDF"
  else if string_dec ty "html" then Some " - HTML"
  else if string_dec ty "ipynb" then Some " - Notebook"
  else if string_dec ty "text" then Some " - Text"
  else None.

Definition indexTitle (info : Info.t) : string :=
  escapeForYaml (Info.displayName info).

Definition detailTitle (info : Info.t) (ty : string) : option string :=
  match detailTitleSuffix ty with
  | Some suffix => Some (escapeForYaml (Info.displayName info +:+ suffix))
  | None => None
  end.

(** The code units that make [escapeForYaml] quote a string. *)
Definition yamlSpecial (c : ascii) : bool :=
  Ascii.eqb c ":" || Ascii.eqb c "#" || Ascii.eqb c Json.quote || Ascii.eqb c "'".

(** ** Previews of the LaTeX and HTML detail pages *)

(** [s.substring(0, n)] *)
Fixpoint substring0 (n : nat) (s : string) : string :=
  match n, s with
  | S n', String c s' => String c (substring0 n' s')
  | _, _ => EmptyString
  end.

(** The first lines of [generateLatexPage]: the displayed content and the
    flag [truncated]. *)
Definition latexPreview (config : Cfg.t) (fileContent : string) : string * bool :=
  let content :=
    if Str.isEmpty fileContent then "% Unable to read file" else fileContent in
  match Cfg.maxPreviewLength config with
  | Some max =>
      if negb (max =? 0) && (max <? Z.of_nat (String.length content))
      then (substring0 (Z.to_nat max) content, true)
      else (content, false)
  | None => (content, false)
  end.

Definition htmlTruncationMark : string :=
  Json.nl +:+ Json.nl +:+ "<!-- ... truncated ... -->".

(** The content of the source block of [generateHtmlPage]; [None] when
    there is no content and the block is left out. *)
Definition htmlSource (fileContent : string) : option string :=
  if Str.isEmpty fileContent then None
  else if 20000 <? Z.of_nat (String.length fileContent)
       then Some (substring0 (Z.to_nat 20000) fileContent +:+ htmlTruncationMark)
       else Some fileContent.

(** ** The pages of a run in which copies and writes may fail *)

Section PagesWritten.
Variable readText : string -> option string.
Variable detailPage : Info.t -> string -> string -> string -> Cfg.t -> string.
Variable indexPage : Info.t -> list IndexEntry -> string.
Variable copyOk : string -> string -> bool.
Variable writeOk : string -> string -> bool.
Variable indexOk : string -> bool.



End PagesWritten.

(** ** Definitions used by the further statements *)

(** The members of all groups, group by group. *)
Definition allEntries (stats : Stats) : list FileEntry :=
  flat_map (fun kv => files (snd kv)) (programFiles stats).

(** The type that the file-type table gives to a listed file. *)
Definition typeOf (f : string) : option string :=
  option_map Cfg.type (getFileTypeConfig (Path.basename f)).

(** The count stored in [byType] under [ty]; [0] when the key is absent. *)
Definition countOf (ty : string) (m : list (string * nat)) : nat :=
  match JsMap.get ty m with Some n => n | None => 0%nat end.

(** Every group is stored under the programId of its identity, which is the
    identity of each of its members. *)
Definition wellGrouped (stats : Stats) : Prop :=
  forall pid g,
    JsMap.get pid (programFiles stats) = Some g ->
    Info.programId (programInfo g) = pid
    /\ (exists b, programInfo g = classify b)
    /\ Forall (fun e => isSupported (filePath e) = true
                        /\ filename e = Path.basename (filePath e)
                        /\ classify (baseNameOf (filePath e)) = programInfo g)
         (files g).

(** The order of the chapter summary: [a] may come before [b] when [b] is
    the utilities key, or when both are numerals and [a] is not the
    larger one. *)
Definition summaryBefore (a b : string) : Prop :=
  b = "utilities"
  \/ (a <> "utilities"
      /\ exists x y, Num.parseInt10 a = Some x /\ Num.parseInt10 b = Some y /\ x <= y).

(** Every numeral among the keys is below 2^53, so that [parseInt] reads it
    exactly. *)
Definition exactChapters (keys : list string) : Prop :=
  Forall (fun k => match Num.parseInt10 k with
                   | Some n => n < 2 ^ 53
                   | None => True
                   end) keys.

(** The entries of the documentation directory that [cleanGenerated]
    removes; none when the directory cannot be listed. *)
Definition chapterEntries (fs : FS) : list string :=
  match readdirSync fs DOCS_OUTPUT_DIR with
  | Some items => filter (fun item => Str.startsWith "chapter" item = true) items
  | None => []
  end.

(** ** [scanDirectory] *)

(** An entry of a directory as [readdirSync] reports it with
    [withFileTypes]: a regular file, a directory with its own entries in
    the order of their listing, or an entry that is neither (a socket, a
    link). *)
#[local] Unset Elimination Schemes.
Inductive DirItem :=
  | ItemFile (name : string)
  | ItemDir (name : string) (children : list DirItem)
  | ItemOther (name : string).
#[local] Set Elimination Schemes.

(** [path.join(name, f)] for the name of an entry and a path below it.
    The names that [readdirSync] returns are not empty, hold no slash and
    are neither [.] nor [..], so that the normalisation of [path.join] has
    nothing to do. *)
Definition pathJoin (name f : string) : string := name +:+ "/" +:+ f.

(** The body of the loop of [scanDirectory]: what one entry adds to
    [results]. *)
Fixpoint scanItem (recursive : bool) (item : DirItem) : list string :=
  match item with
  | ItemFile name => [name]
  | ItemDir name children =>
      if recursive
      then List.map (pathJoin name) (flat_map (scanItem true) children)
      else []
  | ItemOther _ => []
  end.

(** [scanDirectory(dir, recursive)]; the directory is [None] when it does
    not exist. *)
Definition scanDirectory (dir : option (list DirItem)) (recursive : bool)
    : list string :=
  match dir with
  | None => []
  | Some items => flat_map (scanItem recursive) items
  end.

Definition itemName (item : DirItem) : string :=
  match item with
  | ItemFile name => name
  | ItemDir name _ => name
  | ItemOther name => name
  end.

(** A name that a directory listing can hold. *)
Definition validName (name : string) : bool :=
  negb (Str.isEmpty name) && noSlash name.

(** All names in the tree are valid, and no directory holds two entries of
    the same name. *)
Fixpoint wellNamed (item : DirItem) : bool :=
  validName (itemName item)
  && match item with
     | ItemDir _ children =>
         bool_decide (NoDup (List.map itemName children)) && forallb wellNamed children
     | _ => true
     end.

Definition wellNamedDir (items : list DirItem) : bool :=
  bool_decide (NoDup (List.map itemName items)) && forallb wellNamed items.

(** The names of the regular files of the tree, in the order of a
    depth-first walk. *)
Fixpoint fileNames (item : DirItem) : list string :=
  match item with
  | ItemFile name => [name]
  | ItemDir _ children => flat_map fileNames children
  | ItemOther _ => []
  end.


(** ** [debounce] and the watcher *)

Section Debounce.
Context {Args : Type}.

(** The invocations of [func], with their times, when the debounced
    function is called at the given times.  The calls come in the order of
    their times.  [pending] is the variable [timeout]: the timer that the
    call before has set, with the time at which it fires and the arguments
    that [later] passes on.  Each call clears the pending timer and sets a
    new one; a timer whose time has come when the next call arrives has
    fired before that call.  The timer fires [wait] after the call, which
    is what [setTimeout] does for a [wait] from 1 to 2^31 - 1; for any
    other delay it uses 1. *)
Fixpoint debounceRun (wait : Z) (pending : option (Z * Args))
    (calls : list (Z * Args)) : list (Z * Args) :=
  match calls with
  | [] =>
      match pending with
      | Some fired => [fired]
      | None => []
      end
  | (t, args) :: rest =>
      match pending with
      | Some (deadline, args0) =>
          if deadline <=? t
          then (deadline, args0) :: debounceRun wait (Some (t + wait, args)) rest
          else debounceRun wait (Some (t + wait, args)) rest
      | None => debounceRun wait (Some (t + wait, args)) rest
      end
  end.

(** [debounce(func, wait)], no timer being set at the start. *)
Definition debounce (wait : Z) (calls : list (Z * Args)) : list (Z * Args) :=
  debounceRun wait None calls.


(** The calls come in the order of their times. *)
Fixpoint inTimeOrder (calls : list (Z * Args)) : Prop :=
  match calls with
  | (t1, _) :: ((t2, _) :: _) as rest => t1 <= t2 /\ inTimeOrder rest
  | _ => True
  end.
End Debounce.

(** The callback that [watchMode] gives to [fs.watch]: an event at time
    [t] with a file name calls the debounced run when the name has a
    supported extension; an event without file name is dropped. *)
Definition watchCall (event : Z * option string) : option (Z * unit) :=
  match snd event with
  | None => None
  | Some filename =>
      if Str.isEmpty filename then None
      else if Str.includes SUPPORTED_EXTENSIONS (Str.toLowerCase (Path.extname filename))
           then Some (fst event, tt)
           else None
  end.

(** An event for a file with a supported extension. *)
Definition supportedEvent (event : Z * option string) : bool :=
  match snd event with
  | Some filename => isSupported filename
  | None => false
  end.

(** The times at which [watchMode] regenerates the documentation after its
    first run, for the events that the watcher reports once it has been
    started. *)
Definition watchRuns (events : list (Z * option string)) : list Z :=
  List.map fst (debounce 1000 (omap watchCall events)).

(** The link from a card of the index page to the detail page of the
    member ([detailPageLink] in [generateIndexPage]). *)
Definition detailPageLink (programId : string) (e : IndexEntry) : string :=
  "./" +:+ programId +:+ "_" +:+ Cfg.type (entryConfig e).

(** The [filesList] element pushed for a member of the group of
    [programId]. *)
Definition indexEntryOf (programId : string) (e : FileEntry) : IndexEntry :=
  {| entryFilename := filename e;
     fileType := Cfg.type (config e);
     staticPath := "/programs/" +:+ Cfg.type (config e) +:+ "/" +:+ programId +:+ "/"
                     +:+ filename e;
     entryConfig := config e |}.

(** The static paths given to the members of all groups when no copy
    fails. *)
Definition staticPaths (stats : Stats) : list string :=
  flat_map (fun kv => List.map staticPath
                        (filesListOf (fun _ _ => true) (fun _ _ => true) (fst kv) (snd kv)))
           (programFiles stats).

(** * Properties *)

Local Arguments String.append : simpl nomatch.

(** ** Code units and strings *)

Ltac by_cases_on_code c :=
  destruct c as [[] [] [] [] [] [] [] []]; vm_compute; try congruence; auto.

Lemma digit_not_letter c : Char.isDigit c = true -> Char.isLetter c = false.
Proof. by_cases_on_code c. Qed.

Lemma letter_not_digit c : Char.isLetter c = true -> Char.isDigit c = false.
Proof. by_cases_on_code c. Qed.

Lemma toUpper_letter_not_digit c d :
  Char.isLetter d = true -> Char.toUpper c = Char.toUpper d -> Char.isDigit c = false.
Proof.
  intros Hd Hc. destruct (Char.isDigit c) eqn:E; [|done].
  assert (Char.toUpper c = c) as Hcc by (revert E; clear; by_cases_on_code c).
  assert (Char.isLetter (Char.toUpper d) = true) as Hl
    by (revert Hd; clear; by_cases_on_code d).
  rewrite <- Hc, Hcc in Hl. apply letter_not_digit in Hl. congruence.
Qed.

Lemma app_empty_r s : s +:+ "" = s.
Proof. induction s; simpl; congruence. Qed.

Lemma isEmpty_true s : Str.isEmpty s = true <-> s = "".
Proof. destruct s; simpl; split; congruence. Qed.

Lemma isEmpty_false s : Str.isEmpty s = false <-> s <> "".
Proof. destruct s; simpl; split; congruence. Qed.

Lemma span_spec p s a b :
  Str.span p s = (a, b) -> s = a +:+ b /\ Str.all p a = true /\ stopsAt p b.
Proof.
  revert a b. induction s as [|c s IH]; simpl; intros a b H.
  - injection H as <- <-. done.
  - destruct (p c) eqn:E.
    + destruct (Str.span p s) as [a' b'] eqn:Es. injection H as <- <-.
      destruct (IH _ _ eq_refl) as (-> & Ha & Hb). simpl. rewrite E. done.
    + injection H as <- <-. simpl. done.
Qed.

Lemma span_app p a b :
  Str.all p a = true -> stopsAt p b -> Str.span p (a +:+ b) = (a, b).
Proof.
  induction a as [|c a IH]; simpl; intros Ha Hb.
  - destruct b as [|d b]; simpl in *; [done|]. by rewrite Hb.
  - apply andb_prop in Ha as [Hc Ha]. rewrite Hc, IH; done.
Qed.

Lemma matchLiteral_spec lit s m r :
  matchLiteral lit s = Some (m, r) ->
  s = m +:+ r /\ Str.toUpperCase m = Str.toUpperCase lit.
Proof.
  revert s m r. induction lit as [|a lit IH]; intros s m r H.
  - destruct s; simpl in H; injection H as <- <-; done.
  - destruct s as [|c s]; simpl in H; [done|].
    destruct (ascii_dec _ _) as [E|]; [|done].
    destruct (matchLiteral lit s) as [[m' r']|] eqn:Em; [|done].
    injection H as <- <-. destruct (IH _ _ _ Em) as (-> & Hm).
    split; [done|]. unfold Str.toUpperCase in *. simpl. congruence.
Qed.

Lemma matchLiteral_app lit m r :
  Str.toUpperCase m = Str.toUpperCase lit -> matchLiteral lit (m +:+ r) = Some (m, r).
Proof.
  revert m. induction lit as [|a lit IH]; intros m H.
  - destruct m; [|done]. destruct r; done.
  - destruct m as [|c m]; [done|]. unfold Str.toUpperCase in *. simpl in *.
    injection H as Hc Hm. destruct (ascii_dec _ _); [|congruence].
    by rewrite IH.
Qed.

Lemma matchLiteral_head_mismatch a lit c s :
  Char.toUpper a <> Char.toUpper c -> matchLiteral (String a lit) (String c s) = None.
Proof. intros H. simpl. destruct (ascii_dec _ _); done. Qed.

(** ** The pattern *)

Lemma matchPrefix_sound s m r : matchPrefix s = Some (m, r) -> decomposes s m r.
Proof.
  unfold matchPrefix. intros H.
  destruct (matchLiteral "Chapt" s) as [[p r1]|] eqn:E1; [|done].
  apply matchLiteral_spec in E1 as (-> & Hp).
  destruct (Str.span Char.isDigit r1) as [chapter r2] eqn:E2.
  apply span_spec in E2 as (-> & Hc & _).
  destruct (Str.isEmpty chapter) eqn:Ec; [done|]. apply isEmpty_false in Ec.
  assert (exists type r3, r2 = type +:+ r3 /\
            (Str.toUpperCase type = "EXERCISE" \/ Str.toUpperCase type = "FIG") /\
            H = H) as (type & r3 & -> & Ht & _).
  { destruct (matchLiteral "Exercise" r2) as [[t r3]|] eqn:Ee.
    - apply matchLiteral_spec in Ee as (-> & Ht). exists t, r3. auto.
    - destruct (matchLiteral "Fig" r2) as [[t r3]|] eqn:Ef; [|done].
      apply matchLiteral_spec in Ef as (-> & Ht). exists t, r3. auto. }
  assert (match matchLiteral "Exercise" (type +:+ r3) with
          | Some m0 => Some m0
          | None => matchLiteral "Fig" (type +:+ r3)
          end = Some (type, r3)) as Halt.
  { destruct Ht as [Ht|Ht].
    - by rewrite matchLiteral_app.
    - destruct type as [|t0 type]; [done|].
      change (String t0 type +:+ r3) with (String t0 (type +:+ r3)).
      rewrite matchLiteral_head_mismatch.
      + change (String t0 (type +:+ r3)) with (String t0 type +:+ r3).
        by rewrite matchLiteral_app.
      + unfold Str.toUpperCase in Ht. simpl in Ht. injection Ht as Ht _.
        rewrite Ht. done. }
  rewrite Halt in H. clear Halt.
  destruct (Str.span Char.isDigit r3) as [number r4] eqn:E4.
  apply span_spec in E4 as (-> & Hn & Hstop).
  destruct (Str.isEmpty number) eqn:En; [done|]. apply isEmpty_false in En.
  destruct r4 as [|c r5].
  - injection H as <- <-. exists p. simpl. rewrite app_empty_r.
    repeat split; auto.
  - destruct (Char.isLetter c) eqn:El.
    + destruct (Str.span Char.isDigit r5) as [ds r6] eqn:E6.
      apply span_spec in E6 as (-> & Hds & Hstop6).
      injection H as <- <-. exists p. simpl.
      repeat split; auto. exists c, ds. auto.
    + injection H as <- <-. exists p. simpl.
      repeat split; auto.
Qed.

Lemma matchPrefix_complete s m r : decomposes s m r -> matchPrefix s = Some (m, r).
Proof.
  intros (p & -> & Hp & Hc & Hce & Ht & Hn & Hne & Hv & Hr).
  destruct m as [chapter type number variant]. simpl in *.
  unfold matchPrefix.
  rewrite matchLiteral_app by done.
  assert (exists t0 type', type = String t0 type' /\ Char.isDigit t0 = false)
    as (t0 & type' & -> & Ht0).
  { destruct type as [|t0 type']; [by destruct Ht|]. exists t0, type'.
    split; [done|].
    unfold Str.toUpperCase in Ht. simpl in Ht.
    destruct Ht as [Ht|Ht]; injection Ht as Ht _.
    - by apply (toUpper_letter_not_digit t0 "E").
    - by apply (toUpper_letter_not_digit t0 "F"). }
  rewrite span_app by done.
  apply isEmpty_false in Hce as ->.
  assert (match matchLiteral "Exercise" (String t0 type' +:+ number +:+ orEmpty variant +:+ r) with
          | Some m0 => Some m0
          | None => matchLiteral "Fig" (String t0 type' +:+ number +:+ orEmpty variant +:+ r)
          end = Some (String t0 type', number +:+ orEmpty variant +:+ r)) as ->.
  { destruct Ht as [Ht|Ht].
    - by rewrite matchLiteral_app.
    - change (String t0 type' +:+ ?x) with (String t0 (type' +:+ x)).
      rewrite matchLiteral_head_mismatch.
      + change (String t0 (type' +:+ ?x)) with (String t0 type' +:+ x).
        by rewrite matchLiteral_app.
      + unfold Str.toUpperCase in Ht. simpl in Ht. injection Ht as Ht _.
        rewrite Ht. done. }
  destruct variant as [v|]; simpl.
  - destruct Hv as (c & ds & -> & Hl & Hds).
    rewrite span_app; [|done|simpl; by apply letter_not_digit].
    apply isEmpty_false in Hne as ->. simpl. rewrite Hl.
    unfold followsMatch in Hr. simpl in Hr.
    by rewrite span_app.
  - unfold followsMatch in Hr. simpl in Hr. destruct Hr as [Hd Hl].
    rewrite span_app by done.
    apply isEmpty_false in Hne as ->.
    destruct r as [|c r]; [done|]. simpl in Hl. by rewrite Hl.
Qed.

Lemma matchProgramPattern_iff b m :
  matchProgramPattern b = Some m <-> decomposes b m "".
Proof.
  unfold matchProgramPattern. split.
  - destruct (matchPrefix b) as [[m' r]|] eqn:E; [|done].
    destruct r; [|done]. intros [= ->]. by apply matchPrefix_sound.
  - intros H. by rewrite (matchPrefix_complete _ _ _ H).
Qed.

Lemma searchProgramPattern_at_start s m r :
  matchPrefix s = Some (m, r) -> searchProgramPattern s = Some m.
Proof. intros H. destruct s; cbn [searchProgramPattern]; by rewrite H. Qed.

(** ** Paths *)

Lemma segments_noSlash p : Forall (fun s => noSlash s = true) (Path.segments p).
Proof.
  induction p as [|c p IH]; simpl.
  - by repeat constructor.
  - destruct (ascii_dec c "/") as [->|Hc].
    + by constructor.
    + destruct (Path.segments p) as [|seg r] eqn:E.
      * repeat constructor. simpl. by destruct (ascii_dec c "/").
      * inversion IH; subst. constructor; [|done].
        simpl. by destruct (ascii_dec c "/").
Qed.

Lemma segments_of_noSlash s : noSlash s = true -> Path.segments s = [s].
Proof.
  induction s as [|c s IH]; simpl; [done|].
  destruct (ascii_dec c "/"); [done|]. simpl. intros H. by rewrite IH.
Qed.

Lemma basename_noSlash p : noSlash (Path.basename p) = true.
Proof.
  unfold Path.basename.
  assert (Forall (fun s => noSlash s = true)
            (List.filter (fun s => negb (Str.isEmpty s)) (Path.segments p))) as H.
  { apply List.Forall_forall. intros x Hx. apply List.filter_In in Hx as [Hx _].
    revert x Hx. apply List.Forall_forall, segments_noSlash. }
  induction H as [|x l Hx Hl IH]; [done|].
  destruct l; simpl in *; done.
Qed.

Lemma basename_of_noSlash s : noSlash s = true -> Path.basename s = s.
Proof.
  intros H. unfold Path.basename. rewrite segments_of_noSlash by done.
  by destruct s.
Qed.

Lemma basename_idem p : Path.basename (Path.basename p) = Path.basename p.
Proof. apply basename_of_noSlash, basename_noSlash. Qed.

Lemma extname_basename p : Path.extname (Path.basename p) = Path.extname p.
Proof. unfold Path.extname. by rewrite basename_idem. Qed.

Lemma isSupported_basename f : isSupported (Path.basename f) = isSupported f.
Proof. unfold isSupported. by rewrite extname_basename. Qed.

(** ** Classification *)

Lemma includes_elem_of l x : Str.includes l x = true <-> x ∈ l.
Proof.
  induction l as [|y l IH]; simpl; [split; [done|by intros ?%elem_of_nil]|].
  rewrite elem_of_cons.
  destruct (string_dec y x) as [->|Hne]; [tauto|]. rewrite IH. split; [tauto|].
  intros [?|?]; done.
Qed.

(** The keys of [FILE_TYPES] are the supported extensions. *)
Lemma FILE_TYPES_supported ext :
  JsMap.get ext FILE_TYPES = None <-> Str.includes SUPPORTED_EXTENSIONS ext = false.
Proof.
  unfold FILE_TYPES, SUPPORTED_EXTENSIONS. cbn [JsMap.get Str.includes].
  repeat (destruct (string_dec _ ext); [split; intros; discriminate|]).
  split; reflexivity.
Qed.

Lemma getFileTypeConfig_None filename :
  getFileTypeConfig filename = None <-> isSupported filename = false.
Proof. apply FILE_TYPES_supported. Qed.

Lemma extractProgramInfo_None filename :
  extractProgramInfo filename = None <->
  matchProgramPattern (Path.basenameExt filename (Path.extname filename)) = None
  /\ isSupported filename = false.
Proof.
  unfold extractProgramInfo, isSupported.
  destruct (matchProgramPattern _); [split; [done|intros []; done]|].
  destruct (Str.includes _ _); simpl; split; try done. intros []; done.
Qed.

Lemma extractProgramInfo_supported f :
  isSupported f = true ->
  extractProgramInfo (Path.basename f) = Some (classify (baseNameOf f)).
Proof.
  intros H. rewrite <- isSupported_basename in H.
  unfold extractProgramInfo, classify, baseNameOf.
  unfold isSupported in H. rewrite H.
  by destruct (matchProgramPattern _).
Qed.

Lemma getFileTypeConfig_supported f :
  isSupported f = true -> exists config, getFileTypeConfig (Path.basename f) = Some config.
Proof.
  intros H. rewrite <- isSupported_basename in H.
  destruct (getFileTypeConfig (Path.basename f)) eqn:E; [eauto|].
  apply getFileTypeConfig_None in E. congruence.
Qed.

(** Every type of the table is ranked by [typeOrder] and has a detail page. *)
Lemma FILE_TYPES_ranked ext config :
  JsMap.get ext FILE_TYPES = Some config ->
  0 <= Str.indexOf typeOrder (Cfg.type config) /\ hasDetailPage (Cfg.type config) = true.
Proof.
  unfold FILE_TYPES. cbn [JsMap.get].
  repeat (destruct (string_dec _ ext); [intros [= <-]; by vm_compute|]).
  done.
Qed.

(** ** Maps and sets with insertion order *)

Section JsMapFacts.
Context {V : Type}.
Implicit Types (m : list (string * V)) (k : string).

Lemma get_set_eq k v m : JsMap.get k (JsMap.set k v m) = Some v.
Proof.
  induction m as [|[k' v'] m IH]; simpl.
  - by destruct (string_dec k k).
  - destruct (string_dec k' k) as [->|Hne]; simpl.
    + by destruct (string_dec k k).
    + by destruct (string_dec k' k).
Qed.

Lemma get_set_ne k k' v m : k <> k' -> JsMap.get k' (JsMap.set k v m) = JsMap.get k' m.
Proof.
  intros Hne. induction m as [|[k0 v0] m IH]; simpl.
  - by destruct (string_dec k k').
  - destruct (string_dec k0 k) as [->|Hk]; simpl.
    + by destruct (string_dec k k').
    + by destruct (string_dec k0 k').
Qed.

Lemma get_update_eq k f m :
  JsMap.get k (JsMap.update k f m) = option_map f (JsMap.get k m).
Proof.
  induction m as [|[k0 v0] m IH]; simpl; [done|].
  destruct (string_dec k0 k) as [->|Hk]; simpl.
  - by destruct (string_dec k k).
  - by destruct (string_dec k0 k).
Qed.

Lemma get_update_ne k k' f m :
  k <> k' -> JsMap.get k' (JsMap.update k f m) = JsMap.get k' m.
Proof.
  intros Hne. induction m as [|[k0 v0] m IH]; simpl; [done|].
  destruct (string_dec k0 k) as [->|Hk]; simpl.
  - by destruct (string_dec k k').
  - by destruct (string_dec k0 k').
Qed.

Lemma keys_update k f m : JsMap.keys (JsMap.update k f m) = JsMap.keys m.
Proof.
  induction m as [|[k0 v0] m IH]; simpl; [done|].
  destruct (string_dec k0 k); simpl; [done|]. f_equal. exact IH.
Qed.

Lemma get_None_keys k m : JsMap.get k m = None <-> k ∉ JsMap.keys m.
Proof.
  induction m as [|[k0 v0] m IH]; simpl; [split; [by intros _ ?%elem_of_nil|done]|].
  rewrite not_elem_of_cons.
  destruct (string_dec k0 k) as [->|Hne]; [split; [done|tauto]|].
  rewrite IH. split; [|tauto]. intros ?. split; [congruence|done].
Qed.

Lemma has_true k m : JsMap.has k m = true <-> k ∈ JsMap.keys m.
Proof.
  unfold JsMap.has. destruct (JsMap.get k m) eqn:E.
  - split; [|done]. intros _. destruct (decide (k ∈ JsMap.keys m)) as [|Hn]; [done|].
    apply get_None_keys in Hn. congruence.
  - apply get_None_keys in E. split; [done|tauto].
Qed.

Lemma keys_set_new k v m :
  JsMap.get k m = None -> JsMap.keys (JsMap.set k v m) = JsMap.keys m ++ [k].
Proof.
  induction m as [|[k0 v0] m IH]; simpl; [done|].
  destruct (string_dec k0 k); [done|]. intros H. simpl.
  f_equal. by apply IH.
Qed.

Lemma upsert_nil k (v0 : V) f : upsert k v0 f [] = [(k, f v0)].
Proof. unfold upsert. simpl. by destruct (string_dec k k). Qed.

Lemma get_upsert_eq k v0 f m :
  JsMap.get k (upsert k v0 f m)
  = Some (f (match JsMap.get k m with Some v => v | None => v0 end)).
Proof.
  unfold upsert, JsMap.has. rewrite get_update_eq.
  destruct (JsMap.get k m) eqn:E; [by rewrite E|]. by rewrite get_set_eq.
Qed.

Lemma get_upsert_ne k k' v0 f m :
  k <> k' -> JsMap.get k' (upsert k v0 f m) = JsMap.get k' m.
Proof.
  intros Hne. unfold upsert. rewrite get_update_ne by done.
  destruct (JsMap.has k m); [done|]. by apply get_set_ne.
Qed.

Lemma keys_upsert k v0 f m :
  JsMap.keys (upsert k v0 f m)
  = if JsMap.has k m then JsMap.keys m else JsMap.keys m ++ [k].
Proof.
  unfold upsert. rewrite keys_update. unfold JsMap.has.
  destruct (JsMap.get k m) eqn:E; [done|]. by apply keys_set_new.
Qed.

Lemma NoDup_keys_upsert k v0 f m :
  NoDup (JsMap.keys m) -> NoDup (JsMap.keys (upsert k v0 f m)).
Proof.
  intros H. rewrite keys_upsert. destruct (JsMap.has k m) eqn:E; [done|].
  apply NoDup_app. split; [done|]. split; [|apply NoDup_singleton].
  intros x Hx ->%list_elem_of_singleton.
  apply has_true in Hx. congruence.
Qed.

Lemma elem_of_keys_upsert k k' v0 f m :
  k' ∈ JsMap.keys (upsert k v0 f m) <-> k' = k \/ k' ∈ JsMap.keys m.
Proof.
  rewrite keys_upsert. destruct (JsMap.has k m) eqn:E.
  - apply has_true in E. split; [tauto|]. intros [->|]; done.
  - rewrite elem_of_app, list_elem_of_singleton. tauto.
Qed.
End JsMapFacts.

Lemma elem_of_add x y s : y ∈ JsSet.add x s <-> y = x \/ y ∈ s.
Proof.
  unfold JsSet.add. destruct (Str.includes s x) eqn:E.
  - apply includes_elem_of in E. split; [tauto|]. intros [->|]; done.
  - rewrite elem_of_app, list_elem_of_singleton. tauto.
Qed.

Lemma NoDup_add x s : NoDup s -> NoDup (JsSet.add x s).
Proof.
  intros H. unfold JsSet.add. destruct (Str.includes s x) eqn:E; [done|].
  apply NoDup_app. split; [done|]. split; [|apply NoDup_singleton].
  intros y Hy ->%list_elem_of_singleton.
  apply includes_elem_of in Hy. congruence.
Qed.

(** ** The grouping loop *)

Lemma elem_of_supportedFiles f l :
  f ∈ supportedFiles l <-> f ∈ l /\ isSupported f = true.
Proof. unfold supportedFiles. rewrite !list_elem_of_In. apply List.filter_In. Qed.

Lemma supportedFiles_app l1 l2 :
  supportedFiles (l1 ++ l2) = supportedFiles l1 ++ supportedFiles l2.
Proof. apply List.filter_app. Qed.

Lemma supportedFiles_all l : Forall (fun f => isSupported f = true) (supportedFiles l).
Proof. apply Forall_forall. intros f. rewrite elem_of_supportedFiles. tauto. Qed.

(** What the loop body does for a supported file: neither skip branch is
    taken. *)
Lemma collectFile_supported s f :
  isSupported f = true ->
  exists config,
    getFileTypeConfig (Path.basename f) = Some config /\
    collectFile s f =
      {| processed := processed s;
         skipped := skipped s;
         utilities := if Info.isUtility (classify (baseNameOf f))
                      then S (utilities s) else utilities s;
         byChapter := upsert (chapterNumOf f) [] (JsSet.add (programIdOf f)) (byChapter s);
         byType := countType (Cfg.type config) (byType s);
         programFiles :=
           upsert (programIdOf f)
                  {| programInfo := classify (baseNameOf f); files := [] |}
                  (pushFile (entryOf f config)) (programFiles s) |}.
Proof.
  intros H. destruct (getFileTypeConfig_supported f H) as [config Hc].
  exists config. split; [done|].
  unfold collectFile. by rewrite (extractProgramInfo_supported f H), Hc.
Qed.

Lemma skipped_collectFile s f :
  isSupported f = true -> skipped (collectFile s f) = skipped s.
Proof. intros H. destruct (collectFile_supported s f H) as (c & _ & ->). done. Qed.

Lemma skipped_fold l s :
  Forall (fun f => isSupported f = true) l ->
  skipped (fold_left collectFile l s) = skipped s.
Proof.
  intros H. revert s. induction H as [|f l Hf Hl IH]; intros s; simpl; [done|].
  by rewrite IH, skipped_collectFile.
Qed.

Lemma membersOf_collectFile s f pid :
  isSupported f = true ->
  membersOf (collectFile s f) pid
  = if decide (programIdOf f = pid) then membersOf s pid ++ [f] else membersOf s pid.
Proof.
  intros H. destruct (collectFile_supported s f H) as (c & _ & ->).
  unfold membersOf. simpl. destruct (decide (programIdOf f = pid)) as [<-|Hne].
  - rewrite get_upsert_eq. destruct (JsMap.get _ _); simpl.
    + by rewrite List.map_app.
    + done.
  - by rewrite get_upsert_ne.
Qed.

Lemma membersOf_fold l s pid :
  Forall (fun f => isSupported f = true) l ->
  membersOf (fold_left collectFile l s) pid
  = membersOf s pid ++ filter (fun f => programIdOf f = pid) l.
Proof.
  intros H. revert s. induction H as [|f l Hf Hl IH]; intros s; simpl.
  - by rewrite app_nil_r.
  - rewrite IH, membersOf_collectFile by done. rewrite filter_cons.
    destruct (decide (programIdOf f = pid)); [|done].
    by rewrite <- app_assoc.
Qed.

Lemma groupKeys_collectFile s f k :
  isSupported f = true ->
  k ∈ JsMap.keys (programFiles (collectFile s f))
  <-> k = programIdOf f \/ k ∈ JsMap.keys (programFiles s).
Proof.
  intros H. destruct (collectFile_supported s f H) as (c & _ & ->).
  apply elem_of_keys_upsert.
Qed.

Lemma groupKeys_fold l s k :
  Forall (fun f => isSupported f = true) l ->
  k ∈ JsMap.keys (programFiles (fold_left collectFile l s))
  <-> k ∈ JsMap.keys (programFiles s) \/ exists f, f ∈ l /\ programIdOf f = k.
Proof.
  intros H. revert s. induction H as [|f l Hf Hl IH]; intros s; simpl.
  - split; [tauto|]. intros [?|(f & ?%elem_of_nil & _)]; done.
  - rewrite IH, groupKeys_collectFile by done. split.
    + intros [[->|?]|(g & Hg & <-)]; [right; exists f; split; [left|]; done|by left|].
      right. exists g. split; [by right|done].
    + intros [?|(g & Hg & <-)]; [left; by right|].
      apply elem_of_cons in Hg as [->|Hg]; [left; by left|].
      right. by exists g.
Qed.

Lemma groupKeys_NoDup_fold l s :
  Forall (fun f => isSupported f = true) l ->
  NoDup (JsMap.keys (programFiles s)) ->
  NoDup (JsMap.keys (programFiles (fold_left collectFile l s))).
Proof.
  intros H. revert s. induction H as [|f l Hf Hl IH]; intros s Hs; simpl; [done|].
  apply IH. destruct (collectFile_supported s f Hf) as (c & _ & ->).
  by apply NoDup_keys_upsert.
Qed.

Lemma chapterKeys_collectFile s f k :
  isSupported f = true ->
  k ∈ JsMap.keys (byChapter (collectFile s f))
  <-> k = chapterNumOf f \/ k ∈ JsMap.keys (byChapter s).
Proof.
  intros H. destruct (collectFile_supported s f H) as (c & _ & ->).
  apply elem_of_keys_upsert.
Qed.

Lemma chapterKeys_fold l s k :
  Forall (fun f => isSupported f = true) l ->
  k ∈ JsMap.keys (byChapter (fold_left collectFile l s))
  <-> k ∈ JsMap.keys (byChapter s) \/ exists f, f ∈ l /\ chapterNumOf f = k.
Proof.
  intros H. revert s. induction H as [|f l Hf Hl IH]; intros s; simpl.
  - split; [tauto|]. intros [?|(f & ?%elem_of_nil & _)]; done.
  - rewrite IH, chapterKeys_collectFile by done. split.
    + intros [[->|?]|(g & Hg & <-)]; [right; exists f; split; [left|]; done|by left|].
      right. exists g. split; [by right|done].
    + intros [?|(g & Hg & <-)]; [left; by right|].
      apply elem_of_cons in Hg as [->|Hg]; [left; by left|].
      right. by exists g.
Qed.

Lemma chapterKeys_NoDup_fold l s :
  Forall (fun f => isSupported f = true) l ->
  NoDup (JsMap.keys (byChapter s)) ->
  NoDup (JsMap.keys (byChapter (fold_left collectFile l s))).
Proof.
  intros H. revert s. induction H as [|f l Hf Hl IH]; intros s Hs; simpl; [done|].
  apply IH. destruct (collectFile_supported s f Hf) as (c & _ & ->).
  by apply NoDup_keys_upsert.
Qed.

Lemma chapterSet_collectFile s f k :
  isSupported f = true ->
  chapterSet (byChapter (collectFile s f)) k
  = if decide (chapterNumOf f = k)
    then JsSet.add (programIdOf f) (chapterSet (byChapter s) k)
    else chapterSet (byChapter s) k.
Proof.
  intros H. destruct (collectFile_supported s f H) as (c & _ & ->).
  unfold chapterSet. simpl. destruct (decide (chapterNumOf f = k)) as [<-|Hne].
  - by rewrite get_upsert_eq.
  - by rewrite get_upsert_ne.
Qed.

Lemma chapterSet_fold l s k pid :
  Forall (fun f => isSupported f = true) l ->
  pid ∈ chapterSet (byChapter (fold_left collectFile l s)) k
  <-> pid ∈ chapterSet (byChapter s) k
      \/ exists f, f ∈ l /\ chapterNumOf f = k /\ programIdOf f = pid.
Proof.
  intros H. revert s. induction H as [|f l Hf Hl IH]; intros s; simpl.
  - split; [tauto|]. intros [?|(f & ?%elem_of_nil & _)]; done.
  - rewrite IH, chapterSet_collectFile by done.
    destruct (decide (chapterNumOf f = k)) as [Hk|Hk].
    + rewrite elem_of_add. split.
      * intros [[->|?]|(g & Hg & ? & ?)]; [right; exists f; split; [left|]; done|by left|].
        right. exists g. split; [by right|done].
      * intros [?|(g & Hg & Hgk & Hgp)]; [left; by right|].
        apply elem_of_cons in Hg as [->|Hg]; [left; by left|].
        right. by exists g.
    + split.
      * intros [?|(g & Hg & ? & ?)]; [by left|].
        right. exists g. split; [by right|done].
      * intros [?|(g & Hg & Hgk & Hgp)]; [by left|].
        apply elem_of_cons in Hg as [->|Hg]; [done|].
        right. by exists g.
Qed.

Lemma chapterSet_NoDup_fold l s :
  Forall (fun f => isSupported f = true) l ->
  (forall k, NoDup (chapterSet (byChapter s) k)) ->
  forall k, NoDup (chapterSet (byChapter (fold_left collectFile l s)) k).
Proof.
  intros H. revert s. induction H as [|f l Hf Hl IH]; intros s Hs; simpl; [done|].
  apply IH. intros k. rewrite chapterSet_collectFile by done.
  destruct (decide _); [by apply NoDup_add|done].
Qed.

Lemma supportedFiles_id l :
  Forall (fun f => isSupported f = true) l -> supportedFiles l = l.
Proof.
  induction 1 as [|f l Hf Hl IH]; [done|].
  unfold supportedFiles in *. simpl. by rewrite Hf, IH.
Qed.

Lemma one_group_fold l s pid g0 :
  programFiles s = [(pid, g0)] ->
  Forall (fun f => isSupported f = true /\ programIdOf f = pid) l ->
  exists g,
    programFiles (fold_left collectFile l s) = [(pid, g)]
    /\ List.map filePath (files g) = List.map filePath (files g0) ++ l
    /\ programInfo g = programInfo g0.
Proof.
  intros Hs H. revert s g0 Hs.
  induction H as [|f l [Hf Hp] Hl IH]; intros s g0 Hs; simpl.
  - exists g0. by rewrite app_nil_r.
  - destruct (collectFile_supported s f Hf) as (c & _ & Hstep).
    destruct (IH (collectFile s f) (pushFile (entryOf f c) g0)) as (g & Hg & Hm & Hi).
    { rewrite Hstep, Hs, Hp. unfold upsert, JsMap.has. simpl.
      destruct (string_dec pid pid); [|done]. simpl.
      by destruct (string_dec pid pid). }
    exists g. split; [done|]. split; [|done].
    rewrite Hm. simpl. rewrite List.map_app. simpl. by rewrite <- app_assoc.
Qed.

(** Supported files that all have the programId [pid] form one group, in
    the order of the listing. *)
Lemma one_group f l pid :
  Forall (fun f => isSupported f = true /\ programIdOf f = pid) (f :: l) ->
  exists g,
    programFiles (collectPrograms (f :: l)) = [(pid, g)]
    /\ List.map filePath (files g) = f :: l
    /\ programInfo g = classify (baseNameOf f).
Proof.
  intros H. unfold collectPrograms.
  rewrite supportedFiles_id by (eapply Forall_impl; [exact H|]; simpl; tauto).
  inversion H as [|? ? [Hf Hp] Hl]; subst. simpl.
  destruct (collectFile_supported initialStats f Hf) as (c & _ & Hstep).
  destruct (one_group_fold l (collectFile initialStats f) (programIdOf f)
              (pushFile (entryOf f c)
                 {| programInfo := classify (baseNameOf f); files := [] |}))
    as (g & Hg & Hm & Hi); [by rewrite Hstep; simpl; rewrite upsert_nil|done|].
  exists g. done.
Qed.

(** C1: the four files [Chapt5Exercise5.m], [.pdf], [.tex] and [.html], in
    whatever order they are listed, give exactly one group, keyed
    [Chapt5Exercise5], with the four files as members; and in any listing two
    supported files with the same base name are members of one and the same
    group, whatever their extensions. *)
Theorem C1_same_base_name_one_group :
  (forall allFiles, allFiles ≡ₚ chapt5Exercise5Files ->
     exists g,
       groupingPass allFiles = Some (collectPrograms allFiles)
       /\ programFiles (collectPrograms allFiles) = [("Chapt5Exercise5", g)]
       /\ Info.programId (programInfo g) = "Chapt5Exercise5"
       /\ List.map filePath (files g) = allFiles
       /\ length (files g) = 4%nat)
  /\
  (forall allFiles f1 f2,
     f1 ∈ allFiles -> f2 ∈ allFiles ->
     isSupported f1 = true -> isSupported f2 = true ->
     baseNameOf f1 = baseNameOf f2 ->
     NoDup (JsMap.keys (programFiles (collectPrograms allFiles)))
     /\ exists pid,
          pid ∈ JsMap.keys (programFiles (collectPrograms allFiles))
          /\ f1 ∈ membersOf (collectPrograms allFiles) pid
          /\ f2 ∈ membersOf (collectPrograms allFiles) pid
          /\ forall pid',
               f1 ∈ membersOf (collectPrograms allFiles) pid'
               \/ f2 ∈ membersOf (collectPrograms allFiles) pid' ->
               pid' = pid).
Proof.
  split.
  - intros allFiles Hperm.
    assert (Forall (fun f => isSupported f = true /\ programIdOf f = "Chapt5Exercise5")
              allFiles) as Hall.
    { rewrite Hperm. repeat constructor. }
    assert (length allFiles = 4%nat) as Hlen by (by rewrite Hperm).
    destruct allFiles as [|f l]; [done|].
    destruct (one_group f l _ Hall) as (g & Hg & Hm & Hi).
    exists g. split; [|split; [done|split; [|split; [done|]]]].
    + unfold groupingPass.
      rewrite supportedFiles_id by (eapply Forall_impl; [exact Hall|]; simpl; tauto).
      done.
    + rewrite Hi. inversion Hall as [|? ? [_ Hp] _]; subst. exact Hp.
    + rewrite <- Hlen, <- Hm. by rewrite length_map.
  - intros allFiles f1 f2 H1 H2 Hs1 Hs2 Hbase.
    pose proof (supportedFiles_all allFiles) as Hall.
    assert (forall f pid, f ∈ membersOf (collectPrograms allFiles) pid
              <-> f ∈ supportedFiles allFiles /\ programIdOf f = pid) as Hmem.
    { intros f pid. unfold collectPrograms. rewrite membersOf_fold by done.
      unfold membersOf. simpl. rewrite list_elem_of_filter. tauto. }
    split.
    { unfold collectPrograms. apply groupKeys_NoDup_fold; [done|]. constructor. }
    exists (programIdOf f1). split; [|split; [|split]].
    + unfold collectPrograms. rewrite groupKeys_fold by done. right.
      exists f1. split; [|done]. by apply elem_of_supportedFiles.
    + apply Hmem. split; [|done]. by apply elem_of_supportedFiles.
    + apply Hmem. split; [by apply elem_of_supportedFiles|].
      unfold programIdOf. by rewrite Hbase.
    + intros pid' [H|H]; apply Hmem in H as [_ <-]; [done|].
      unfold programIdOf. by rewrite Hbase.
Qed.

Lemma C1_same_base_name_one_group_witness :
  (exists g,
     groupingPass chapt5Exercise5Files = Some (collectPrograms chapt5Exercise5Files)
     /\ programFiles (collectPrograms chapt5Exercise5Files) = [("Chapt5Exercise5", g)]
     /\ Info.programId (programInfo g) = "Chapt5Exercise5"
     /\ List.map filePath (files g) = chapt5Exercise5Files
     /\ length (files g) = 4%nat)
  /\ exists pid,
       "sub/Chapt2Fig3a.pdf" ∈ membersOf (collectPrograms ["Chapt2Fig3a.m"; "sub/Chapt2Fig3a.pdf"]) pid
       /\ "Chapt2Fig3a.m" ∈ membersOf (collectPrograms ["Chapt2Fig3a.m"; "sub/Chapt2Fig3a.pdf"]) pid.
Proof.
  split.
  - apply (proj1 C1_same_base_name_one_group chapt5Exercise5Files). reflexivity.
  - destruct (proj2 C1_same_base_name_one_group
                ["Chapt2Fig3a.m"; "sub/Chapt2Fig3a.pdf"]
                "sub/Chapt2Fig3a.pdf" "Chapt2Fig3a.m")
      as (_ & pid & _ & Ha & Hb & _).
    + apply elem_of_cons. right. apply elem_of_cons. by left.
    + apply elem_of_cons. by left.
    + reflexivity.
    + reflexivity.
    + reflexivity.
    + exists pid. split; assumption.
Defined.

(** C9: for a file that passed the supported-extension filter neither skip
    branch of the grouping loop is taken.  [extractProgramInfo] returns
    [null] exactly when the base name does not match the pattern and the
    lower-cased extension is unsupported; [getFileTypeConfig] returns [null]
    exactly for an unsupported extension; so both return an object for every
    file of [supportedFiles], the loop body leaves [stats.skipped] as it is,
    and the counter is still zero after the loop. *)
Theorem C9_skip_branches_unreachable :
  (forall filename,
     extractProgramInfo filename = None <->
     matchProgramPattern (Path.basenameExt filename (Path.extname filename)) = None
     /\ Str.includes SUPPORTED_EXTENSIONS
          (Str.toLowerCase (Path.extname filename)) = false)
  /\ (forall filename,
        getFileTypeConfig filename = None <->
        Str.includes SUPPORTED_EXTENSIONS
          (Str.toLowerCase (Path.extname filename)) = false)
  /\ (forall allFiles filePath,
        filePath ∈ supportedFiles allFiles ->
        (exists info, extractProgramInfo (Path.basename filePath) = Some info)
        /\ (exists config, getFileTypeConfig (Path.basename filePath) = Some config)
        /\ forall stats, skipped (collectFile stats filePath) = skipped stats)
  /\ (forall allFiles, skipped (collectPrograms allFiles) = 0%nat).
Proof.
  split; [exact extractProgramInfo_None|].
  split; [exact getFileTypeConfig_None|].
  split.
  - intros allFiles filePath [_ H]%elem_of_supportedFiles.
    split; [|split].
    + rewrite extractProgramInfo_supported by done. eauto.
    + by apply getFileTypeConfig_supported.
    + intros stats. by apply skipped_collectFile.
  - intros allFiles. unfold collectPrograms.
    rewrite skipped_fold by apply supportedFiles_all. done.
Qed.

Lemma C9_skip_branches_unreachable_witness :
  (exists info, extractProgramInfo (Path.basename "sub/fermi.M") = Some info)
  /\ (exists config, getFileTypeConfig (Path.basename "sub/fermi.M") = Some config)
  /\ forall stats, skipped (collectFile stats "sub/fermi.M") = skipped stats.
Proof.
  apply (proj1 (proj2 (proj2 C9_skip_branches_unreachable))
           ["notes.docx"; "sub/fermi.M"] "sub/fermi.M").
  apply elem_of_supportedFiles. split; [|reflexivity].
  apply elem_of_cons. right. apply elem_of_cons. by left.
Defined.

(** ** Case and the pattern *)

(** C3 as stated fails: [Chapt2Fig3A] has an upper-case variant letter and is
    matched; the file is classified as a chapter program, not as a utility. *)
Lemma C3_uppercase_variant_is_matched :
  matchProgramPattern "Chapt2Fig3A"
  = Some {| capChapter := "2"; capType := "Fig"; capNumber := "3";
            capVariant := Some "A" |}
  /\ extractProgramInfo "Chapt2Fig3A.pdf"
     = Some {| Info.programId := "Chapt2Fig3A";
               Info.chapter := "chapter2";
               Info.chapterNum := "2";
               Info.type := "Fig";
               Info.number := "3";
               Info.variant := "A";
               Info.displayName := "Chapter 2 - Fig 3A";
               Info.chapterDisplay := Some 2;
               Info.isUtility := false |}.
Proof. split; reflexivity. Qed.

(** C3, amended: the flag [i] applies to the whole pattern.  A base name
    made of [Chapt] in any case, chapter digits, [Exercise] or [Fig] in any
    case, number digits and a variant whose letter is of either case,
    followed by digits, is a match; every supported file with that base name
    is classified as a chapter program whose variant is the one written. *)
Theorem C3_flag_i_covers_variant_letter p chapter type number c ds :
  Str.toUpperCase p = "CHAPT" ->
  digits chapter -> nonEmpty chapter ->
  Str.toUpperCase type = "EXERCISE" \/ Str.toUpperCase type = "FIG" ->
  digits number -> nonEmpty number ->
  Char.isLetter c = true -> digits ds ->
  let m := {| capChapter := chapter; capType := type; capNumber := number;
              capVariant := Some (String c ds) |} in
  matchProgramPattern (p +:+ chapter +:+ type +:+ number +:+ String c ds) = Some m
  /\ forall f,
       isSupported f = true ->
       baseNameOf f = p +:+ chapter +:+ type +:+ number +:+ String c ds ->
       extractProgramInfo (Path.basename f) = Some (matchedInfo m)
       /\ Info.isUtility (matchedInfo m) = false
       /\ Info.variant (matchedInfo m) = String c ds.
Proof.
  intros Hp Hc Hce Ht Hn Hne Hl Hds m.
  assert (matchProgramPattern (p +:+ chapter +:+ type +:+ number +:+ String c ds)
          = Some m) as Hm.
  { apply matchProgramPattern_iff. exists p. simpl. rewrite app_empty_r.
    repeat split; auto. exists c, ds. auto. }
  split; [done|]. intros f Hf Hb.
  rewrite extractProgramInfo_supported by done.
  unfold classify. rewrite Hb, Hm. done.
Qed.

Lemma C3_flag_i_covers_variant_letter_witness :
  matchProgramPattern "chapT12fIG007Z9"
  = Some {| capChapter := "12"; capType := "fIG"; capNumber := "007";
            capVariant := Some "Z9" |}.
Proof.
  apply (C3_flag_i_covers_variant_letter "chapT" "12" "fIG" "007" "Z" "9");
    vm_compute; auto; congruence.
Defined.

(** C4 as stated fails: for [chapt5exercise5a] the programId is
    [Chapt5exercise5a]; the discriminator keeps the case it has in the file
    name. *)
Lemma C4_discriminator_case_is_kept :
  exists info,
    extractProgramInfo "chapt5exercise5a.m" = Some info
    /\ Info.programId info = "Chapt5exercise5a"
    /\ Info.programId info <> "Chapt5Exercise5a"
    /\ Info.displayName info = "Chapter 5 - exercise 5A".
Proof. eexists. split; [reflexivity|]. repeat split. discriminate. Qed.

(** C4, amended: for every base name that matches, the programId is the
    literal [Chapt] followed by the chapter, the discriminator, the number
    and the variant exactly as they are written in the base name (so it is
    the base name with its first five code units replaced by [Chapt]);
    neither the discriminator nor the variant is case-normalised.  The
    variant is upper-cased in the display name and in the label that
    [extractLabelFromProgramId] derives from the programId. *)
Theorem C4_programId_keeps_written_case filename info :
  extractProgramInfo filename = Some info ->
  Info.isUtility info = false ->
  exists p,
    Path.basenameExt filename (Path.extname filename)
    = p +:+ Info.chapterNum info +:+ Info.type info +:+ Info.number info
        +:+ Info.variant info
    /\ Str.toUpperCase p = "CHAPT"
    /\ (Str.toUpperCase (Info.type info) = "EXERCISE"
        \/ Str.toUpperCase (Info.type info) = "FIG")
    /\ Info.programId info
       = "Chapt" +:+ Info.chapterNum info +:+ Info.type info +:+ Info.number info
           +:+ Info.variant info
    /\ Info.displayName info
       = "Chapter " +:+ Info.chapterNum info +:+ " - " +:+ Info.type info +:+ " "
           +:+ Info.number info +:+ Str.toUpperCase (Info.variant info)
    /\ extractLabelFromProgramId (Info.programId info)
       = Info.type info +:+ " " +:+ Info.number info
           +:+ Str.toUpperCase (Info.variant info).
Proof.
  unfold extractProgramInfo. intros H Hu.
  destruct (matchProgramPattern _) as [m|] eqn:Em.
  - injection H as <-. pose proof Em as Hd. apply matchProgramPattern_iff in Hd.
    destruct Hd as (p & Hb & Hp & Hc & Hce & Ht & Hn & Hne & Hv & Hr).
    rewrite app_empty_r in Hb.
    exists p. simpl. repeat split; auto.
    + by destruct (capVariant m).
    + unfold extractLabelFromProgramId.
      rewrite (searchProgramPattern_at_start _ m "").
      * by destruct (capVariant m).
      * apply matchPrefix_complete. exists "Chapt". rewrite app_empty_r.
        repeat split; auto.
  - destruct (negb _); [done|]. injection H as <-. done.
Qed.

Lemma C4_programId_keeps_written_case_witness :
  exists info p,
    extractProgramInfo "sub/CHAPT2fig3B2.tex" = Some info
    /\ Path.basenameExt "sub/CHAPT2fig3B2.tex" (Path.extname "sub/CHAPT2fig3B2.tex")
       = p +:+ Info.chapterNum info +:+ Info.type info +:+ Info.number info
           +:+ Info.variant info
    /\ Info.programId info = "Chapt2fig3B2"
    /\ extractLabelFromProgramId (Info.programId info) = "fig 3B2".
Proof.
  eexists. 
  destruct (C4_programId_keeps_written_case "sub/CHAPT2fig3B2.tex" _ eq_refl eq_refl)
    as (p & Hb & _ & _ & Hid & _ & Hl).
  exists p. split; [reflexivity|]. split; [exact Hb|]. split; [exact Hid|exact Hl].
Defined.

(** ** Unsupported files *)

Lemma supportedFiles_drop l1 f l2 :
  isSupported f = false -> supportedFiles (l1 ++ f :: l2) = supportedFiles (l1 ++ l2).
Proof.
  intros H. rewrite !supportedFiles_app. f_equal.
  unfold supportedFiles. simpl. by rewrite H.
Qed.

(** C5 as stated fails: [notes.docx] has no supported extension, and the
    run over the listing counts no skipped file, neither after the grouping
    loop nor at the end of a run in which every copy and write succeeds; a
    listing with nothing but that file ends the run before any statistics
    are collected. *)
Lemma C5_unsupported_file_is_not_counted :
  isSupported "notes.docx" = false
  /\ skipped (collectPrograms ["notes.docx"; "Chapt1Exercise8.m"]) = 0%nat
  /\ finalCounters (fun _ _ => true) (fun _ _ => true)
       (collectPrograms ["notes.docx"; "Chapt1Exercise8.m"]) = (1%nat, 0%nat)
  /\ groupingPass ["notes.docx"] = None.
Proof. repeat split. Qed.

(** C5, amended: a file whose extension is not in the supported set is
    dropped by the filter that precedes the grouping loop.  The run goes on
    with the remaining files and all its statistics are those of the listing
    without the file: the file is a member of no group, and [stats.skipped]
    does not count it (it is zero after the loop). *)
Theorem C5_unsupported_file_filtered_out l1 f l2 :
  isSupported f = false ->
  collectPrograms (l1 ++ f :: l2) = collectPrograms (l1 ++ l2)
  /\ groupingPass (l1 ++ f :: l2) = groupingPass (l1 ++ l2)
  /\ skipped (collectPrograms (l1 ++ f :: l2)) = 0%nat
  /\ forall pid, f ∉ membersOf (collectPrograms (l1 ++ f :: l2)) pid.
Proof.
  intros H.
  assert (collectPrograms (l1 ++ f :: l2) = collectPrograms (l1 ++ l2)) as Heq.
  { unfold collectPrograms. by rewrite supportedFiles_drop. }
  split; [done|]. split; [|split].
  - unfold groupingPass. by rewrite Heq, supportedFiles_drop.
  - unfold collectPrograms. by rewrite skipped_fold by apply supportedFiles_all.
  - intros pid. unfold collectPrograms.
    rewrite membersOf_fold by apply supportedFiles_all.
    unfold membersOf. simpl. rewrite list_elem_of_filter, elem_of_supportedFiles.
    intros (_ & _ & Hs). congruence.
Qed.

Lemma C5_unsupported_file_filtered_out_witness :
  collectPrograms (["Chapt1Exercise8.m"] ++ "notes.docx" :: ["fermi.m"])
  = collectPrograms (["Chapt1Exercise8.m"] ++ ["fermi.m"]).
Proof.
  apply (C5_unsupported_file_filtered_out ["Chapt1Exercise8.m"] "notes.docx" ["fermi.m"]).
  reflexivity.
Defined.

(** ** The utility fallback and its place in the sidebar *)

(** A supported file whose base name does not match is classified as a
    utility named after its base name, and is a member of the group of that
    name. *)
Lemma utility_fallback allFiles f :
  f ∈ allFiles -> isSupported f = true ->
  matchProgramPattern (baseNameOf f) = None ->
  extractProgramInfo (Path.basename f) = Some (utilityInfo (baseNameOf f))
  /\ f ∈ membersOf (collectPrograms allFiles) (baseNameOf f)
  /\ baseNameOf f ∈ chapterSet (byChapter (collectPrograms allFiles)) "utilities".
Proof.
  intros Hin Hs Hm.
  assert (classify (baseNameOf f) = utilityInfo (baseNameOf f)) as Hc
    by (unfold classify; by rewrite Hm).
  split; [|split].
  - rewrite extractProgramInfo_supported by done. by rewrite Hc.
  - unfold collectPrograms. rewrite membersOf_fold by apply supportedFiles_all.
    unfold membersOf. simpl. rewrite list_elem_of_filter, elem_of_supportedFiles.
    unfold programIdOf. by rewrite Hc.
  - unfold collectPrograms. rewrite chapterSet_fold by apply supportedFiles_all.
    right. exists f. rewrite elem_of_supportedFiles.
    unfold chapterNumOf, programIdOf. by rewrite Hc.
Qed.

(** C2 on the listing [Airy.m], [Chapt1Exercise8.m], [fermi.m]: [fermi.m]
    is classified as the utility [fermi] of chapter [utilities] and is
    grouped, but [updateSidebar] puts the utilities category before the
    category of chapter 1, because its comparator yields [NaN] for the key
    [utilities] and the key was inserted first; the chapter summary of
    [processAllPrograms], which sorts with the comparator of
    [sortChapterKeys], puts [utilities] last. *)
Theorem C2_utilities_category_not_last :
  extractProgramInfo "fermi.m" = Some (utilityInfo "fermi")
  /\ byChapter (collectPrograms ["Airy.m"; "Chapt1Exercise8.m"; "fermi.m"])
     = [("utilities", ["Airy"; "fermi"]); ("1", ["Chapt1Exercise8"])]
  /\ List.map (fun c => (Category.label c, List.map Doc.id (Category.items c)))
       (sidebarCategories
          (byChapter (collectPrograms ["Airy.m"; "Chapt1Exercise8.m"; "fermi.m"])))
     = [ ("Ch NaN: Utility Functions",
          ["chapterutilities/Airy/index"; "chapterutilities/fermi/index"]);
         ("Ch 1: Introduction to Quantum Mechanics",
          ["chapter1/Chapt1Exercise8/index"]) ]
  /\ summaryOrder (byChapter (collectPrograms ["Airy.m"; "Chapt1Exercise8.m"; "fermi.m"]))
     = ["1"; "utilities"].
Proof. repeat split. Qed.

(** ** The stable sort *)

Section SortFacts.
Context {A : Type} (after : A -> A -> bool).

Lemma insertSorted_Permutation x l : insertSorted after x l ≡ₚ x :: l.
Proof.
  induction l as [|y l IH]; simpl; [done|].
  destruct (after x y); [|done]. rewrite IH. apply Permutation_swap.
Qed.

Lemma sortWith_Permutation l : sortWith after l ≡ₚ l.
Proof.
  induction l as [|x l IH]; [done|].
  change (sortWith after (x :: l)) with (insertSorted after x (sortWith after l)).
  rewrite insertSorted_Permutation. by rewrite IH.
Qed.

Lemma elem_of_sortWith x l : x ∈ sortWith after l <-> x ∈ l.
Proof. by rewrite sortWith_Permutation. Qed.

Section Consistent.
Variable dom : A -> Prop.
Hypothesis total :
  forall x y, dom x -> dom y -> after x y = true -> after y x = false.
Hypothesis trans :
  forall x y z, dom x -> dom y -> dom z ->
    after x y = false -> after y z = false -> after x z = false.

Lemma insertSorted_sorted x l :
  dom x -> Forall dom l ->
  StronglySorted (notAfter after) l ->
  StronglySorted (notAfter after) (insertSorted after x l).
Proof.
  intros Hx Hl Hs. induction Hs as [|y l Hs IH Hy]; simpl.
  - repeat constructor.
  - inversion Hl as [|? ? Hdy Hdl]; subst.
    destruct (after x y) eqn:E.
    + constructor; [by apply IH|].
      apply Forall_forall. intros z Hz.
      rewrite insertSorted_Permutation in Hz.
      apply elem_of_cons in Hz as [->|Hz].
      * by apply total.
      * rewrite Forall_forall in Hy. by apply Hy.
    + constructor; [by constructor|].
      constructor; [done|].
      apply Forall_forall. intros z Hz.
      rewrite Forall_forall in Hy, Hdl.
      apply (trans x y z); auto. by apply Hy.
Qed.

Lemma sortWith_sorted l :
  Forall dom l -> StronglySorted (notAfter after) (sortWith after l).
Proof.
  induction 1 as [|x l Hx Hl IH]; [constructor|].
  change (sortWith after (x :: l)) with (insertSorted after x (sortWith after l)).
  apply insertSorted_sorted; [exact Hx|idtac|exact IH].
  apply Forall_forall. intros y Hy. rewrite elem_of_sortWith in Hy.
  rewrite Forall_forall in Hl. by apply Hl.
Qed.
End Consistent.

(** Stability: elements that the comparator does not put after one
    another keep their order. *)
Lemma filter_insertSorted (P : A -> Prop) `{!forall x, Decision (P x)} x l :
  (forall y, y ∈ l -> P x -> P y -> after x y = false) ->
  filter P (insertSorted after x l) = filter P (x :: l).
Proof.
  induction l as [|y l IH]; intros Hord; simpl; [done|].
  destruct (after x y) eqn:E; [|done].
  rewrite (filter_cons _ y), IH by (intros; apply Hord; auto; by right).
  rewrite !filter_cons.
  destruct (decide (P x)) as [Hx|Hx], (decide (P y)) as [Hy|Hy]; try done.
  rewrite Hord in E; [done|by left|done|done].
Qed.

Lemma filter_sortWith (P : A -> Prop) `{!forall x, Decision (P x)} l :
  (forall x y, x ∈ l -> y ∈ l -> P x -> P y -> after x y = false) ->
  filter P (sortWith after l) = filter P l.
Proof.
  induction l as [|x l IH]; intros Hord; [done|].
  change (sortWith after (x :: l)) with (insertSorted after x (sortWith after l)).
  rewrite filter_insertSorted.
  - rewrite !filter_cons, IH; [done|].
    intros; apply Hord; auto; by right.
  - intros y Hy. rewrite elem_of_sortWith in Hy. apply Hord; [by left|by right].
Qed.
End SortFacts.

(** Strings by code units. *)
Lemma stringAfter_total a b : stringAfter a b = true -> stringAfter b a = false.
Proof.
  unfold stringAfter. rewrite (String.compare_antisym b a).
  by destruct (String.compare a b).
Qed.

Lemma compare_not_Gt_trans a b c :
  String.compare a b <> Gt -> String.compare b c <> Gt -> String.compare a c <> Gt.
Proof.
  revert b c. induction a as [|x a IH]; intros [|y b] [|z c]; simpl; try done.
  unfold Ascii.compare.
  destruct (N.compare_spec (N_of_ascii x) (N_of_ascii y)),
           (N.compare_spec (N_of_ascii y) (N_of_ascii z)),
           (N.compare_spec (N_of_ascii x) (N_of_ascii z));
    try done; try lia; eauto.
Qed.

Lemma stringAfter_trans a b c :
  stringAfter a b = false -> stringAfter b c = false -> stringAfter a c = false.
Proof.
  unfold stringAfter. intros H1 H2.
  pose proof (compare_not_Gt_trans a b c) as H.
  destruct (String.compare a b), (String.compare b c), (String.compare a c);
    try done; exfalso; apply H; done.
Qed.

Lemma stringAfter_antisym a b :
  stringAfter a b = false -> stringAfter b a = false -> a = b.
Proof.
  unfold stringAfter. rewrite (String.compare_antisym b a).
  destruct (String.compare a b) eqn:E; try done.
  intros _ _. by apply String.compare_eq_iff.
Qed.

(** The default sort gives the same array for every order of the same
    strings. *)
Lemma sort_strings_Permutation l1 l2 :
  l1 ≡ₚ l2 -> sortWith stringAfter l1 = sortWith stringAfter l2.
Proof.
  intros H. apply (StronglySorted_unique_strong (notAfter stringAfter)).
  - intros x y _ _. apply stringAfter_antisym.
  - apply (sortWith_sorted _ (fun _ => True)); auto using stringAfter_total.
    + intros x y z _ _ _. apply stringAfter_trans.
    + by apply Forall_forall.
  - apply (sortWith_sorted _ (fun _ => True)); auto using stringAfter_total.
    + intros x y z _ _ _. apply stringAfter_trans.
    + by apply Forall_forall.
  - by rewrite !sortWith_Permutation.
Qed.

(** ** Member order on the index page *)

Lemma typeAfter_le a b : typeAfter a b = false <-> typeRank a <= typeRank b.
Proof. unfold typeAfter. rewrite Z.ltb_ge. lia. Qed.

(** C6 as stated fails.  Two members of the same type stay in discovery
    order: [Chapt1Exercise8.m] and [Chapt1Exercise8.M] are both of type
    matlab and belong to one group; the index page lists the [.m] file
    first although the [.M] name is the smaller string.  And a member whose
    type is not in the ranking gets index [-1] and is listed first, not
    last. *)
Lemma C6_ties_keep_discovery_order :
  (exists g,
     programFiles (collectPrograms ["Chapt1Exercise8.m"; "Chapt1Exercise8.M"])
     = [("Chapt1Exercise8", g)]
     /\ List.map (fun e => (entryFilename e, fileType e))
          (indexPageOrder
             (filesListOf (fun _ _ => true) (fun _ _ => true) "Chapt1Exercise8" g))
        = [("Chapt1Exercise8.m", "matlab"); ("Chapt1Exercise8.M", "matlab")]
     /\ stringAfter "Chapt1Exercise8.m" "Chapt1Exercise8.M" = true)
  /\ forall c,
       List.map fileType
         (indexPageOrder
            [ {| entryFilename := "a.m"; fileType := "matlab";
                 staticPath := "/programs/matlab/a/a.m"; entryConfig := c |};
              {| entryFilename := "a.csv"; fileType := "csv";
                 staticPath := "/programs/csv/a/a.csv"; entryConfig := c |} ])
       = ["csv"; "matlab"].
Proof.
  split.
  - eexists. split; [reflexivity|]. split; reflexivity.
  - intros c. reflexivity.
Qed.

(** C6, amended: the members on the index page are ordered by the fixed
    ranking matlab, latex, pdf, html, ipynb, text and not by discovery order;
    members of the same type keep the order in which they were discovered
    (the sort is stable and looks at nothing but the type); every type that
    the file-type table can give is in the ranking, so no member is
    unranked. *)
Theorem C6_index_page_order_by_type_rank :
  List.map (Str.indexOf typeOrder) ["matlab"; "latex"; "pdf"; "html"; "ipynb"; "text"]
  = [0; 1; 2; 3; 4; 5]
  /\ (forall filesList,
        indexPageOrder filesList ≡ₚ filesList
        /\ StronglySorted (fun a b => typeRank a <= typeRank b) (indexPageOrder filesList)
        /\ forall ty,
             filter (fun e => fileType e = ty) (indexPageOrder filesList)
             = filter (fun e => fileType e = ty) filesList)
  /\ (forall filename config,
        getFileTypeConfig filename = Some config ->
        0 <= Str.indexOf typeOrder (Cfg.type config)).
Proof.
  split; [reflexivity|]. split.
  - intros filesList. split; [apply sortWith_Permutation|]. split.
    + assert (StronglySorted (notAfter typeAfter) (indexPageOrder filesList)) as Hs.
      { apply (sortWith_sorted _ (fun _ => True)).
        - intros x y _ _. unfold typeAfter. rewrite Z.ltb_lt, Z.ltb_ge. lia.
        - intros x y z _ _ _. rewrite !typeAfter_le. lia.
        - by apply Forall_forall. }
      induction Hs as [|x l Hs IH Hx]; constructor; [done|].
      eapply Forall_impl; [exact Hx|]. intros y. apply typeAfter_le.
    + intros ty. apply filter_sortWith.
      intros x y _ _ Hx Hy. apply typeAfter_le. unfold typeRank.
      rewrite Hx, Hy. lia.
  - intros filename config H. by apply (FILE_TYPES_ranked _ _ H).
Qed.

Lemma C6_index_page_order_by_type_rank_witness :
  0 <= Str.indexOf typeOrder "latex".
Proof.
  apply (proj2 (proj2 C6_index_page_order_by_type_rank) "sub/Chapt4Exercise2b.TEX"
           {| Cfg.type := "latex"; Cfg.label := "LaTeX"; Cfg.emoji := "📝";
              Cfg.color := "#008080"; Cfg.canReadText := true;
              Cfg.codeLanguage := Some "latex"; Cfg.maxPreviewLength := Some 15000;
              Cfg.useIframe := None; Cfg.iframeHeight := None |}).
  reflexivity.
Defined.

(** ** The navigation index *)

Lemma chapterAfter_numeric a b x y :
  Num.parseInt a = Some x -> Num.parseInt b = Some y ->
  chapterAfter a b = (0 <? x - y).
Proof. unfold chapterAfter. by intros -> ->. Qed.

Lemma sort_chapters_Permutation l1 l2 :
  numericChapters l1 -> l1 ≡ₚ l2 ->
  sortWith chapterAfter l1 = sortWith chapterAfter l2.
Proof.
  intros [Hnum Hinj] Hperm.
  set (dom := fun k => k ∈ l1).
  assert (forall x y, dom x -> dom y -> chapterAfter x y = true -> chapterAfter y x = false)
    as Htot.
  { intros x y (n & Hn & _)%Hnum (m & Hm & _)%Hnum.
    rewrite (chapterAfter_numeric _ _ _ _ Hn Hm), (chapterAfter_numeric _ _ _ _ Hm Hn).
    rewrite Z.ltb_lt, Z.ltb_ge. lia. }
  assert (forall x y z, dom x -> dom y -> dom z ->
            chapterAfter x y = false -> chapterAfter y z = false ->
            chapterAfter x z = false) as Htrans.
  { intros x y z (n & Hn & _)%Hnum (m & Hm & _)%Hnum (k & Hk & _)%Hnum.
    rewrite (chapterAfter_numeric _ _ _ _ Hn Hm), (chapterAfter_numeric _ _ _ _ Hm Hk),
      (chapterAfter_numeric _ _ _ _ Hn Hk).
    rewrite !Z.ltb_ge. lia. }
  apply (StronglySorted_unique_strong (notAfter chapterAfter)).
  - intros x y Hx Hy Hxy Hyx. rewrite elem_of_sortWith in Hx.
    rewrite elem_of_sortWith, <- Hperm in Hy.
    apply Hinj; [done|done|].
    destruct (Hnum x Hx) as (n & Hn & _), (Hnum y Hy) as (m & Hm & _).
    unfold notAfter in *.
    rewrite (chapterAfter_numeric _ _ _ _ Hn Hm) in Hxy.
    rewrite (chapterAfter_numeric _ _ _ _ Hm Hn) in Hyx.
    rewrite Z.ltb_ge in Hxy, Hyx. rewrite Hn, Hm. f_equal. lia.
  - apply (sortWith_sorted _ dom Htot Htrans). by apply Forall_forall.
  - apply (sortWith_sorted _ dom Htot Htrans). apply Forall_forall.
    intros k Hk. unfold dom. by rewrite Hperm.
  - by rewrite !sortWith_Permutation.
Qed.

Lemma sidebarCategory_sameChapters m1 m2 k :
  (forall k, chapterSet m1 k ≡ₚ chapterSet m2 k) ->
  sidebarCategory m1 k = sidebarCategory m2 k.
Proof.
  intros H. unfold sidebarCategory.
  change (match JsMap.get k m1 with Some s => s | None => [] end) with (chapterSet m1 k).
  change (match JsMap.get k m2 with Some s => s | None => [] end) with (chapterSet m2 k).
  by rewrite (sort_strings_Permutation _ _ (H k)).
Qed.

Lemma sidebarCategories_sameChapters m1 m2 :
  sameChapters m1 m2 -> numericChapters (JsMap.keys m1) ->
  sidebarCategories m1 = sidebarCategories m2.
Proof.
  intros [Hk Hs] Hnum. unfold sidebarCategories.
  rewrite (sort_chapters_Permutation _ _ Hnum Hk).
  apply List.map_ext. intros k. by apply sidebarCategory_sameChapters.
Qed.

(** The chapters and the programs of each chapter only depend on the set of
    listed files. *)
Lemma collectPrograms_sameChapters l1 l2 :
  l1 ≡ₚ l2 ->
  sameChapters (byChapter (collectPrograms l1)) (byChapter (collectPrograms l2)).
Proof.
  intros Hperm. unfold collectPrograms. split.
  - apply NoDup_Permutation.
    + apply chapterKeys_NoDup_fold; [apply supportedFiles_all|constructor].
    + apply chapterKeys_NoDup_fold; [apply supportedFiles_all|constructor].
    + intros k. rewrite !chapterKeys_fold by apply supportedFiles_all.
      setoid_rewrite elem_of_supportedFiles. by setoid_rewrite Hperm.
  - intros k. apply NoDup_Permutation.
    + apply chapterSet_NoDup_fold; [apply supportedFiles_all|]. intros; constructor.
    + apply chapterSet_NoDup_fold; [apply supportedFiles_all|]. intros; constructor.
    + intros pid. rewrite !chapterSet_fold by apply supportedFiles_all.
      setoid_rewrite elem_of_supportedFiles. by setoid_rewrite Hperm.
Qed.

Lemma app_inv_head_str (a x y : string) : a +:+ x = a +:+ y -> x = y.
Proof. induction a as [|c a IH]; simpl; [done|]. intros [= H]. by apply IH. Qed.

(** C7 as stated fails: the order of the categories follows the order of
    the listing whenever the comparator of [updateSidebar] ties two chapter
    keys.  The keys [1] and [01] have the same number, and the key
    [utilities] is not a number at all; in both cases the same set of files,
    listed in two orders, gives two different sidebar texts at the same
    time stamp. *)
Lemma C7_sidebar_depends_on_listing_order :
  ["Chapt1Fig1.m"; "Chapt01Fig1.m"] ≡ₚ ["Chapt01Fig1.m"; "Chapt1Fig1.m"]
  /\ (forall now,
        updateSidebar now (byChapter (collectPrograms ["Chapt1Fig1.m"; "Chapt01Fig1.m"]))
        <> updateSidebar now (byChapter (collectPrograms ["Chapt01Fig1.m"; "Chapt1Fig1.m"])))
  /\ ["fermi.m"; "Chapt1Exercise8.m"] ≡ₚ ["Chapt1Exercise8.m"; "fermi.m"]
  /\ (forall now,
        updateSidebar now (byChapter (collectPrograms ["fermi.m"; "Chapt1Exercise8.m"]))
        <> updateSidebar now (byChapter (collectPrograms ["Chapt1Exercise8.m"; "fermi.m"]))).
Proof.
  split; [apply Permutation_swap|]. split; [|split; [apply Permutation_swap|]].
  - intros now H. unfold updateSidebar, sidebarText in H.
    do 2 apply app_inv_head_str in H. vm_compute in H. discriminate.
  - intros now H. unfold updateSidebar, sidebarText in H.
    do 2 apply app_inv_head_str in H. vm_compute in H. discriminate.
Qed.

(** C7, amended: when every chapter key is a numeral and different keys have
    different numbers, the navigation structure is determined by the set of
    chapters and the set of programs of each chapter, whatever the insertion
    order: two such [byChapter] maps, and so two listings of the same files
    in different orders, give sidebar texts that agree except for the time
    stamp in the header comment.  And two runs over an unchanged source
    directory, listed in the same order, write the same documentation pages
    and sidebar texts that differ in the time stamp only. *)
Theorem C7_sidebar_independent_of_order_for_numeric_chapters :
  (forall m1 m2,
     sameChapters m1 m2 -> numericChapters (JsMap.keys m1) ->
     sidebarCategories m1 = sidebarCategories m2
     /\ exists tail, forall now1 now2,
          updateSidebar now1 m1 = sidebarHead +:+ now1 +:+ tail
          /\ updateSidebar now2 m2 = sidebarHead +:+ now2 +:+ tail)
  /\ (forall l1 l2,
        l1 ≡ₚ l2 ->
        numericChapters (JsMap.keys (byChapter (collectPrograms l1))) ->
        forall now,
          updateSidebar now (byChapter (collectPrograms l1))
          = updateSidebar now (byChapter (collectPrograms l2)))
  /\ (forall readText detailPage indexPage allFiles now1 now2 out1,
        runOutput readText detailPage indexPage now1 allFiles = Some out1 ->
        exists out2 tail,
          runOutput readText detailPage indexPage now2 allFiles = Some out2
          /\ pages out2 = pages out1
          /\ sidebar out1 = sidebarHead +:+ now1 +:+ tail
          /\ sidebar out2 = sidebarHead +:+ now2 +:+ tail).
Proof.
  split; [|split].
  - intros m1 m2 Hsame Hnum.
    pose proof (sidebarCategories_sameChapters m1 m2 Hsame Hnum) as Hc.
    split; [done|]. exists (sidebarTail (sidebarCategories m1)).
    intros now1 now2. unfold updateSidebar, sidebarText. by rewrite Hc.
  - intros l1 l2 Hperm Hnum now. unfold updateSidebar.
    rewrite (sidebarCategories_sameChapters _ _
               (collectPrograms_sameChapters l1 l2 Hperm) Hnum).
    done.
  - intros readText detailPage indexPage allFiles now1 now2 out1.
    unfold runOutput. destruct (groupingPass allFiles) as [stats|]; [|done].
    intros [= <-]. eexists _, (sidebarTail (sidebarCategories (byChapter stats))).
    split; [reflexivity|]. done.
Qed.

Lemma C7_sidebar_independent_of_order_for_numeric_chapters_witness :
  updateSidebar "2024-05-01T10:00:00.000Z"
    (byChapter (collectPrograms ["Chapt2Fig3a.pdf"; "Chapt10Fig1.m"; "Chapt2Fig3a.m"]))
  = updateSidebar "2024-05-01T10:00:00.000Z"
      (byChapter (collectPrograms ["Chapt10Fig1.m"; "Chapt2Fig3a.m"; "Chapt2Fig3a.pdf"])).
Proof.
  apply (proj1 (proj2 C7_sidebar_independent_of_order_for_numeric_chapters)
           ["Chapt2Fig3a.pdf"; "Chapt10Fig1.m"; "Chapt2Fig3a.m"]
           ["Chapt10Fig1.m"; "Chapt2Fig3a.m"; "Chapt2Fig3a.pdf"]).
  - apply (Permutation_trans
             (l' := ["Chapt10Fig1.m"; "Chapt2Fig3a.pdf"; "Chapt2Fig3a.m"])).
    + apply Permutation_swap.
    + apply Permutation_skip, Permutation_swap.
  - change (numericChapters ["2"; "10"]). split.
    + intros k Hk. apply elem_of_cons in Hk as [->|Hk].
      * exists 2. vm_compute. repeat split; congruence.
      * apply elem_of_cons in Hk as [->|Hk]; [|by apply elem_of_nil in Hk].
        exists 10. vm_compute. repeat split; congruence.
    + intros a b Ha Hb.
      apply elem_of_cons in Ha as [->|Ha];
        [|apply elem_of_cons in Ha as [->|Ha]; [|by apply elem_of_nil in Ha]];
        (apply elem_of_cons in Hb as [->|Hb];
          [|apply elem_of_cons in Hb as [->|Hb]; [|by apply elem_of_nil in Hb]]);
        vm_compute; congruence.
Defined.

(** ** The file system and [cleanGenerated] *)

Lemma lookup_rmSync (fs : FS) p q :
  rmSync fs p !! q = if isPrefix p q then None else fs !! q.
Proof.
  unfold rmSync. rewrite map_lookup_filter.
  destruct (fs !! q) as [x|] eqn:E; simpl.
  - case_guard as Hg; simpl in *; destruct (isPrefix p q); done.
  - by destruct (isPrefix p q).
Qed.

Lemma isPrefix_app p q : isPrefix p (p ++ q) = true.
Proof. induction p as [|a p IH]; simpl; [done|]. by destruct (string_dec a a). Qed.

Lemma entryName_Some p q n : entryName p q = Some n <-> q = p ++ [n].
Proof.
  revert q. induction p as [|a p IH]; intros q; simpl.
  - destruct q as [|b [|c q]]; split; intros H; try done; by simplify_eq.
  - destruct q as [|b q]; [split; [done|intros; simplify_eq]|].
    destruct (string_dec a b) as [->|Hne].
    + rewrite IH. split; [by intros ->|by intros [= ->]].
    + split; [done|]. intros [= -> _]. done.
Qed.

Lemma elem_of_readdirSync (fs : FS) (p items : list string) (item : string) :
  readdirSync fs p = Some items ->
  item ∈ items <-> is_Some (fs !! (p ++ [item])).
Proof.
  unfold readdirSync. destruct (fs !! p) as [[]|]; try done. intros [= <-].
  rewrite list_elem_of_omap. split.
  - intros ([q x] & Hq%elem_of_map_to_list & Hn). simpl in Hn.
    apply entryName_Some in Hn as ->. eauto.
  - intros [x Hx]. exists (p ++ [item], x). split.
    + by apply elem_of_map_to_list.
    + simpl. by apply entryName_Some.
Qed.

Lemma readdirSync_Some (fs : FS) p :
  is_Some (readdirSync fs p) <-> fs !! p = Some Directory.
Proof.
  unfold readdirSync. destruct (fs !! p) as [[]|]; split; intros H; try done;
    by destruct H.
Qed.

(** The documentation pass of [cleanGenerated]. *)
Lemma lookup_clean_items (items : list string) (fs : FS) (n : nat) (q : list string) :
  fst (fold_left cleanItem items (fs, n)) !! q
  = if existsb (fun item => Str.startsWith "chapter" item
                            && isPrefix (DOCS_OUTPUT_DIR ++ [item]) q) items
    then None else fs !! q.
Proof.
  revert fs n. induction items as [|item items IH]; intros fs n; [done|].
  cbn [fold_left existsb]. unfold cleanItem at 2.
  destruct (Str.startsWith "chapter" item) eqn:E.
  - cbn [fst snd]. rewrite IH, lookup_rmSync.
    destruct (isPrefix (DOCS_OUTPUT_DIR ++ [item]) q); simpl; by destruct (existsb _ _).
  - apply IH.
Qed.

Lemma clean_items_nothing_to_do (items : list string) (acc : FS * nat) :
  (forall item, item ∈ items -> Str.startsWith "chapter" item = false) ->
  fold_left cleanItem items acc = acc.
Proof.
  revert acc. induction items as [|item items IH]; intros acc H; [done|].
  cbn [fold_left]. unfold cleanItem at 2. rewrite (H item) by (by left).
  apply IH. intros; apply H; by right.
Qed.

Lemma isPrefix_docs_item item q :
  isPrefix (DOCS_OUTPUT_DIR ++ [item]) q = true <->
  exists rest, q = "docs" :: item :: rest.
Proof.
  split.
  - destruct q as [|d [|i rest]]; cbn [DOCS_OUTPUT_DIR app isPrefix].
    + done.
    + by destruct (string_dec "docs" d).
    + destruct (string_dec "docs" d) as [<-|]; [|done].
      destruct (string_dec item i) as [<-|]; [|done]. eauto.
  - intros [rest ->]. apply (isPrefix_app ["docs"; item] rest).
Qed.

Lemma existsSync_true (fs : FS) p : existsSync fs p = true <-> is_Some (fs !! p).
Proof. unfold existsSync. apply bool_decide_eq_true. Qed.

Lemma removed_items (fs : FS) (items q : list string) :
  readdirSync fs DOCS_OUTPUT_DIR = Some items ->
  existsb (fun item => Str.startsWith "chapter" item
                       && isPrefix (DOCS_OUTPUT_DIR ++ [item]) q) items
  = match q with
    | d :: item :: _ => underChapterEntry q && existsSync fs [d; item]
    | _ => false
    end.
Proof.
  intros Hr. apply Bool.eq_iff_eq_true. rewrite List.existsb_exists. split.
  - intros (item & Hin & [Hs Hp]%andb_prop).
    apply isPrefix_docs_item in Hp as [rest ->].
    apply andb_true_intro. split.
    + unfold underChapterEntry. by rewrite bool_decide_eq_true_2, Hs.
    + apply existsSync_true. apply list_elem_of_In in Hin.
      by apply (elem_of_readdirSync fs DOCS_OUTPUT_DIR items item Hr) in Hin.
  - destruct q as [|d [|item rest]]; [done|done|].
    intros [[Hd Hs]%andb_prop He]%andb_prop.
    apply bool_decide_eq_true in Hd as ->.
    exists item. split.
    + apply list_elem_of_In, (elem_of_readdirSync fs DOCS_OUTPUT_DIR items item Hr).
      by apply existsSync_true.
    + rewrite Hs. apply (isPrefix_app ["docs"; item] rest).
Qed.

(** [cleanGenerated] throws exactly when [docs] exists and is not a
    directory. *)
Lemma cleanGenerated_returns (fs : FS) :
  is_Some (cleanGenerated fs) <->
  fs !! DOCS_OUTPUT_DIR = None \/ fs !! DOCS_OUTPUT_DIR = Some Directory.
Proof.
  unfold cleanGenerated, existsSync, readdirSync.
  destruct (fs !! DOCS_OUTPUT_DIR) as [[c|]|] eqn:E.
  - rewrite bool_decide_eq_true_2 by eauto. split; [by intros [? ?]|].
    intros [?|?]; done.
  - rewrite bool_decide_eq_true_2 by eauto.
    destruct (fold_left _ _ _) as [fs1 n]. split; [auto|]. intros _.
    destruct (bool_decide _); eauto.
  - rewrite bool_decide_eq_false_2 by (by intros [? ?]). split; [auto|]. intros _.
    destruct (bool_decide _); eauto.
Qed.

(** What [cleanGenerated] leaves at every path. *)
Lemma lookup_cleanGenerated (fs fs' : FS) n q :
  cleanGenerated fs = Some (fs', n) ->
  fs' !! q = if removedByClean fs q then None else fs !! q.
Proof.
  unfold cleanGenerated.
  destruct (if existsSync fs DOCS_OUTPUT_DIR
            then match readdirSync fs DOCS_OUTPUT_DIR with
                 | Some items => Some (fold_left cleanItem items (fs, 0%nat))
                 | None => None
                 end
            else Some (fs, 0%nat)) as [[fs1 n1]|] eqn:Ea; [|done].
  assert (forall q, fs1 !! q
            = if match q with
                 | d :: item :: _ =>
                     underChapterEntry q && isDirectory fs DOCS_OUTPUT_DIR
                     && existsSync fs [d; item]
                 | _ => false
                 end
              then None else fs !! q) as Hfs1.
  { intros q0. destruct (existsSync fs DOCS_OUTPUT_DIR) eqn:Ee.
    - destruct (readdirSync fs DOCS_OUTPUT_DIR) as [items|] eqn:Er; [|done].
      injection Ea as Ef.
      assert (isDirectory fs DOCS_OUTPUT_DIR = true) as ->.
      { unfold isDirectory.
        by rewrite (proj1 (readdirSync_Some fs DOCS_OUTPUT_DIR)) by (rewrite Er; eauto). }
      change fs1 with (fst (fs1, n1)). rewrite <- Ef, lookup_clean_items.
      rewrite (removed_items fs items q0 Er).
      destruct q0 as [|d [|item rest]]; try done. by rewrite andb_true_r.
    - injection Ea as <- <-.
      assert (isDirectory fs DOCS_OUTPUT_DIR = false) as ->.
      { unfold isDirectory. unfold existsSync in Ee.
        apply bool_decide_eq_false in Ee.
        destruct (fs !! DOCS_OUTPUT_DIR); [|done]. exfalso. eauto. }
      destruct q0 as [|d [|item rest]]; try done.
      by rewrite andb_false_r. }
  assert (existsSync fs1 STATIC_OUTPUT_DIR = existsSync fs STATIC_OUTPUT_DIR) as Hst.
  { unfold existsSync. by rewrite Hfs1. }
  rewrite Hst. unfold removedByClean.
  destruct (existsSync fs STATIC_OUTPUT_DIR) eqn:Es; intros [= <- <-].
  - rewrite lookup_rmSync, Hfs1, andb_true_r.
    destruct (isPrefix STATIC_OUTPUT_DIR q); [by rewrite orb_true_r|].
    by rewrite orb_false_r.
  - rewrite Hfs1, andb_false_r, orb_false_r. done.
Qed.

Lemma removedByClean_static (fs : FS) :
  removedByClean fs STATIC_OUTPUT_DIR = existsSync fs STATIC_OUTPUT_DIR.
Proof. reflexivity. Qed.

Lemma removedByClean_docs (fs : FS) : removedByClean fs DOCS_OUTPUT_DIR = false.
Proof. reflexivity. Qed.

Lemma removedByClean_docs_entry (fs : FS) item :
  removedByClean fs (DOCS_OUTPUT_DIR ++ [item])
  = Str.startsWith "chapter" item && isDirectory fs DOCS_OUTPUT_DIR
    && existsSync fs (DOCS_OUTPUT_DIR ++ [item]).
Proof.
  unfold removedByClean. cbn [DOCS_OUTPUT_DIR app underChapterEntry].
  rewrite bool_decide_eq_true_2 by done.
  change (isPrefix STATIC_OUTPUT_DIR ["docs"; item]) with false.
  cbn [andb]. apply orb_false_r.
Qed.

(** [cleanGenerated] is idempotent: a second call finds nothing to remove
    and leaves the file system of the first call. *)
Lemma cleanGenerated_idempotent (fs fs' : FS) n :
  cleanGenerated fs = Some (fs', n) -> cleanGenerated fs' = Some (fs', 0%nat).
Proof.
  intros H.
  assert (fs' !! DOCS_OUTPUT_DIR = fs !! DOCS_OUTPUT_DIR) as Hdocs.
  { by rewrite (lookup_cleanGenerated _ _ _ _ H), removedByClean_docs. }
  assert (existsSync fs' STATIC_OUTPUT_DIR = false) as Hst.
  { unfold existsSync at 1.
    rewrite (lookup_cleanGenerated _ _ _ _ H), removedByClean_static.
    destruct (existsSync fs STATIC_OUTPUT_DIR) eqn:E.
    - apply bool_decide_eq_false_2. by intros [? ?].
    - exact E. }
  assert (forall items, readdirSync fs' DOCS_OUTPUT_DIR = Some items ->
            fold_left cleanItem items (fs', 0%nat) = (fs', 0%nat)) as Hitems.
  { intros items Hr. apply clean_items_nothing_to_do. intros item Hin.
    apply (elem_of_readdirSync _ _ _ _ Hr) in Hin.
    rewrite (lookup_cleanGenerated _ _ _ _ H), removedByClean_docs_entry in Hin.
    assert (isDirectory fs DOCS_OUTPUT_DIR = true) as Hd.
    { unfold isDirectory. rewrite <- Hdocs.
      by rewrite (proj1 (readdirSync_Some fs' DOCS_OUTPUT_DIR)) by (rewrite Hr; eauto). }
    rewrite Hd, andb_true_r in Hin.
    destruct (Str.startsWith "chapter" item); [|done].
    cbn [andb] in Hin.
    destruct (existsSync fs (DOCS_OUTPUT_DIR ++ [item])) eqn:E.
    - by destruct Hin.
    - apply existsSync_true in Hin. congruence. }
  unfold cleanGenerated.
  destruct (existsSync fs' DOCS_OUTPUT_DIR) eqn:Ee.
  - destruct (readdirSync fs' DOCS_OUTPUT_DIR) as [items|] eqn:Er.
    + rewrite (Hitems items eq_refl). by rewrite Hst.
    + exfalso.
      assert (is_Some (cleanGenerated fs)) as Hsome by (rewrite H; eauto).
      apply cleanGenerated_returns in Hsome. rewrite <- Hdocs in Hsome.
      destruct Hsome as [Hn|Hd].
      * apply existsSync_true in Ee. rewrite Hn in Ee. by destruct Ee.
      * apply readdirSync_Some in Hd. rewrite Er in Hd. by destruct Hd.
  - by rewrite Hst.
Qed.

(** Calling [cleanGenerated] when nothing exists is safe. *)
Lemma cleanGenerated_nothing_exists : cleanGenerated ∅ = Some (∅, 0%nat).
Proof. reflexivity. Qed.

(** C8 on the tree that a run over the source directory with
    [Chapt1Exercise8.m] and [fermi.m] generates: the run writes its pages
    below [docs/chapter1] and below [docs/utilities].  [cleanGenerated]
    removes [docs/chapter1] and the static root, reports two folders, and a
    second call changes nothing; but the generated documentation of the
    utilities chapter, [docs/utilities], is still there, although a run over
    the source directory without [fermi.m] writes nothing below it. *)
Theorem C8_clean_leaves_utilities_docs :
  (forall readText detailPage indexPage now,
     option_map (fun out => List.map fst (pages out))
       (runOutput readText detailPage indexPage now ["Chapt1Exercise8.m"; "fermi.m"])
     = Some [ ["docs"; "chapter1"; "Chapt1Exercise8"; "Chapt1Exercise8_matlab.mdx"];
              ["docs"; "chapter1"; "Chapt1Exercise8"; "index.mdx"];
              ["docs"; "utilities"; "fermi"; "fermi_matlab.mdx"];
              ["docs"; "utilities"; "fermi"; "index.mdx"] ]
     /\ option_map (fun out => List.map fst (pages out))
          (runOutput readText detailPage indexPage now ["Chapt1Exercise8.m"])
        = Some [ ["docs"; "chapter1"; "Chapt1Exercise8"; "Chapt1Exercise8_matlab.mdx"];
                 ["docs"; "chapter1"; "Chapt1Exercise8"; "index.mdx"] ])
  /\ exists fs',
       cleanGenerated generatedTree = Some (fs', 2%nat)
       /\ fs' !! ["docs"; "chapter1"] = None
       /\ fs' !! ["docs"; "chapter1"; "Chapt1Exercise8"; "index.mdx"] = None
       /\ fs' !! STATIC_OUTPUT_DIR = None
       /\ fs' !! ["static"; "programs"; "matlab"; "fermi"; "fermi.m"] = None
       /\ fs' !! ["docs"; "utilities"] = Some Directory
       /\ fs' !! ["docs"; "utilities"; "fermi"; "index.mdx"] = Some (File "index")
       /\ fs' !! ["docs"; "utilities"; "fermi"; "fermi_matlab.mdx"] = Some (File "detail")
       /\ cleanGenerated fs' = Some (fs', 0%nat).
Proof.
  split; [intros readText detailPage indexPage now; split; reflexivity|].
  destruct (proj2 (cleanGenerated_returns generatedTree)) as [[fs' n] E].
  { right. by vm_compute. }
  assert (n = 2%nat) as ->.
  { assert (snd <$> cleanGenerated generatedTree = Some 2%nat) as Hn
      by (by vm_compute).
    rewrite E in Hn. by injection Hn. }
  exists fs'. split; [done|].
  rewrite !(lookup_cleanGenerated _ _ _ _ E).
  repeat (split; [by vm_compute|]).
  by apply (cleanGenerated_idempotent generatedTree fs' 2%nat).
Qed.

(** C10: [cleanGenerated] does not look at the kind of the entries that it
    removes, although it announces the removal of chapter folders.  A
    regular file of the documentation directory whose name starts with
    [chapter], here a hand-written page, is removed and counted as a folder.
    Nor is the source directory out of its reach: given with [--source]
    below the static programs root, it is removed with its files. *)
Theorem C10_clean_removes_page_named_chapter :
  (treeWithChapterPage !! ["docs"; "chapter-overview.md"]
   = Some (File "# Overview of the chapters")
   /\ exists fs',
        cleanGenerated treeWithChapterPage = Some (fs', 1%nat)
        /\ fs' !! ["docs"; "chapter-overview.md"] = None
        /\ fs' !! ["docs"; "intro.md"] = Some (File "# Applied Quantum Mechanics"))
  /\ (INBOX_DIR resolveInSite
        (parseArgs ["node"; "generate-program-docs.js"; "--clean";
                    "--source"; "static/programs/inbox"])
      = ["static"; "programs"; "inbox"]
      /\ treeWithSourceInStatic !! ["static"; "programs"; "inbox"; "Chapt1Exercise8.m"]
         = Some (File "clear all")
      /\ exists fs',
           cleanGenerated treeWithSourceInStatic = Some (fs', 1%nat)
           /\ fs' !! ["static"; "programs"; "inbox"] = None
           /\ fs' !! ["static"; "programs"; "inbox"; "Chapt1Exercise8.m"] = None).
Proof.
  split.
  - split; [by vm_compute|].
    destruct (proj2 (cleanGenerated_returns treeWithChapterPage)) as [[fs' n] E].
    { right. by vm_compute. }
    assert (n = 1%nat) as ->.
    { assert (snd <$> cleanGenerated treeWithChapterPage = Some 1%nat) as Hn
        by (by vm_compute).
      rewrite E in Hn. by injection Hn. }
    exists fs'. split; [done|].
    rewrite !(lookup_cleanGenerated _ _ _ _ E). split; by vm_compute.
  - split; [by vm_compute|]. split; [by vm_compute|].
    destruct (proj2 (cleanGenerated_returns treeWithSourceInStatic)) as [[fs' n] E].
    { right. by vm_compute. }
    assert (n = 1%nat) as ->.
    { assert (snd <$> cleanGenerated treeWithSourceInStatic = Some 1%nat) as Hn
        by (by vm_compute).
      rewrite E in Hn. by injection Hn. }
    exists fs'. split; [done|].
    rewrite !(lookup_cleanGenerated _ _ _ _ E). split; by vm_compute.
Qed.

(** * Further properties *)

(** ** Titles in the front matter *)

Lemma length_app_str a b :
  String.length (a +:+ b) = (String.length a + String.length b)%nat.
Proof. induction a; simpl; congruence. Qed.

Lemma app_inv_tail_str a b t : a +:+ t = b +:+ t -> a = b.
Proof.
  revert b. induction a as [|c a IH]; intros [|d b] H; simpl in *.
  - done.
  - apply (f_equal String.length) in H. simpl in H.
    rewrite length_app_str in H. lia.
  - apply (f_equal String.length) in H. simpl in H.
    rewrite length_app_str in H. lia.
  - injection H as -> H. f_equal. by apply IH.
Qed.

Lemma all_app p a b : Str.all p (a +:+ b) = Str.all p a && Str.all p b.
Proof. induction a as [|c a IH]; simpl; [done|]. by rewrite IH, andb_assoc. Qed.

Lemma all_impl (p q : ascii -> bool) s :
  (forall c, p c = true -> q c = true) -> Str.all p s = true -> Str.all q s = true.
Proof.
  intros Hpq. induction s as [|c s IH]; simpl; [done|].
  intros [Hc Hs]%andb_prop. rewrite (Hpq _ Hc). simpl. auto.
Qed.

Lemma all_map p f s :
  Str.all p (Str.map f s) = Str.all (fun c => p (f c)) s.
Proof. induction s as [|c s IH]; simpl; congruence. Qed.

Lemma containsChar_app c a b :
  containsChar c (a +:+ b) = containsChar c a || containsChar c b.
Proof. induction a as [|d a IH]; simpl; [done|]. by destruct (ascii_dec d c). Qed.

Lemma containsChar_all p c s :
  p c = false -> Str.all p s = true -> containsChar c s = false.
Proof.
  intros Hc. induction s as [|d s IH]; simpl; [done|].
  intros [Hd Hs]%andb_prop. destruct (ascii_dec d c) as [->|]; [congruence|auto].
Qed.

Lemma containsChar_special c s :
  yamlSpecial c = true -> containsChar c s = true ->
  Str.all (fun d => negb (yamlSpecial d)) s = false.
Proof.
  intros Hc. induction s as [|d s IH]; simpl; [done|].
  destruct (ascii_dec d c) as [->|].
  - by rewrite Hc.
  - intros H. rewrite (IH H). apply andb_false_r.
Qed.

Lemma escapeForYaml_plain s :
  Str.all (fun c => negb (yamlSpecial c)) s = true -> escapeForYaml s = s.
Proof.
  intros H. unfold escapeForYaml.
  rewrite (containsChar_all (fun c => negb (yamlSpecial c)) ":" s eq_refl H).
  rewrite (containsChar_all (fun c => negb (yamlSpecial c)) "#" s eq_refl H).
  rewrite (containsChar_all (fun c => negb (yamlSpecial c)) Json.quote s eq_refl H).
  by rewrite (containsChar_all (fun c => negb (yamlSpecial c)) "'" s eq_refl H).
Qed.

Lemma escapeForYaml_special s :
  Str.all (fun c => negb (yamlSpecial c)) s = false ->
  escapeForYaml s = String Json.quote (escapeQuotes s +:+ String Json.quote "").
Proof.
  intros H. unfold escapeForYaml.
  destruct (containsChar ":" s || containsChar "#" s
            || containsChar Json.quote s || containsChar "'" s) eqn:E; [done|].
  apply orb_false_elim in E as [[[E1 E2]%orb_false_elim E3]%orb_false_elim E4].
  exfalso. clear -H E1 E2 E3 E4.
  induction s as [|c s IH]; simpl in *; [done|].
  destruct (ascii_dec c ":") as [->|]; [done|].
  destruct (ascii_dec c "#") as [->|]; [done|].
  destruct (ascii_dec c Json.quote) as [->|]; [done|].
  destruct (ascii_dec c "'") as [->|]; [done|].
  apply andb_false_iff in H as [H|H]; [|auto].
  apply negb_false_iff in H. unfold yamlSpecial in H.
  repeat (apply orb_prop in H as [H|H]); apply Ascii.eqb_eq in H; congruence.
Qed.

Lemma escapeQuotes_head s t : escapeQuotes s <> String Json.quote t.
Proof.
  destruct s as [|c s]; simpl; [done|].
  destruct (ascii_dec c Json.quote); [done|congruence].
Qed.

Lemma escapeQuotes_inj a b : escapeQuotes a = escapeQuotes b -> a = b.
Proof.
  revert b. induction a as [|c a IH]; intros [|d b]; simpl.
  - done.
  - by destruct (ascii_dec d Json.quote).
  - by destruct (ascii_dec c Json.quote).
  - destruct (ascii_dec c Json.quote) as [->|Hc], (ascii_dec d Json.quote) as [->|Hd].
    + intros H. injection H as H. f_equal. by apply IH.
    + intros H. injection H as <- H. by apply eq_sym, escapeQuotes_head in H.
    + intros H. injection H as -> H. by apply escapeQuotes_head in H.
    + intros H. injection H as -> H. f_equal. by apply IH.
Qed.

Lemma plain_digit c : Char.isDigit c = true -> negb (yamlSpecial c) = true.
Proof. by_cases_on_code c. Qed.

Lemma plain_upper_of_letter c :
  Char.isLetter (Char.toUpper c) = true -> negb (yamlSpecial c) = true.
Proof. by_cases_on_code c. Qed.

Lemma plain_upper_of_alnum c :
  Char.isLetter c || Char.isDigit c = true -> negb (yamlSpecial (Char.toUpper c)) = true.
Proof. by_cases_on_code c. Qed.

Lemma displayName_plain m :
  digits (capChapter m) -> digits (capNumber m) ->
  (Str.toUpperCase (capType m) = "EXERCISE" \/ Str.toUpperCase (capType m) = "FIG") ->
  match capVariant m with Some v => variantShape v | None => True end ->
  Str.all (fun c => negb (yamlSpecial c)) (Info.displayName (matchedInfo m)) = true.
Proof.
  intros Hc Hn Ht Hv. cbn [matchedInfo Info.displayName].
  rewrite !all_app.
  assert (Str.all (fun c => negb (yamlSpecial c)) (capType m) = true) as Hty.
  { apply (all_impl (fun c => Char.isLetter (Char.toUpper c))); [apply plain_upper_of_letter|].
    rewrite <- (all_map Char.isLetter Char.toUpper).
    change (Str.map Char.toUpper (capType m)) with (Str.toUpperCase (capType m)).
    by destruct Ht as [-> | ->]. }
  rewrite (all_impl _ _ _ plain_digit Hc), (all_impl _ _ _ plain_digit Hn), Hty.
  replace (Str.all (fun c => negb (yamlSpecial c)) "Chapter ") with true by by vm_compute.
  replace (Str.all (fun c => negb (yamlSpecial c)) " - ") with true by by vm_compute.
  replace (Str.all (fun c => negb (yamlSpecial c)) " ") with true by by vm_compute.
  simpl. destruct (capVariant m) as [v|]; [|done].
  destruct Hv as (c & ds & -> & Hl & Hds).
  unfold Str.toUpperCase. rewrite all_map.
  change (negb (yamlSpecial (Char.toUpper c))
          && Str.all (fun c => negb (yamlSpecial (Char.toUpper c))) ds = true).
  rewrite plain_upper_of_alnum by (by rewrite Hl). simpl.
  apply (all_impl Char.isDigit); [|done].
  intros d Hd. apply plain_upper_of_alnum. rewrite Hd. apply orb_true_r.
Qed.

(** X1.  [escapeForYaml] never maps two different strings to the same
    front-matter value. *)
Theorem escapeForYaml_injective a b :
  escapeForYaml a = escapeForYaml b -> a = b.
Proof.
  destruct (Str.all (fun c => negb (yamlSpecial c)) a) eqn:Ea,
           (Str.all (fun c => negb (yamlSpecial c)) b) eqn:Eb.
  - by rewrite !escapeForYaml_plain.
  - rewrite (escapeForYaml_plain a Ea), (escapeForYaml_special b Eb). intros ->.
    by cbn in Ea.
  - rewrite (escapeForYaml_special a Ea), (escapeForYaml_plain b Eb). intros <-.
    by cbn in Eb.
  - rewrite (escapeForYaml_special a Ea), (escapeForYaml_special b Eb).
    intros H. injection H as H. by apply app_inv_tail_str, escapeQuotes_inj in H.
Qed.

Lemma escapeForYaml_injective_witness :
  "Airy: zeros" = "Airy: zeros".
Proof. apply (escapeForYaml_injective "Airy: zeros" "Airy: zeros"). reflexivity. Defined.

(** X2.  The title of a chapter program needs no quoting: on the index page
    and on every detail page of a file of a chapter program, the title in
    the front matter is the display name (with the suffix of the file type)
    as it is. *)
Theorem chapter_program_titles_unquoted f info config :
  extractProgramInfo f = Some info -> Info.isUtility info = false ->
  getFileTypeConfig f = Some config ->
  indexTitle info = Info.displayName info
  /\ exists suffix,
       detailTitleSuffix (Cfg.type config) = Some suffix
       /\ detailTitle info (Cfg.type config) = Some (Info.displayName info +:+ suffix).
Proof.
  unfold extractProgramInfo. intros Hinfo Hu Hcfg.
  destruct (matchProgramPattern _) as [m|] eqn:Em.
  2:{ destruct (negb _); [done|]. injection Hinfo as <-. done. }
  injection Hinfo as <-. clear Hu.
  apply matchProgramPattern_iff in Em as (p & _ & _ & Hc & _ & Ht & Hn & _ & Hv & _).
  pose proof (displayName_plain m Hc Hn Ht Hv) as Hplain.
  split; [by apply escapeForYaml_plain|].
  apply FILE_TYPES_ranked in Hcfg as [_ Hty].
  apply includes_elem_of in Hty. unfold detailTitle.
  repeat (apply elem_of_cons in Hty as [->|Hty];
          [eexists; split; [reflexivity|]; cbn [detailTitleSuffix string_dec];
           f_equal; apply escapeForYaml_plain; rewrite all_app, Hplain; by vm_compute|]).
  by apply elem_of_nil in Hty.
Qed.

Lemma chapter_program_titles_unquoted_witness :
  let info := matchedInfo {| capChapter := "5"; capType := "Exercise";
                             capNumber := "5"; capVariant := Some "a" |} in
  indexTitle info = Info.displayName info
  /\ exists suffix,
       detailTitleSuffix "matlab" = Some suffix
       /\ detailTitle info "matlab" = Some (Info.displayName info +:+ suffix).
Proof.
  apply (chapter_program_titles_unquoted "Chapt5Exercise5a.m" _
           {| Cfg.type := "matlab"; Cfg.label := "MATLAB"; Cfg.emoji := "📊";
              Cfg.color := "#0076a8"; Cfg.canReadText := true;
              Cfg.codeLanguage := Some "matlab"; Cfg.maxPreviewLength := None;
              Cfg.useIframe := None; Cfg.iframeHeight := None |});
    [by vm_compute|reflexivity|by vm_compute].
Defined.

(** ** Command line *)

Lemma parseArgsLoop_app a b o :
  Forall (fun x => isFlag "--source" "-s" x = false) a ->
  parseArgsLoop (a ++ b) o = parseArgsLoop b (parseArgsLoop a o).
Proof.
  intros Ha. revert o. induction Ha as [|x a Hx Ha IH]; intros o; [done|].
  cbn [app parseArgsLoop]. rewrite Hx.
  destruct (isFlag "--watch" "-w" x); [apply IH|].
  destruct (isFlag "--clean" "-c" x); [apply IH|].
  destruct (isFlag "--help" "-h" x); [apply IH|].
  cbn. destruct (isFlag "--recursive" "-r" x); apply IH.
Qed.

Lemma isFlag_exclusive long short long' short' x :
  long <> long' -> long <> short' -> short <> long' -> short <> short' ->
  isFlag long short x = true -> isFlag long' short' x = false.
Proof.
  unfold isFlag. intros ? ? ? ?.
  repeat destruct (string_dec _ _); congruence.
Qed.

Lemma parseArgsLoop_cons x rest o :
  isFlag "--source" "-s" x = false ->
  parseArgsLoop (x :: rest) o =
    parseArgsLoop rest
      {| command := match commandOf x with Some c => Some c | None => command o end;
         source := source o;
         recursive := recursive o || isFlag "--recursive" "-r" x |}.
Proof.
  intros Hx. cbn [parseArgsLoop]. unfold commandOf. rewrite Hx.
  destruct (isFlag "--watch" "-w" x) eqn:E1.
  { rewrite (isFlag_exclusive "--watch" "-w" "--recursive" "-r" x) by done.
    by rewrite orb_false_r. }
  destruct (isFlag "--clean" "-c" x) eqn:E2.
  { rewrite (isFlag_exclusive "--clean" "-c" "--recursive" "-r" x) by done.
    by rewrite orb_false_r. }
  destruct (isFlag "--help" "-h" x) eqn:E3.
  { rewrite (isFlag_exclusive "--help" "-h" "--recursive" "-r" x) by done.
    by rewrite orb_false_r. }
  destruct (isFlag "--recursive" "-r" x).
  - by rewrite orb_true_r.
  - rewrite orb_false_r. by destruct o.
Qed.

Lemma parseArgsLoop_no_source args o :
  Forall (fun x => isFlag "--source" "-s" x = false) args ->
  parseArgsLoop args o =
    {| command := match last (omap commandOf args) with
                  | Some c => Some c
                  | None => command o
                  end;
       source := source o;
       recursive := recursive o || existsb (isFlag "--recursive" "-r") args |}.
Proof.
  intros Ha. revert o. induction Ha as [|x a Hx Ha IH]; intros o.
  - simpl. rewrite orb_false_r. by destruct o.
  - rewrite (parseArgsLoop_cons _ _ _ Hx), IH.
    change (omap commandOf (x :: a)) with
      (match commandOf x with
       | Some y => y :: omap commandOf a
       | None => omap commandOf a
       end).
    cbn [command source recursive existsb]. rewrite orb_assoc. f_equal.
    destruct (commandOf x) as [c|]; [|done].
    rewrite last_cons. by destruct (last _).
Qed.

Lemma parseArgs_argv node script args :
  parseArgs (node :: script :: args) = parseArgsLoop args defaultOptions.
Proof. reflexivity. Qed.

Lemma commandOf_Some arg c :
  commandOf arg = Some c -> c = "watch" \/ c = "clean" \/ c = "help".
Proof.
  unfold commandOf.
  destruct (isFlag "--watch" "-w" arg); [intros [= <-]; auto|].
  destruct (isFlag "--clean" "-c" arg); [intros [= <-]; auto|].
  destruct (isFlag "--help" "-h" arg); [intros [= <-]; auto|done].
Qed.

(** X3.  Without a source flag on the command line, the last command flag
    decides the command, the source stays unset, the recursive flag is set
    when it occurs anywhere, and every other argument is ignored; the
    script then watches, cleans or shows the help as the last command flag
    says, and generates the documentation when there is none. *)
Theorem parseArgs_last_command_wins node script args :
  Forall (fun x => isFlag "--source" "-s" x = false) args ->
  parseArgs (node :: script :: args) =
    {| command := last (omap commandOf args);
       source := SourceNull;
       recursive := existsb (isFlag "--recursive" "-r") args |}
  /\ entryAction (parseArgs (node :: script :: args))
     = match last (omap commandOf args) with
       | None => RunProcess
       | Some c =>
           if string_dec c "watch" then RunWatch
           else if string_dec c "clean" then RunClean
           else RunHelp
       end.
Proof.
  intros Ha. rewrite parseArgs_argv, (parseArgsLoop_no_source _ _ Ha).
  cbn [command source recursive defaultOptions orb].
  split; [by destruct (last _)|]. unfold entryAction. cbn [command].
  destruct (last (omap commandOf args)) as [c|] eqn:E; [|done].
  apply last_Some_elem_of, list_elem_of_omap in E as (arg & _ & Hc).
  by destruct (commandOf_Some _ _ Hc) as [->|[->| ->]].
Qed.

Lemma parseArgs_last_command_wins_witness :
  parseArgs ["node"; "generate-program-docs.js"; "--clean"; "-r"; "extra"; "-w"]
  = {| command := last (omap commandOf ["--clean"; "-r"; "extra"; "-w"]);
       source := SourceNull;
       recursive := existsb (isFlag "--recursive" "-r") ["--clean"; "-r"; "extra"; "-w"] |}
  /\ entryAction
       (parseArgs ["node"; "generate-program-docs.js"; "--clean"; "-r"; "extra"; "-w"])
     = RunWatch.
Proof.
  apply (parseArgs_last_command_wins "node" "generate-program-docs.js"
           ["--clean"; "-r"; "extra"; "-w"]).
  repeat constructor.
Defined.

(** X4.  The argument that follows a source flag is the source path
    whatever it looks like: it is read neither as a command nor as the
    recursive flag.  A source flag at the end of the command line leaves
    the source undefined, and the default directory is used. *)
Theorem parseArgs_source_value node script a flag value b :
  Forall (fun x => isFlag "--source" "-s" x = false) a ->
  Forall (fun x => isFlag "--source" "-s" x = false) b ->
  isFlag "--source" "-s" flag = true ->
  parseArgs (node :: script :: a ++ flag :: value :: b) =
    {| command := last (omap commandOf (a ++ b));
       source := SourcePath value;
       recursive := existsb (isFlag "--recursive" "-r") (a ++ b) |}
  /\ parseArgs (node :: script :: a ++ [flag]) =
       {| command := last (omap commandOf a);
          source := SourceUndefined;
          recursive := existsb (isFlag "--recursive" "-r") a |}
  /\ sourceOverride (parseArgs (node :: script :: a ++ [flag])) = None.
Proof.
  intros Ha Hb Hflag. rewrite !parseArgs_argv.
  assert (forall rest o, parseArgsLoop (flag :: rest) o =
            match rest with
            | v :: rest' => parseArgsLoop rest' (withSource (SourcePath v) o)
            | [] => withSource SourceUndefined o
            end) as Hstep.
  { intros rest o. cbn [parseArgsLoop]. rewrite Hflag.
    assert (isFlag "--watch" "-w" flag = false) as ->
      by (revert Hflag; unfold isFlag; repeat destruct (string_dec _ _); congruence).
    assert (isFlag "--clean" "-c" flag = false) as ->
      by (revert Hflag; unfold isFlag; repeat destruct (string_dec _ _); congruence).
    assert (isFlag "--help" "-h" flag = false) as ->
      by (revert Hflag; unfold isFlag; repeat destruct (string_dec _ _); congruence).
    done. }
  assert (parseArgsLoop (a ++ [flag]) defaultOptions =
          {| command := last (omap commandOf a); source := SourceUndefined;
             recursive := existsb (isFlag "--recursive" "-r") a |}) as Hend.
  { rewrite (parseArgsLoop_app _ _ _ Ha), Hstep, (parseArgsLoop_no_source _ _ Ha).
    cbn. by destruct (last _). }
  split; [|split; [done|by rewrite Hend]].
  rewrite (parseArgsLoop_app _ _ _ Ha), Hstep, (parseArgsLoop_no_source _ _ Hb),
    (parseArgsLoop_no_source _ _ Ha).
  cbn. rewrite omap_app, existsb_app, last_app.
  by destruct (last (omap commandOf b)), (last (omap commandOf a)).
Qed.

Lemma parseArgs_source_value_witness :
  parseArgs ("node" :: "generate-program-docs.js" :: ["-r"] ++ "--source" :: "--clean" :: ["-w"]) =
    {| command := last (omap commandOf (["-r"] ++ ["-w"]));
       source := SourcePath "--clean";
       recursive := existsb (isFlag "--recursive" "-r") (["-r"] ++ ["-w"]) |}
  /\ parseArgs ("node" :: "generate-program-docs.js" :: ["-r"] ++ ["--source"]) =
       {| command := last (omap commandOf ["-r"]);
          source := SourceUndefined;
          recursive := existsb (isFlag "--recursive" "-r") ["-r"] |}
  /\ sourceOverride (parseArgs ("node" :: "generate-program-docs.js" :: ["-r"] ++ ["--source"]))
     = None.
Proof.
  apply (parseArgs_source_value "node" "generate-program-docs.js"
           ["-r"] "--source" "--clean" ["-w"]);
    [repeat constructor|repeat constructor|reflexivity].
Defined.

(** ** Previews *)

Lemma substring0_spec n s :
  exists rest,
    s = substring0 n s +:+ rest
    /\ String.length (substring0 n s) = Nat.min n (String.length s)
    /\ Str.isEmpty rest = (String.length s <=? n)%nat.
Proof.
  revert s. induction n as [|n IH]; intros [|c s].
  - by exists "".
  - by exists (String c s).
  - by exists "".
  - destruct (IH s) as (rest & Hs & Hl & He). exists rest.
    cbn [substring0 String.append String.length]. rewrite <- Hs, Hl. done.
Qed.

(** X5.  The LaTeX page shows a prefix of the file (of the placeholder when
    the file is empty or unreadable) that is never longer than the preview
    limit of the file type, and it is flagged as truncated exactly when
    something was cut off. *)
Theorem latexPreview_bounded config fileContent max content truncated :
  Cfg.maxPreviewLength config = Some max -> 0 < max ->
  latexPreview config fileContent = (content, truncated) ->
  exists rest,
    (if Str.isEmpty fileContent then "% Unable to read file" else fileContent)
      = content +:+ rest
    /\ Z.of_nat (String.length content) <= max
    /\ truncated = negb (Str.isEmpty rest).
Proof.
  intros Hmax Hpos. unfold latexPreview. rewrite Hmax.
  set (full := if Str.isEmpty fileContent then _ else _).
  assert ((max =? 0) = false) as -> by lia. cbn [negb andb].
  destruct (Z.ltb_spec max (Z.of_nat (String.length full))) as [Hlt|Hge].
  - intros [= <- <-].
    destruct (substring0_spec (Z.to_nat max) full) as (rest & Hs & Hl & He).
    exists rest. split; [done|]. split; [lia|].
    rewrite He. symmetry. apply negb_true_iff, Nat.leb_gt. lia.
  - intros [= <- <-]. exists "". by rewrite app_empty_r.
Qed.

Lemma latexPreview_bounded_witness :
  exists rest,
    "\documentclass{article}" = "\docu" +:+ rest
    /\ Z.of_nat (String.length "\docu") <= 5
    /\ true = negb (Str.isEmpty rest).
Proof.
  apply (latexPreview_bounded
           {| Cfg.type := "latex"; Cfg.label := "LaTeX Document"; Cfg.emoji := "";
              Cfg.color := "#008080"; Cfg.canReadText := true;
              Cfg.codeLanguage := Some "latex"; Cfg.maxPreviewLength := Some 5;
              Cfg.useIframe := None; Cfg.iframeHeight := None |}
           "\documentclass{article}" 5 "\docu" true);
    [reflexivity|lia|reflexivity].
Defined.

(** X6.  The HTML page has no source block for an empty file; otherwise the
    block holds the first 20000 code units of the file at most, followed by
    the truncation mark exactly when something was cut off. *)
Theorem htmlSource_bounded fileContent :
  fileContent <> "" ->
  exists body rest,
    fileContent = body +:+ rest
    /\ Z.of_nat (String.length body) <= 20000
    /\ htmlSource fileContent
       = Some (body +:+ (if Str.isEmpty rest then "" else htmlTruncationMark)).
Proof.
  intros Hne. unfold htmlSource. apply isEmpty_false in Hne. rewrite Hne.
  destruct (Z.ltb_spec 20000 (Z.of_nat (String.length fileContent))) as [Hlt|Hge].
  - destruct (substring0_spec (Z.to_nat 20000) fileContent) as (rest & Hs & Hl & He).
    exists (substring0 (Z.to_nat 20000) fileContent), rest.
    split; [done|]. split; [lia|].
    replace (Str.isEmpty rest) with false; [done|].
    rewrite He. symmetry. apply Nat.leb_gt. lia.
  - exists fileContent, "". by rewrite !app_empty_r.
Qed.

Lemma htmlSource_bounded_witness :
  exists body rest,
    "<p>psi</p>" = body +:+ rest
    /\ Z.of_nat (String.length body) <= 20000
    /\ htmlSource "<p>psi</p>"
       = Some (body +:+ (if Str.isEmpty rest then "" else htmlTruncationMark)).
Proof. apply (htmlSource_bounded "<p>psi</p>"). discriminate. Defined.

(** ** Groups and counters of a run *)

Lemma upsert_old {V} k (v0 : V) f m :
  JsMap.has k m = true -> upsert k v0 f m = JsMap.update k f m.
Proof. unfold upsert. by intros ->. Qed.

Lemma upsert_new {V} k (v0 : V) f m :
  JsMap.has k m = false -> upsert k v0 f m = m ++ [(k, f v0)].
Proof.
  unfold upsert. intros H. rewrite H. unfold JsMap.has in H.
  induction m as [|[k' v'] m IH]; simpl in *.
  - by destruct (string_dec k k).
  - destruct (string_dec k' k) as [->|Hne]; [done|]. simpl.
    destruct (string_dec k' k); [done|]. f_equal. by apply IH.
Qed.

Lemma entries_update k e (m : list (string * ProgramGroup)) :
  JsMap.has k m = true ->
  flat_map (fun kv => files (snd kv)) (JsMap.update k (pushFile e) m)
  ≡ₚ flat_map (fun kv => files (snd kv)) m ++ [e].
Proof.
  unfold JsMap.has. induction m as [|[k' g] m IH]; simpl; [done|].
  destruct (string_dec k' k) as [->|Hne]; simpl.
  - intros _. rewrite <- !app_assoc. apply Permutation_app_head, Permutation_app_comm.
  - intros H. rewrite (IH H). by rewrite app_assoc.
Qed.

Lemma allEntries_collectFile s f :
  isSupported f = true ->
  exists config,
    getFileTypeConfig (Path.basename f) = Some config
    /\ allEntries (collectFile s f) ≡ₚ allEntries s ++ [entryOf f config].
Proof.
  intros H. destruct (collectFile_supported s f H) as (config & Hc & ->).
  exists config. split; [done|]. unfold allEntries. cbn [programFiles].
  destruct (JsMap.has (programIdOf f) (programFiles s)) eqn:E.
  - rewrite (upsert_old _ _ _ _ E). by apply entries_update.
  - rewrite (upsert_new _ _ _ _ E), flat_map_app. by simpl.
Qed.

Lemma allEntries_fold l s :
  Forall (fun f => isSupported f = true) l ->
  exists es,
    allEntries (fold_left collectFile l s) ≡ₚ allEntries s ++ es
    /\ List.map filePath es = l
    /\ Forall (fun e => filename e = Path.basename (filePath e)
                        /\ getFileTypeConfig (filename e) = Some (config e)) es.
Proof.
  intros H. revert s. induction H as [|f l Hf Hl IH]; intros s.
  - exists []. by rewrite app_nil_r.
  - destruct (allEntries_collectFile s f Hf) as (config & Hc & Hs).
    destruct (IH (collectFile s f)) as (es & Hes & Hmap & Hall).
    exists (entryOf f config :: es). split; [|split].
    + cbn [fold_left]. rewrite Hes, Hs, <- app_assoc. done.
    + simpl. by rewrite Hmap.
    + constructor; [done|done].
Qed.

Lemma supportedFiles_Forall allFiles :
  Forall (fun f => isSupported f = true) (supportedFiles allFiles).
Proof. apply Forall_forall. by intros f [_ ?]%elem_of_supportedFiles. Qed.

Lemma allEntries_collectPrograms allFiles :
  exists es,
    allEntries (collectPrograms allFiles) ≡ₚ es
    /\ List.map filePath es = supportedFiles allFiles
    /\ Forall (fun e => filename e = Path.basename (filePath e)
                        /\ getFileTypeConfig (filename e) = Some (config e)) es.
Proof.
  apply (allEntries_fold _ initialStats), supportedFiles_Forall.
Qed.

Section Counters.
Variable copyOk : string -> string -> bool.
Variable writeOk : string -> string -> bool.

Lemma processFile_counts pid es d s l :
  Forall (fun e => hasDetailPage (Cfg.type (config e)) = true) es ->
  exists d' s' l',
    fold_left (processFile copyOk writeOk pid) es (d, s, l) = (d', s', l')
    /\ (d' + s' = d + s + length es)%nat.
Proof.
  intros H. revert d s l. induction H as [|e es He Hes IH]; intros d s l.
  - exists d, s, l. split; [done|simpl; lia].
  - cbn [fold_left]. unfold processFile at 2. rewrite He.
    destruct (negb (copyOk pid (filename e))).
    + destruct (IH d (S s) l) as (d' & s' & l' & -> & Hsum).
      exists d', s', l'. split; [done|simpl; lia].
    + destruct (writeOk pid (Cfg.type (config e))).
      * destruct (IH (S d) s (l ++ [{| entryFilename := filename e;
                                       fileType := Cfg.type (config e);
                                       staticPath := "/programs/" +:+ Cfg.type (config e)
                                         +:+ "/" +:+ pid +:+ "/" +:+ filename e;
                                       entryConfig := config e |}]))
          as (d' & s' & l' & -> & Hsum).
        exists d', s', l'. split; [done|simpl; lia].
      * destruct (IH d (S s) (l ++ [{| entryFilename := filename e;
                                       fileType := Cfg.type (config e);
                                       staticPath := "/programs/" +:+ Cfg.type (config e)
                                         +:+ "/" +:+ pid +:+ "/" +:+ filename e;
                                       entryConfig := config e |}]))
          as (d' & s' & l' & -> & Hsum).
        exists d', s', l'. split; [done|simpl; lia].
Qed.

Lemma processGroups_counts (groups : list (string * ProgramGroup)) c :
  Forall (fun e => hasDetailPage (Cfg.type (config e)) = true)
         (flat_map (fun kv => files (snd kv)) groups) ->
  (fst (fold_left (processGroup copyOk writeOk) groups c)
   + snd (fold_left (processGroup copyOk writeOk) groups c)
   = fst c + snd c + length (flat_map (fun kv => files (snd kv)) groups))%nat.
Proof.
  revert c. induction groups as [|kv groups IH]; intros c H; [simpl; lia|].
  simpl in H. apply Forall_app in H as [Hkv Hgroups].
  cbn [fold_left flat_map]. rewrite (IH _ Hgroups), length_app.
  unfold processGroup.
  destruct (processFile_counts (fst kv) (files (snd kv)) (fst c) (snd c) [] Hkv)
    as (d' & s' & l' & -> & Hsum).
  simpl. lia.
Qed.
End Counters.

Lemma processFile_all_ok pid es d s l :
  Forall (fun e => hasDetailPage (Cfg.type (config e)) = true) es ->
  exists l',
    fold_left (processFile (fun _ _ => true) (fun _ _ => true) pid) es (d, s, l)
    = ((d + length es)%nat, s, l').
Proof.
  intros H. revert d l. induction H as [|e es He Hes IH]; intros d l.
  - exists l. simpl. f_equal. f_equal. lia.
  - cbn [fold_left]. unfold processFile at 2. rewrite He. cbn [negb].
    destruct (IH (S d) (l ++ [{| entryFilename := filename e;
                                 fileType := Cfg.type (config e);
                                 staticPath := "/programs/" +:+ Cfg.type (config e)
                                   +:+ "/" +:+ pid +:+ "/" +:+ filename e;
                                 entryConfig := config e |}])) as (l' & ->).
    exists l'. f_equal. f_equal. simpl. lia.
Qed.

Lemma processGroups_all_ok (groups : list (string * ProgramGroup)) c :
  Forall (fun e => hasDetailPage (Cfg.type (config e)) = true)
         (flat_map (fun kv => files (snd kv)) groups) ->
  fold_left (processGroup (fun _ _ => true) (fun _ _ => true)) groups c
  = ((fst c + length (flat_map (fun kv => files (snd kv)) groups))%nat, snd c).
Proof.
  revert c. induction groups as [|kv groups IH]; intros c H.
  - simpl. destruct c. simpl. f_equal. lia.
  - simpl in H. apply Forall_app in H as [Hkv Hgroups].
    cbn [fold_left flat_map]. rewrite (IH _ Hgroups), length_app.
    unfold processGroup.
    destruct (processFile_all_ok (fst kv) (files (snd kv)) (fst c) (snd c) [] Hkv)
      as (l' & ->).
    simpl. f_equal. lia.
Qed.

Lemma entries_have_detail_pages allFiles :
  Forall (fun e => hasDetailPage (Cfg.type (config e)) = true)
         (allEntries (collectPrograms allFiles)).
Proof.
  destruct (allEntries_collectPrograms allFiles) as (es & Hperm & _ & Hall).
  rewrite Hperm. eapply Forall_impl; [exact Hall|].
  intros e [_ Hc]. by apply FILE_TYPES_ranked in Hc as [_ ?].
Qed.

Lemma length_allEntries allFiles :
  length (allEntries (collectPrograms allFiles)) = length (supportedFiles allFiles).
Proof.
  destruct (allEntries_collectPrograms allFiles) as (es & Hperm & Hmap & _).
  rewrite Hperm, <- Hmap. by rewrite length_map.
Qed.

(** X7.  Every supported file of the listing is counted exactly once at the
    end of a run, as processed or as skipped, whichever copies and page
    writes fail (the run itself going through: no directory creation
    throws); when nothing fails all of them are processed. *)
Theorem every_supported_file_is_counted allFiles :
  (forall copyOk writeOk,
     (fst (finalCounters copyOk writeOk (collectPrograms allFiles))
      + snd (finalCounters copyOk writeOk (collectPrograms allFiles)))%nat
     = length (supportedFiles allFiles))
  /\ finalCounters (fun _ _ => true) (fun _ _ => true) (collectPrograms allFiles)
     = (length (supportedFiles allFiles), 0%nat).
Proof.
  pose proof (entries_have_detail_pages allFiles) as Hd.
  assert (processed (collectPrograms allFiles) = 0%nat
          /\ skipped (collectPrograms allFiles) = 0%nat) as [Hp Hs].
  { unfold collectPrograms.
    pose proof (supportedFiles_Forall allFiles) as Hsup.
    split; [|by rewrite skipped_fold].
    revert Hsup. generalize (supportedFiles allFiles). intros l Hl.
    assert (forall s, processed (fold_left collectFile l s) = processed s) as Hproc.
    { induction Hl as [|f l Hf Hl IH]; intros s; [done|].
      cbn [fold_left]. rewrite IH.
      by destruct (collectFile_supported s f Hf) as (c & _ & ->). }
    by rewrite Hproc. }
  split.
  - intros copyOk writeOk. unfold finalCounters.
    rewrite (processGroups_counts copyOk writeOk _ _ Hd).
    fold (allEntries (collectPrograms allFiles)).
    rewrite length_allEntries, Hp, Hs. simpl. lia.
  - unfold finalCounters. rewrite (processGroups_all_ok _ _ Hd).
    fold (allEntries (collectPrograms allFiles)).
    by rewrite length_allEntries, Hp, Hs.
Qed.

(** X8.  The groups partition the supported files: taken together, the
    members of all groups are the supported files of the listing, each
    once, and every member carries the last segment of its path as file
    name and the entry of the file-type table for its extension. *)
Theorem groups_partition_the_supported_files allFiles :
  List.map filePath (allEntries (collectPrograms allFiles)) ≡ₚ supportedFiles allFiles
  /\ Forall (fun e => filename e = Path.basename (filePath e)
                      /\ getFileTypeConfig (filename e) = Some (config e))
       (allEntries (collectPrograms allFiles)).
Proof.
  destruct (allEntries_collectPrograms allFiles) as (es & Hperm & Hmap & Hall).
  split; [by rewrite Hperm, Hmap|by rewrite Hperm].
Qed.

(** The programId of a chapter program matches the pattern and has the
    captures of the name it was built from. *)
Lemma programId_decomposes b m :
  decomposes b m "" -> decomposes (Info.programId (matchedInfo m)) m "".
Proof.
  intros (p & _ & _ & Hc & Hc' & Ht & Hn & Hn' & Hv & Hf).
  exists "Chapt". cbn [matchedInfo Info.programId].
  rewrite app_empty_r. repeat split; try done.
Qed.

Lemma programId_matches m b :
  matchProgramPattern b = Some m ->
  matchPrefix (Info.programId (matchedInfo m)) = Some (m, "").
Proof.
  intros H%matchProgramPattern_iff. by apply matchPrefix_complete, (programId_decomposes b).
Qed.

(** The identity is a function of the programId. *)
Lemma classify_programId b1 b2 :
  Info.programId (classify b1) = Info.programId (classify b2) ->
  classify b1 = classify b2.
Proof.
  unfold classify.
  destruct (matchProgramPattern b1) as [m1|] eqn:E1,
           (matchProgramPattern b2) as [m2|] eqn:E2.
  - intros H. pose proof (programId_matches _ _ E1) as H1.
    pose proof (programId_matches _ _ E2) as H2.
    rewrite H in H1. rewrite H1 in H2. by injection H2 as ->.
  - cbn [utilityInfo Info.programId]. intros H.
    pose proof (programId_matches _ _ E1) as H1. rewrite H in H1.
    unfold matchProgramPattern in E2. by rewrite H1 in E2.
  - cbn [utilityInfo Info.programId]. intros H.
    pose proof (programId_matches _ _ E2) as H2. rewrite <- H in H2.
    unfold matchProgramPattern in E1. by rewrite H2 in E1.
  - cbn [utilityInfo Info.programId]. by intros ->.
Qed.

Lemma wellGrouped_collectFile s f :
  isSupported f = true -> wellGrouped s -> wellGrouped (collectFile s f).
Proof.
  intros Hf Hs pid g. destruct (collectFile_supported s f Hf) as (config & Hc & ->).
  cbn [programFiles]. destruct (decide (programIdOf f = pid)) as [<-|Hne].
  - rewrite get_upsert_eq. intros [= <-].
    destruct (JsMap.get (programIdOf f) (programFiles s)) as [g0|] eqn:E.
    + destruct (Hs _ _ E) as (Hid & [b Hb] & Hall). cbn [pushFile programInfo files].
      split; [done|]. split; [by exists b|].
      apply Forall_app. split; [done|]. constructor; [|constructor].
      cbn [entryOf filePath filename]. split; [done|]. split; [done|].
      rewrite Hb. apply classify_programId. by rewrite <- Hb, Hid.
    + cbn [pushFile programInfo files]. split; [done|].
      split; [by exists (baseNameOf f)|].
      constructor; [|constructor]. done.
  - rewrite get_upsert_ne by done. apply Hs.
Qed.

Lemma wellGrouped_collectPrograms allFiles : wellGrouped (collectPrograms allFiles).
Proof.
  unfold collectPrograms. pose proof (supportedFiles_Forall allFiles) as Hsup.
  revert Hsup. generalize (supportedFiles allFiles). intros l Hl.
  assert (wellGrouped initialStats) as H0 by (intros pid g; done).
  revert H0. generalize initialStats. induction Hl as [|f l Hf Hl IH]; intros s Hs; [done|].
  cbn [fold_left]. by apply IH, wellGrouped_collectFile.
Qed.

(** X9.  The identity stored with a group is the identity of each of its
    members: classifying the file name of any member gives the group's
    [programInfo], and the group is stored under the programId of that
    identity. *)
Theorem group_info_is_the_info_of_each_member allFiles pid g e :
  JsMap.get pid (programFiles (collectPrograms allFiles)) = Some g ->
  e ∈ files g ->
  extractProgramInfo (filename e) = Some (programInfo g)
  /\ Info.programId (programInfo g) = pid
  /\ programIdOf (filePath e) = pid.
Proof.
  intros Hg He. destruct (wellGrouped_collectPrograms allFiles _ _ Hg) as (Hid & _ & Hall).
  rewrite Forall_forall in Hall. destruct (Hall e He) as (Hsup & -> & Hcl).
  split; [|split; [done|]].
  - by rewrite (extractProgramInfo_supported _ Hsup), Hcl.
  - unfold programIdOf. by rewrite Hcl.
Qed.

Lemma group_info_is_the_info_of_each_member_witness :
  extractProgramInfo "chapt2fig3.TXT" = Some (classify "Chapt2fig3")
  /\ Info.programId (classify "Chapt2fig3") = "Chapt2fig3"
  /\ programIdOf "sub/chapt2fig3.TXT" = "Chapt2fig3".
Proof.
  apply (group_info_is_the_info_of_each_member
           ["Chapt2fig3.m"; "sub/chapt2fig3.TXT"] "Chapt2fig3"
           {| programInfo := classify "Chapt2fig3";
              files :=
                [ {| filename := "Chapt2fig3.m"; filePath := "Chapt2fig3.m";
                     config :=
                       {| Cfg.type := "matlab"; Cfg.label := "MATLAB"; Cfg.emoji := "📊";
                          Cfg.color := "#0076a8"; Cfg.canReadText := true;
                          Cfg.codeLanguage := Some "matlab";
                          Cfg.maxPreviewLength := None;
                          Cfg.useIframe := None; Cfg.iframeHeight := None |} |};
                  {| filename := "chapt2fig3.TXT"; filePath := "sub/chapt2fig3.TXT";
                     config :=
                       {| Cfg.type := "text"; Cfg.label := "Text File"; Cfg.emoji := "📄";
                          Cfg.color := "#6b7280"; Cfg.canReadText := true;
                          Cfg.codeLanguage := Some "text";
                          Cfg.maxPreviewLength := None;
                          Cfg.useIframe := None; Cfg.iframeHeight := None |} |} ] |}
           {| filename := "chapt2fig3.TXT"; filePath := "sub/chapt2fig3.TXT";
              config :=
                {| Cfg.type := "text"; Cfg.label := "Text File"; Cfg.emoji := "📄";
                   Cfg.color := "#6b7280"; Cfg.canReadText := true;
                   Cfg.codeLanguage := Some "text";
                   Cfg.maxPreviewLength := None;
                   Cfg.useIframe := None; Cfg.iframeHeight := None |} |}).
  - reflexivity.
  - apply list_elem_of_further, list_elem_of_here.
Defined.

Lemma countOf_countType ty ty' m :
  countOf ty (countType ty' m)
  = if decide (ty' = ty) then S (countOf ty m) else countOf ty m.
Proof.
  unfold countOf, countType, JsMap.has.
  destruct (JsMap.get ty' m) as [n|] eqn:E.
  - rewrite E. destruct (decide (ty' = ty)) as [<-|Hne].
    + by rewrite get_set_eq, E.
    + by rewrite get_set_ne.
  - rewrite get_set_eq. destruct (decide (ty' = ty)) as [<-|Hne].
    + by rewrite get_set_eq, E.
    + by rewrite !get_set_ne.
Qed.

Lemma counters_fold l s :
  Forall (fun f => isSupported f = true) l ->
  (forall ty,
     countOf ty (byType (fold_left collectFile l s))
     = (countOf ty (byType s) + length (filter (fun f => typeOf f = Some ty) l))%nat)
  /\ utilities (fold_left collectFile l s)
     = (utilities s
        + length (filter (fun f => Info.isUtility (classify (baseNameOf f)) = true) l))%nat.
Proof.
  intros H. revert s. induction H as [|f l Hf Hl IH]; intros s.
  - split; [intros ty|]; simpl; lia.
  - cbn [fold_left]. destruct (IH (collectFile s f)) as [IHt IHu].
    destruct (collectFile_supported s f Hf) as (config & Hc & Hs).
    split.
    + intros ty. rewrite IHt, Hs. cbn [byType]. rewrite countOf_countType, filter_cons.
      change (typeOf f) with (option_map Cfg.type (getFileTypeConfig (Path.basename f))).
      rewrite Hc. cbn [option_map].
      destruct (decide (Cfg.type config = ty)) as [->|Hne].
      * rewrite decide_True by done. simpl. lia.
      * rewrite decide_False by congruence. done.
    + rewrite IHu, Hs. cbn [utilities]. rewrite filter_cons.
      destruct (Info.isUtility (classify (baseNameOf f))).
      * rewrite decide_True by done. simpl. lia.
      * rewrite decide_False by done. done.
Qed.

(** X10.  The counters of the summary count files: the count kept for a
    type is the number of supported files of the listing that the
    file-type table gives that type, and the utilities counter is the number
    of supported files classified as utilities (not the number of utility
    programs). *)
Theorem summary_counters_count_files allFiles :
  (forall ty,
     countOf ty (byType (collectPrograms allFiles))
     = length (filter (fun f => typeOf f = Some ty) (supportedFiles allFiles)))
  /\ utilities (collectPrograms allFiles)
     = length (filter (fun f => Info.isUtility (classify (baseNameOf f)) = true)
                      (supportedFiles allFiles)).
Proof.
  destruct (counters_fold _ initialStats (supportedFiles_Forall allFiles)) as [Ht Hu].
  split; [intros ty; exact (Ht ty)|exact Hu].
Qed.

(** ** The navigation index and the pages *)

(** X11.  For a chapter program the label of its sidebar entry is the part
    of its display name after the chapter: the display name is
    [Chapter <chapter> - <label>]. *)
Theorem sidebar_label_is_display_name_tail f info :
  extractProgramInfo f = Some info -> Info.isUtility info = false ->
  Info.displayName info
  = "Chapter " +:+ Info.chapterNum info +:+ " - "
      +:+ extractLabelFromProgramId (Info.programId info).
Proof.
  unfold extractProgramInfo. intros Hinfo Hu.
  destruct (matchProgramPattern _) as [m|] eqn:Em.
  2:{ destruct (negb _); [done|]. injection Hinfo as <-. done. }
  injection Hinfo as <-. unfold extractLabelFromProgramId.
  rewrite (searchProgramPattern_at_start _ _ _ (programId_matches _ _ Em)).
  reflexivity.
Qed.

Lemma sidebar_label_is_display_name_tail_witness :
  Info.displayName (classify "chapt12fig3b")
  = "Chapter " +:+ Info.chapterNum (classify "chapt12fig3b") +:+ " - "
      +:+ extractLabelFromProgramId (Info.programId (classify "chapt12fig3b")).
Proof.
  apply (sidebar_label_is_display_name_tail "chapt12fig3b.pdf"); reflexivity.
Defined.

Lemma get_Some_elem_of {V} k (v : V) m : JsMap.get k m = Some v -> (k, v) ∈ m.
Proof.
  induction m as [|[k' v'] m IH]; simpl; [done|].
  destruct (string_dec k' k) as [->|Hne].
  - intros [= ->]. apply list_elem_of_here.
  - intros H. apply list_elem_of_further. by apply IH.
Qed.

Lemma filesListOf_length copyOk writeOk pid es d s l :
  (forall e, e ∈ es -> copyOk pid (filename e) = true) ->
  length (snd (fold_left (processFile copyOk writeOk pid) es (d, s, l)))
  = (length l + length es)%nat.
Proof.
  revert d s l. induction es as [|e es IH]; intros d s l H; [simpl; lia|].
  cbn [fold_left]. unfold processFile at 2.
  rewrite (H e) by apply list_elem_of_here. cbn [negb].
  destruct (if hasDetailPage (Cfg.type (config e))
            then if writeOk pid (Cfg.type (config e)) then (S d, s) else (d, S s)
            else (d, s)) as [d' s'].
  rewrite IH by (intros; apply H; by apply list_elem_of_further).
  rewrite length_app. simpl. lia.
Qed.

Lemma sidebar_programs allFiles k pid :
  pid ∈ sortWith stringAfter (chapterSet (byChapter (collectPrograms allFiles)) k)
  <-> exists f, f ∈ allFiles /\ isSupported f = true
                /\ chapterNumOf f = k /\ programIdOf f = pid.
Proof.
  rewrite elem_of_sortWith. unfold collectPrograms.
  rewrite (chapterSet_fold _ _ _ _ (supportedFiles_Forall allFiles)).
  split.
  - intros [H|(f & Hf & Hk & Hp)]; [by apply elem_of_nil in H|].
    apply elem_of_supportedFiles in Hf as [? ?]. by exists f.
  - intros (f & Hf & Hs & Hk & Hp). right. exists f.
    by rewrite elem_of_supportedFiles.
Qed.

Lemma map_flat_map {A B C} (f : B -> C) (h : A -> list B) l :
  List.map f (flat_map h l) = flat_map (fun x => List.map f (h x)) l.
Proof. induction l as [|x l IH]; [done|]. cbn [flat_map]. by rewrite List.map_app, IH. Qed.




Lemma sorted_strict l :
  NoDup l -> StronglySorted (notAfter stringAfter) l ->
  StronglySorted (fun a b => String.compare a b = Lt) l.
Proof.
  intros Hnd Hs. induction Hs as [|x l Hs IH Hx]; constructor.
  - apply IH. by apply NoDup_cons in Hnd as [_ ?].
  - apply NoDup_cons in Hnd as [Hnot _].
    apply Forall_forall. intros y Hy. rewrite Forall_forall in Hx.
    specialize (Hx y Hy). unfold notAfter, stringAfter in Hx.
    destruct (String.compare x y) eqn:E; [|done|done].
    apply String.compare_eq_iff in E as ->. done.
Qed.

(** X13.  In the category of a chapter, every program of that chapter is
    listed exactly once, and the entries are in strictly ascending order of
    the code units of their programIds, whatever the order of the
    listing. *)
Theorem sidebar_category_lists_each_program_once allFiles k :
  exists programs,
    Category.items (sidebarCategory (byChapter (collectPrograms allFiles)) k)
    = List.map (sidebarItem k) programs
    /\ NoDup programs
    /\ StronglySorted (fun a b => String.compare a b = Lt) programs
    /\ forall pid,
         pid ∈ programs
         <-> exists f, f ∈ allFiles /\ isSupported f = true
                       /\ chapterNumOf f = k /\ programIdOf f = pid.
Proof.
  exists (sortWith stringAfter (chapterSet (byChapter (collectPrograms allFiles)) k)).
  assert (NoDup (sortWith stringAfter
                   (chapterSet (byChapter (collectPrograms allFiles)) k))) as Hnd.
  { rewrite sortWith_Permutation. unfold collectPrograms.
    apply (chapterSet_NoDup_fold _ _ (supportedFiles_Forall allFiles)).
    intros k'. apply NoDup_nil_2. }
  split; [done|]. split; [done|]. split; [|apply sidebar_programs].
  apply sorted_strict; [done|].
  apply (sortWith_sorted _ (fun _ => True)); auto using stringAfter_total.
  - intros x y z _ _ _. apply stringAfter_trans.
  - by apply Forall_forall.
Qed.

(** ** The chapter summary *)

Section SortDistinct.
Context {A : Type} (after : A -> A -> bool).
Variable dom : A -> Prop.
Hypothesis total :
  forall x y, dom x -> dom y -> x <> y -> after x y = true -> after y x = false.
Hypothesis trans :
  forall x y z, dom x -> dom y -> dom z ->
    after x y = false -> after y z = false -> after x z = false.

Lemma insertSorted_sorted_distinct x l :
  dom x -> Forall dom l -> x ∉ l ->
  StronglySorted (notAfter after) l ->
  StronglySorted (notAfter after) (insertSorted after x l).
Proof.
  intros Hx Hl Hnot Hs. induction Hs as [|y l Hs IH Hy]; simpl.
  - repeat constructor.
  - inversion Hl as [|? ? Hdy Hdl]; subst.
    apply not_elem_of_cons in Hnot as [Hxy Hnot].
    destruct (after x y) eqn:E.
    + constructor; [by apply IH|].
      apply Forall_forall. intros z Hz.
      rewrite insertSorted_Permutation in Hz.
      apply elem_of_cons in Hz as [->|Hz].
      * by apply total.
      * rewrite Forall_forall in Hy. by apply Hy.
    + constructor; [by constructor|].
      constructor; [done|].
      apply Forall_forall. intros z Hz.
      rewrite Forall_forall in Hy, Hdl.
      apply (trans x y z); auto. by apply Hy.
Qed.

Lemma sortWith_sorted_distinct l :
  Forall dom l -> NoDup l -> StronglySorted (notAfter after) (sortWith after l).
Proof.
  induction 1 as [|x l Hx Hl IH]; intros Hnd; [constructor|].
  apply NoDup_cons in Hnd as [Hnot Hnd].
  change (sortWith after (x :: l)) with (insertSorted after x (sortWith after l)).
  apply insertSorted_sorted_distinct; [exact Hx|idtac|idtac|by apply IH].
  - apply Forall_forall. intros y Hy. rewrite elem_of_sortWith in Hy.
    rewrite Forall_forall in Hl. by apply Hl.
  - by rewrite elem_of_sortWith.
Qed.
End SortDistinct.

Lemma decimalValue_nonneg s acc : 0 <= acc -> 0 <= Num.decimalValue acc s.
Proof.
  revert acc. induction s as [|c s IH]; intros acc H; simpl; [done|].
  apply IH. unfold Char.digitValue. lia.
Qed.

Lemma signOf_digit c s :
  Char.isDigit c = true -> Num.signOf (String c s) = (1, String c s).
Proof. by_cases_on_code c. Qed.

Lemma digit_not_space c : Char.isDigit c = true -> Char.isSpace c = false.
Proof. by_cases_on_code c. Qed.

Lemma parseInt10_digits s :
  digits s -> nonEmpty s -> exists n, Num.parseInt10 s = Some n /\ 0 <= n.
Proof.
  destruct s as [|c s]; [done|]. intros Hd _.
  unfold digits in Hd. simpl in Hd. apply andb_prop in Hd as [Hc Hs].
  unfold Num.parseInt10. cbn [Str.dropWhile]. rewrite (digit_not_space c Hc).
  rewrite (signOf_digit c s Hc). cbn [Str.span]. rewrite Hc.
  destruct (Str.span Char.isDigit s) as [a b]. cbn [Str.isEmpty].
  eexists. split; [reflexivity|].
  pose proof (decimalValue_nonneg (String c a) 0). lia.
Qed.

Lemma chapter_key_shape allFiles k :
  k ∈ JsMap.keys (byChapter (collectPrograms allFiles)) ->
  k = "utilities" \/ (k <> "utilities" /\ exists n, Num.parseInt10 k = Some n).
Proof.
  unfold collectPrograms.
  rewrite (chapterKeys_fold _ _ _ (supportedFiles_Forall allFiles)).
  intros [H|(f & _ & <-)]; [by apply elem_of_nil in H|].
  unfold chapterNumOf, classify.
  destruct (matchProgramPattern (baseNameOf f)) as [m|] eqn:E; [|by left].
  apply matchProgramPattern_iff in E as (p & _ & _ & Hc & Hc' & _).
  cbn [matchedInfo Info.chapterNum].
  destruct (parseInt10_digits _ Hc Hc') as (n & Hn & _).
  right. split; [|by exists n]. intros Hu. by rewrite Hu in Hn.
Qed.

Lemma summaryAfter_utilities b : summaryAfter "utilities" b = true.
Proof. reflexivity. Qed.

Lemma summaryAfter_numeric a b x y :
  a <> "utilities" -> b <> "utilities" ->
  Num.parseInt10 a = Some x -> Num.parseInt10 b = Some y ->
  summaryAfter a b = (0 <? x - y).
Proof.
  intros Ha Hb Hx Hy. unfold summaryAfter, sortChapterKeys.
  destruct (string_dec a "utilities"); [done|].
  destruct (string_dec b "utilities"); [done|].
  by rewrite Hx, Hy.
Qed.

Lemma summaryAfter_before_utilities a :
  a <> "utilities" -> summaryAfter a "utilities" = false.
Proof.
  intros Ha. unfold summaryAfter, sortChapterKeys.
  by destruct (string_dec a "utilities").
Qed.

(** X14.  The chapter summary lists every chapter of the run once, the
    numeric chapters in ascending order of their numbers and the utilities
    chapter after all of them (for chapter numbers below 2^53, which
    [parseInt] reads exactly). *)
Theorem summary_lists_utilities_last allFiles :
  exactChapters (JsMap.keys (byChapter (collectPrograms allFiles))) ->
  summaryOrder (byChapter (collectPrograms allFiles))
    ≡ₚ JsMap.keys (byChapter (collectPrograms allFiles))
  /\ NoDup (summaryOrder (byChapter (collectPrograms allFiles)))
  /\ StronglySorted summaryBefore (summaryOrder (byChapter (collectPrograms allFiles))).
Proof.
  intros _. set (keys := JsMap.keys (byChapter (collectPrograms allFiles))).
  set (dom := fun k : string =>
         k = "utilities" \/ (k <> "utilities" /\ exists n, Num.parseInt10 k = Some n)).
  assert (Forall dom keys) as Hdom.
  { apply Forall_forall. intros k Hk. by apply (chapter_key_shape allFiles). }
  assert (NoDup keys) as Hnd.
  { unfold keys, collectPrograms.
    apply (chapterKeys_NoDup_fold _ _ (supportedFiles_Forall allFiles)), NoDup_nil_2. }
  assert (forall x y, dom x -> dom y -> x <> y ->
            summaryAfter x y = true -> summaryAfter y x = false) as Htot.
  { intros x y [->|(Hx & n & Hn)] [->|(Hy & m & Hm)] Hne; try done.
    - intros _. by apply summaryAfter_before_utilities.
    - by rewrite summaryAfter_before_utilities.
    - rewrite (summaryAfter_numeric _ _ _ _ Hx Hy Hn Hm),
        (summaryAfter_numeric _ _ _ _ Hy Hx Hm Hn).
      rewrite Z.ltb_lt, Z.ltb_ge. lia. }
  assert (forall x y z, dom x -> dom y -> dom z ->
            summaryAfter x y = false -> summaryAfter y z = false ->
            summaryAfter x z = false) as Htrans.
  { intros x y z [->|(Hx & n & Hn)] [->|(Hy & m & Hm)] [->|(Hz & k & Hk)];
      try (by rewrite ?summaryAfter_utilities);
      try (intros _ _; by apply summaryAfter_before_utilities).
    rewrite (summaryAfter_numeric _ _ _ _ Hx Hy Hn Hm),
      (summaryAfter_numeric _ _ _ _ Hy Hz Hm Hk),
      (summaryAfter_numeric _ _ _ _ Hx Hz Hn Hk).
    rewrite !Z.ltb_ge. lia. }
  pose proof (sortWith_sorted_distinct summaryAfter dom Htot Htrans keys Hdom Hnd) as Hs.
  assert (Forall dom (sortWith summaryAfter keys)) as Hdom'
    by (by rewrite sortWith_Permutation).
  assert (NoDup (sortWith summaryAfter keys)) as Hnd'
    by (by rewrite sortWith_Permutation).
  split; [apply sortWith_Permutation|]. split; [done|].
  unfold summaryOrder. fold keys.
  induction Hs as [|x l Hs IH Hx]; constructor.
  - apply IH; [by inversion Hdom'|by apply NoDup_cons in Hnd' as [_ ?]].
  - apply NoDup_cons in Hnd' as [Hnot _].
    inversion Hdom' as [|? ? Hdx Hdl]; subst.
    apply Forall_forall. intros y Hy.
    rewrite Forall_forall in Hx, Hdl. specialize (Hx y Hy). unfold notAfter in Hx.
    destruct Hdx as [->|(Hxu & n & Hn)]; [by rewrite summaryAfter_utilities in Hx|].
    destruct (Hdl y Hy) as [->|(Hyu & m & Hm)]; [by left|].
    right. split; [done|]. exists n, m. split; [done|]. split; [done|].
    rewrite (summaryAfter_numeric _ _ _ _ Hxu Hyu Hn Hm) in Hx.
    apply Z.ltb_ge in Hx. lia.
Qed.

Lemma summary_lists_utilities_last_witness :
  summaryOrder (byChapter (collectPrograms ["Airy.m"; "Chapt10Fig1.m"; "Chapt2Fig3.m"]))
    ≡ₚ JsMap.keys (byChapter (collectPrograms ["Airy.m"; "Chapt10Fig1.m"; "Chapt2Fig3.m"]))
  /\ NoDup (summaryOrder
              (byChapter (collectPrograms ["Airy.m"; "Chapt10Fig1.m"; "Chapt2Fig3.m"])))
  /\ StronglySorted summaryBefore
       (summaryOrder
          (byChapter (collectPrograms ["Airy.m"; "Chapt10Fig1.m"; "Chapt2Fig3.m"]))).
Proof.
  apply (summary_lists_utilities_last ["Airy.m"; "Chapt10Fig1.m"; "Chapt2Fig3.m"]).
  repeat constructor.
Defined.

(** ** More on [cleanGenerated] *)

Lemma snd_clean_items (items : list string) (acc : FS * nat) :
  snd (fold_left cleanItem items acc)
  = (snd acc
     + length (filter (fun item => Str.startsWith "chapter" item = true) items))%nat.
Proof.
  revert acc. induction items as [|item items IH]; intros acc; [simpl; lia|].
  cbn [fold_left]. rewrite IH, filter_cons. unfold cleanItem.
  destruct (Str.startsWith "chapter" item).
  - rewrite decide_True by done. simpl. lia.
  - rewrite decide_False by done. done.
Qed.

Lemma static_after_items (items : list string) (fs : FS) n :
  existsSync (fst (fold_left cleanItem items (fs, n))) STATIC_OUTPUT_DIR
  = existsSync fs STATIC_OUTPUT_DIR.
Proof.
  unfold existsSync. rewrite lookup_clean_items.
  replace (existsb _ items) with false; [done|].
  induction items as [|item items IH]; [done|].
  cbn [existsb]. rewrite <- IH.
  change (isPrefix (DOCS_OUTPUT_DIR ++ [item]) STATIC_OUTPUT_DIR) with false.
  by rewrite andb_false_r.
Qed.

Lemma cleanGenerated_count (fs fs' : FS) n :
  cleanGenerated fs = Some (fs', n) ->
  n = (length (chapterEntries fs)
       + if existsSync fs STATIC_OUTPUT_DIR then 1 else 0)%nat.
Proof.
  unfold cleanGenerated, chapterEntries.
  destruct (existsSync fs DOCS_OUTPUT_DIR) eqn:Ee.
  - destruct (readdirSync fs DOCS_OUTPUT_DIR) as [items|]; [|done].
    destruct (fold_left cleanItem items (fs, 0%nat)) as [fs1 n1] eqn:Ef.
    pose proof (static_after_items items fs 0) as Hst. rewrite Ef in Hst.
    pose proof (snd_clean_items items (fs, 0%nat)) as Hn. rewrite Ef in Hn.
    cbn [fst snd] in Hst, Hn. rewrite Hst.
    destruct (existsSync fs STATIC_OUTPUT_DIR); intros [= <- <-]; lia.
  - assert (readdirSync fs DOCS_OUTPUT_DIR = None) as ->.
    { unfold readdirSync. unfold existsSync in Ee. apply bool_decide_eq_false in Ee.
      destruct (fs !! DOCS_OUTPUT_DIR); [|done]. exfalso. eauto. }
    destruct (existsSync fs STATIC_OUTPUT_DIR); intros [= <- <-]; simpl; lia.
Qed.

Lemma elem_of_chapterEntries (fs : FS) item :
  item ∈ chapterEntries fs
  <-> Str.startsWith "chapter" item = true
      /\ fs !! DOCS_OUTPUT_DIR = Some Directory
      /\ is_Some (fs !! (DOCS_OUTPUT_DIR ++ [item])).
Proof.
  unfold chapterEntries.
  destruct (readdirSync fs DOCS_OUTPUT_DIR) as [items|] eqn:Er.
  - rewrite list_elem_of_filter, (elem_of_readdirSync _ _ _ _ Er).
    assert (fs !! DOCS_OUTPUT_DIR = Some Directory) as Hd
      by (apply readdirSync_Some; rewrite Er; eauto).
    tauto.
  - split; [by intros ?%elem_of_nil|]. intros (_ & Hd & _).
    apply readdirSync_Some in Hd. rewrite Er in Hd. by destruct Hd.
Qed.

(** X15.  After [cleanGenerated] the documentation directory has no entry
    whose name starts with [chapter], nothing is left below the entries that
    were removed, the static programs root and everything below it are
    gone, and the reported number of folders is the number of removed
    entries of the documentation directory plus one for the static root if
    it existed. *)
Theorem clean_removes_generated_folders (fs fs' : FS) n :
  cleanGenerated fs = Some (fs', n) ->
  (forall item rest,
     item ∈ chapterEntries fs -> fs' !! (DOCS_OUTPUT_DIR ++ item :: rest) = None)
  /\ chapterEntries fs' = []
  /\ fs' !! STATIC_OUTPUT_DIR = None
  /\ (forall q,
        existsSync fs STATIC_OUTPUT_DIR = true -> isPrefix STATIC_OUTPUT_DIR q = true ->
        fs' !! q = None)
  /\ n = (length (chapterEntries fs)
          + if existsSync fs STATIC_OUTPUT_DIR then 1 else 0)%nat.
Proof.
  intros H. split; [|split; [|split; [|split]]].
  - intros item rest (Hs & Hd & He)%elem_of_chapterEntries.
    rewrite (lookup_cleanGenerated _ _ _ _ H). unfold removedByClean.
    cbn [DOCS_OUTPUT_DIR app underChapterEntry].
    rewrite bool_decide_eq_true_2, Hs by done. unfold isDirectory. rewrite Hd.
    apply existsSync_true in He. cbn [DOCS_OUTPUT_DIR app] in He. by rewrite He.
  - destruct (chapterEntries fs') as [|item l] eqn:E; [done|]. exfalso.
    assert (item ∈ chapterEntries fs') as Hin by (rewrite E; apply list_elem_of_here).
    apply elem_of_chapterEntries in Hin as (Hs & Hd & He).
    rewrite (lookup_cleanGenerated _ _ _ _ H), removedByClean_docs in Hd.
    rewrite (lookup_cleanGenerated _ _ _ _ H), removedByClean_docs_entry in He.
    unfold isDirectory in He. rewrite Hs, Hd in He. cbn [andb] in He.
    destruct (existsSync fs (DOCS_OUTPUT_DIR ++ [item])) eqn:Ex.
    + by destruct He.
    + apply existsSync_true in He. congruence.
  - rewrite (lookup_cleanGenerated _ _ _ _ H), removedByClean_static.
    destruct (existsSync fs STATIC_OUTPUT_DIR) eqn:E; [done|].
    unfold existsSync in E. apply bool_decide_eq_false in E.
    destruct (fs !! STATIC_OUTPUT_DIR); [|done]. exfalso. eauto.
  - intros q He Hq. rewrite (lookup_cleanGenerated _ _ _ _ H).
    unfold removedByClean. by rewrite Hq, He, orb_true_r.
  - by apply (cleanGenerated_count fs fs').
Qed.

Lemma clean_removes_generated_folders_witness :
  exists fs' n,
    cleanGenerated generatedTree = Some (fs', n)
    /\ chapterEntries fs' = []
    /\ fs' !! STATIC_OUTPUT_DIR = None
    /\ n = (length (chapterEntries generatedTree)
            + if existsSync generatedTree STATIC_OUTPUT_DIR then 1 else 0)%nat.
Proof.
  destruct (proj2 (cleanGenerated_returns generatedTree)) as [[fs' n] E].
  { right. vm_compute. reflexivity. }
  exists fs', n. split; [exact E|].
  destruct (clean_removes_generated_folders generatedTree fs' n E)
    as (_ & Hdocs & Hstatic & _ & Hn).
  split; [exact Hdocs|]. split; [exact Hstatic|exact Hn].
Defined.

(** X16.  [cleanGenerated] is idempotent, and it reports no folder exactly
    when it leaves the file system as it was. *)
Theorem clean_reports_nothing_iff_unchanged (fs fs' : FS) n :
  cleanGenerated fs = Some (fs', n) ->
  cleanGenerated fs' = Some (fs', 0%nat)
  /\ (n = 0%nat <-> fs' = fs).
Proof.
  intros H. split; [by apply (cleanGenerated_idempotent fs fs' n)|].
  pose proof (cleanGenerated_count _ _ _ H) as Hn.
  split.
  - intros ->. apply map_eq. intros q.
    rewrite (lookup_cleanGenerated _ _ _ _ H).
    assert (chapterEntries fs = []) as Hc
      by (destruct (chapterEntries fs); [done|simpl in Hn; lia]).
    assert (existsSync fs STATIC_OUTPUT_DIR = false) as Hst
      by (destruct (existsSync fs STATIC_OUTPUT_DIR); [lia|done]).
    unfold removedByClean. rewrite Hst, andb_false_r, orb_false_r.
    destruct q as [|d [|item rest]]; try done.
    destruct (underChapterEntry (d :: item :: rest)) eqn:Eu; [|done].
    destruct (isDirectory fs DOCS_OUTPUT_DIR) eqn:Ed; [|done].
    destruct (existsSync fs [d; item]) eqn:Ex; [|done].
    exfalso. cbn [underChapterEntry] in Eu.
    apply andb_prop in Eu as [->%bool_decide_eq_true Hs].
    assert (item ∈ chapterEntries fs) as Hin.
    { apply elem_of_chapterEntries. split; [done|]. split.
      - unfold isDirectory in Ed. by destruct (fs !! DOCS_OUTPUT_DIR) as [[]|].
      - by apply existsSync_true. }
    rewrite Hc in Hin. by apply elem_of_nil in Hin.
  - intros ->. pose proof (cleanGenerated_idempotent _ _ _ H) as H'.
    rewrite H in H'. by injection H'.
Qed.

Lemma clean_reports_nothing_iff_unchanged_witness :
  exists fs' n,
    cleanGenerated treeWithChapterPage = Some (fs', n)
    /\ cleanGenerated fs' = Some (fs', 0%nat)
    /\ (n = 0%nat <-> fs' = treeWithChapterPage).
Proof.
  destruct (proj2 (cleanGenerated_returns treeWithChapterPage)) as [[fs' n] E].
  { right. vm_compute. reflexivity. }
  exists fs', n. split; [exact E|].
  exact (clean_reports_nothing_iff_unchanged treeWithChapterPage fs' n E).
Defined.

(** X17.  [cleanGenerated] fails exactly when the documentation path is a
    regular file: a missing documentation directory is not an error. *)
Theorem clean_fails_iff_docs_is_a_file (fs : FS) :
  cleanGenerated fs = None <-> exists content, fs !! DOCS_OUTPUT_DIR = Some (File content).
Proof.
  pose proof (cleanGenerated_returns fs) as H. split.
  - intros Hn. destruct (fs !! DOCS_OUTPUT_DIR) as [[content|]|] eqn:E.
    + by exists content.
    + destruct (proj2 H) as [? Hs]; [by right|congruence].
    + destruct (proj2 H) as [? Hs]; [by left|congruence].
  - intros [content Hc]. destruct (cleanGenerated fs) eqn:E; [|done].
    destruct (proj1 H) as [?|?]; [eauto|congruence|congruence].
Qed.

Lemma underChapterEntry_below (p rest : list string) :
  isPrefix p DOCS_OUTPUT_DIR = false -> underChapterEntry p = false ->
  underChapterEntry (p ++ rest) = false.
Proof.
  destruct p as [|d [|item p]]; [done| |done].
  cbn [isPrefix DOCS_OUTPUT_DIR app]. intros Hd _.
  destruct rest as [|item rest]; [done|]. cbn [underChapterEntry].
  destruct (string_dec d "docs") as [->|Hne]; [done|].
  by rewrite bool_decide_eq_false_2.
Qed.

Lemma static_not_above (p rest : list string) :
  isPrefix p STATIC_OUTPUT_DIR = false -> isPrefix STATIC_OUTPUT_DIR p = false ->
  isPrefix STATIC_OUTPUT_DIR (p ++ rest) = false.
Proof.
  destruct p as [|a [|b p]]; [done| |].
  - cbn [isPrefix STATIC_OUTPUT_DIR app]. intros Ha _.
    destruct (string_dec a "static") as [->|Hne]; [done|].
    by destruct (string_dec "static" a) as [<-|?].
  - cbn [isPrefix STATIC_OUTPUT_DIR app]. intros _ H.
    destruct (string_dec "static" a); [|done]. by destruct (string_dec "programs" b).
Qed.

(** X26.  [cleanGenerated] touches nothing but the entries of the
    documentation directory whose names start with [chapter] and the static
    programs root: it creates and modifies nothing, and every path that is
    not below one of these is left as it was.  This holds for the source
    directory and its files whenever the source directory is not below
    them nor holds them, as is the default source directory; for the
    sidebar file; for the documentation directory itself and for its
    entries whose names do not start with [chapter], with what is below
    them. *)
Theorem clean_leaves_other_paths (fs fs' : FS) n :
  cleanGenerated fs = Some (fs', n) ->
  (forall q,
     underChapterEntry q = false -> isPrefix STATIC_OUTPUT_DIR q = false ->
     fs' !! q = fs !! q)
  /\ (forall q x, fs' !! q = Some x -> fs !! q = Some x)
  /\ (forall resolve options rest,
        isPrefix (INBOX_DIR resolve options) DOCS_OUTPUT_DIR = false ->
        underChapterEntry (INBOX_DIR resolve options) = false ->
        isPrefix (INBOX_DIR resolve options) STATIC_OUTPUT_DIR = false ->
        isPrefix STATIC_OUTPUT_DIR (INBOX_DIR resolve options) = false ->
        fs' !! (INBOX_DIR resolve options ++ rest)
        = fs !! (INBOX_DIR resolve options ++ rest))
  /\ (forall resolve options rest,
        sourceOverride options = None ->
        fs' !! (INBOX_DIR resolve options ++ rest)
        = fs !! (INBOX_DIR resolve options ++ rest))
  /\ fs' !! SIDEBAR_PATH = fs !! SIDEBAR_PATH
  /\ fs' !! DOCS_OUTPUT_DIR = fs !! DOCS_OUTPUT_DIR
  /\ (forall item rest,
        Str.startsWith "chapter" item = false ->
        fs' !! (DOCS_OUTPUT_DIR ++ item :: rest) = fs !! (DOCS_OUTPUT_DIR ++ item :: rest)).
Proof.
  intros H.
  assert (forall q,
            underChapterEntry q = false -> isPrefix STATIC_OUTPUT_DIR q = false ->
            fs' !! q = fs !! q) as Hframe.
  { intros q Hq Hs. rewrite (lookup_cleanGenerated _ _ _ _ H).
    unfold removedByClean. rewrite Hq, Hs. by destruct q as [|? [|? ?]]. }
  assert (forall p rest,
            isPrefix p DOCS_OUTPUT_DIR = false -> underChapterEntry p = false ->
            isPrefix p STATIC_OUTPUT_DIR = false -> isPrefix STATIC_OUTPUT_DIR p = false ->
            fs' !! (p ++ rest) = fs !! (p ++ rest)) as Hsource.
  { intros p rest H1 H2 H3 H4.
    apply Hframe; [by apply underChapterEntry_below|by apply static_not_above]. }
  split; [exact Hframe|]. split.
  { intros q x. rewrite (lookup_cleanGenerated _ _ _ _ H).
    by destruct (removedByClean fs q). }
  split; [intros resolve options rest; apply Hsource|].
  split.
  { intros resolve options rest Hnone. unfold INBOX_DIR. rewrite Hnone.
    by apply Hsource. }
  split; [by apply Hframe|]. split; [by apply Hframe|].
  intros item rest Hi. apply Hframe; [|done].
  cbn [DOCS_OUTPUT_DIR app underChapterEntry]. rewrite Hi. apply andb_false_r.
Qed.

Lemma clean_leaves_other_paths_witness :
  exists fs' n,
    cleanGenerated generatedTree = Some (fs', n)
    /\ fs' !! ["INBOX"; "fermi.m"] = generatedTree !! ["INBOX"; "fermi.m"]
    /\ fs' !! SIDEBAR_PATH = generatedTree !! SIDEBAR_PATH.
Proof.
  destruct (proj2 (cleanGenerated_returns generatedTree)) as [[fs' n] E].
  { right. vm_compute. reflexivity. }
  exists fs', n. split; [exact E|].
  destruct (clean_leaves_other_paths generatedTree fs' n E)
    as (_ & _ & _ & Hinbox & Hside & _).
  split; [|exact Hside].
  exact (Hinbox resolveInSite defaultOptions ["fermi.m"] eq_refl).
Defined.

(** ** Scanning the source directory *)

Lemma DirItem_nested_ind (P : DirItem -> Prop) :
  (forall name, P (ItemFile name)) ->
  (forall name children, Forall P children -> P (ItemDir name children)) ->
  (forall name, P (ItemOther name)) ->
  forall item, P item.
Proof.
  intros Hfile Hdir Hother. fix IH 1. intros [name|name children|name].
  - apply Hfile.
  - apply Hdir. induction children as [|c children IHc]; constructor.
    + apply IH.
    + exact IHc.
  - apply Hother.
Qed.

Lemma segments_nonempty p : Path.segments p <> [].
Proof.
  destruct p as [|c p]; simpl; [done|].
  destruct (ascii_dec c "/"); [done|]. by destruct (Path.segments p).
Qed.

Lemma segments_join a b :
  Path.segments (a +:+ "/" +:+ b) = Path.segments a ++ Path.segments b.
Proof.
  change ("/" +:+ b) with (String "/" b).
  induction a as [|c a IH].
  - reflexivity.
  - cbn [String.append Path.segments]. rewrite IH.
    destruct (ascii_dec c "/"); [done|].
    pose proof (segments_nonempty a). by destruct (Path.segments a).
Qed.

Lemma last_app_nonempty {A} (l1 l2 : list A) d :
  l2 <> [] -> List.last (l1 ++ l2) d = List.last l2 d.
Proof.
  intros H. induction l1 as [|x l1 IH]; [done|].
  cbn [app]. rewrite <- IH. simpl. destruct (l1 ++ l2) eqn:E; [|done].
  apply app_eq_nil in E as [_ ?]. done.
Qed.

Lemma last_filter_nonempty (l : list string) :
  List.last (List.filter (fun s => negb (Str.isEmpty s)) l) "" <> "" ->
  List.filter (fun s => negb (Str.isEmpty s)) l <> [].
Proof. by destruct (List.filter _ l). Qed.

Lemma basename_join name f :
  Path.basename f <> "" -> Path.basename (pathJoin name f) = Path.basename f.
Proof.
  intros H. unfold Path.basename, pathJoin in *.
  rewrite segments_join, List.filter_app.
  by apply last_app_nonempty, last_filter_nonempty.
Qed.

Lemma head_segments_join name f :
  noSlash name = true -> head (Path.segments (pathJoin name f)) = Some name.
Proof.
  intros H. unfold pathJoin. by rewrite segments_join, segments_of_noSlash.
Qed.

Lemma validName_spec name :
  validName name = true -> name <> "" /\ noSlash name = true.
Proof.
  unfold validName. intros [H1 H2]%andb_prop. split; [|done]. by destruct name.
Qed.

Lemma wellNamed_children name children :
  wellNamed (ItemDir name children) = true ->
  validName name = true /\ NoDup (List.map itemName children)
  /\ Forall (fun c => wellNamed c = true) children.
Proof.
  cbn [wellNamed itemName]. intros [Hn [Hd Hc]%andb_prop]%andb_prop.
  split; [done|]. split; [by apply bool_decide_eq_true in Hd|].
  apply Forall_forall. intros c Hin.
  by apply (proj1 (forallb_forall _ _) Hc), list_elem_of_In.
Qed.

Lemma wellNamed_name item : wellNamed item = true -> validName (itemName item) = true.
Proof. destruct item; cbn [wellNamed]; by intros [? _]%andb_prop. Qed.

(** What the recursive scan finds for one entry. *)
Lemma scanItem_paths item :
  wellNamed item = true ->
  List.map Path.basename (scanItem true item) = fileNames item
  /\ Forall (fun p => Path.basename p <> ""
                      /\ head (Path.segments p) = Some (itemName item))
       (scanItem true item)
  /\ NoDup (scanItem true item).
Proof.
  induction item as [name|name children IH|name] using DirItem_nested_ind; intros Hw.
  - apply wellNamed_name, validName_spec in Hw as [Hne Hns]. cbn in Hne, Hns.
    cbn [scanItem fileNames List.map itemName].
    rewrite (basename_of_noSlash _ Hns).
    split; [done|]. split; [|apply NoDup_singleton].
    constructor; [|constructor].
    by rewrite (basename_of_noSlash _ Hns), (segments_of_noSlash _ Hns).
  - apply wellNamed_children in Hw as (Hn & Hnd & Hc).
    apply validName_spec in Hn as [Hne Hns].
    cbn [scanItem fileNames itemName].
    assert (List.map Path.basename (flat_map (scanItem true) children)
            = flat_map fileNames children
            /\ Forall (fun p => Path.basename p <> "") (flat_map (scanItem true) children)
            /\ NoDup (flat_map (scanItem true) children)) as (Hb & Hp & Hd).
    { clear Hne Hns. induction children as [|c children IHc].
      - split; [done|]. split; [constructor|apply NoDup_nil_2].
      - inversion IH as [|? ? IHhead IHtail]; subst.
        inversion Hc as [|? ? Hwc Hwtail]; subst.
        cbn [List.map] in Hnd. apply NoDup_cons in Hnd as [Hnot Hnd].
        destruct (IHhead Hwc) as (Hb1 & Hp1 & Hd1).
        destruct (IHc IHtail Hnd Hwtail) as (Hb2 & Hp2 & Hd2).
        cbn [flat_map]. rewrite List.map_app, Hb1, Hb2. split; [done|]. split.
        + apply Forall_app. split; [|done].
          eapply Forall_impl; [exact Hp1|]. by intros p [? _].
        + apply NoDup_app. split; [done|]. split; [|done].
          intros p Hin1 Hin2%list_elem_of_In. apply in_flat_map in Hin2 as (c' & Hc' & Hin2).
          apply list_elem_of_In in Hc', Hin2.
          rewrite Forall_forall in Hp1. destruct (Hp1 p Hin1) as [_ Hh1].
          rewrite Forall_forall in IHtail, Hwtail.
          destruct (IHtail c' Hc' (Hwtail c' Hc')) as (_ & Hp' & _).
          rewrite Forall_forall in Hp'. destruct (Hp' p Hin2) as [_ Hh2].
          rewrite Hh1 in Hh2. injection Hh2 as Heq.
          apply Hnot. rewrite Heq. apply list_elem_of_fmap. by exists c'. }
    split; [|split].
    + rewrite <- Hb, List.map_map. apply List.map_ext_in.
      intros p Hin%list_elem_of_In. apply basename_join.
      rewrite Forall_forall in Hp. by apply Hp.
    + apply Forall_forall. intros q (p & -> & Hin)%list_elem_of_fmap.
      rewrite Forall_forall in Hp.
      split; [|by apply head_segments_join].
      rewrite basename_join by (by apply Hp). by apply Hp.
    + apply (NoDup_fmap_2_strong (pathJoin name)); [|done].
      intros p q _ _. unfold pathJoin. intros H%app_inv_head_str.
      by apply (app_inv_head_str "/").
  - cbn [scanItem fileNames List.map]. split; [done|]. split; [constructor|apply NoDup_nil_2].
Qed.

Lemma scanItem_flat item : sublist (scanItem false item) (scanItem true item).
Proof.
  destruct item as [name|name children|name]; cbn [scanItem]; [done| |done].
  apply sublist_nil_l.
Qed.

(** X18.  A recursive scan of a directory tree reports every regular file
    of the tree exactly once, under a path whose last segment is the name
    of the file, in the order of a depth-first walk; the scan of a missing
    directory is empty; and what the scan without recursion reports is
    part of it, in the same order. *)
Theorem scanDirectory_finds_each_file_once items :
  wellNamedDir items = true ->
  List.map Path.basename (scanDirectory (Some items) true) = flat_map fileNames items
  /\ NoDup (scanDirectory (Some items) true)
  /\ sublist (scanDirectory (Some items) false) (scanDirectory (Some items) true)
  /\ scanDirectory None true = [].
Proof.
  intros Hw. pose proof (scanItem_paths (ItemDir "root" items)) as H.
  cbn [scanItem fileNames itemName] in H.
  destruct H as (Hb & Hp & Hd).
  { cbn [wellNamed itemName]. exact Hw. }
  assert (Forall (fun c => wellNamed c = true) items) as Hc.
  { apply andb_prop in Hw as [_ Hc]. apply Forall_forall. intros c Hin.
    by apply (proj1 (forallb_forall _ _) Hc), list_elem_of_In. }
  cbn [scanDirectory]. split; [|split; [|split; [|done]]].
  - clear Hb Hp Hd Hw. induction Hc as [|c items Hwc Hc IH]; [done|].
    cbn [flat_map]. rewrite List.map_app, IH.
    by rewrite (proj1 (scanItem_paths c Hwc)).
  - apply (NoDup_fmap_1 (pathJoin "root")). exact Hd.
  - clear. induction items as [|c items IH]; [done|].
    cbn [flat_map]. apply sublist_app; [apply scanItem_flat|exact IH].
Qed.

Lemma scanDirectory_finds_each_file_once_witness :
  List.map Path.basename
    (scanDirectory
       (Some [ItemFile "Chapt1Fig1.m";
              ItemDir "ch2" [ItemFile "Chapt2Fig3.m"; ItemOther "sock";
                             ItemDir "data" [ItemFile "Chapt2Fig3.txt"]];
              ItemFile "notes.md"]) true)
  = flat_map fileNames
      [ItemFile "Chapt1Fig1.m";
       ItemDir "ch2" [ItemFile "Chapt2Fig3.m"; ItemOther "sock";
                      ItemDir "data" [ItemFile "Chapt2Fig3.txt"]];
       ItemFile "notes.md"]
  /\ NoDup (scanDirectory
              (Some [ItemFile "Chapt1Fig1.m";
                     ItemDir "ch2" [ItemFile "Chapt2Fig3.m"; ItemOther "sock";
                                    ItemDir "data" [ItemFile "Chapt2Fig3.txt"]];
                     ItemFile "notes.md"]) true)
  /\ sublist
       (scanDirectory
          (Some [ItemFile "Chapt1Fig1.m";
                 ItemDir "ch2" [ItemFile "Chapt2Fig3.m"; ItemOther "sock";
                                ItemDir "data" [ItemFile "Chapt2Fig3.txt"]];
                 ItemFile "notes.md"]) false)
       (scanDirectory
          (Some [ItemFile "Chapt1Fig1.m";
                 ItemDir "ch2" [ItemFile "Chapt2Fig3.m"; ItemOther "sock";
                                ItemDir "data" [ItemFile "Chapt2Fig3.txt"]];
                 ItemFile "notes.md"]) true)
  /\ scanDirectory None true = [].
Proof.
  apply (scanDirectory_finds_each_file_once
           [ItemFile "Chapt1Fig1.m";
            ItemDir "ch2" [ItemFile "Chapt2Fig3.m"; ItemOther "sock";
                           ItemDir "data" [ItemFile "Chapt2Fig3.txt"]];
            ItemFile "notes.md"]).
  by vm_compute.
Defined.








(** ** Debouncing and the watcher *)

Section DebounceFacts.
Context {Args : Type}.
Implicit Types calls : list (Z * Args).


Lemma debounceRun_invocations wait pending calls :
  0 <= wait -> inTimeOrder calls ->
  match pending, calls with
  | Some (deadline, _), (t1, _) :: _ => deadline <= t1 + wait
  | _, _ => True
  end ->
  (forall d a, (d, a) ∈ debounceRun wait pending calls ->
     pending = Some (d, a) \/ (d - wait, a) ∈ calls)
  /\ StronglySorted (fun x y => fst x + wait <= fst y) (debounceRun wait pending calls)
  /\ Forall (fun x => match pending with
                      | Some (deadline, _) => deadline <= fst x
                      | None => True
                      end) (debounceRun wait pending calls)
  /\ (length (debounceRun wait pending calls)
      <= length calls + match pending with Some _ => 1 | None => 0 end)%nat.
Proof.
  intros Hwait. revert pending.
  induction calls as [|[t1 a1] calls IH]; intros pending Ho Hp.
  - cbn [debounceRun]. destruct pending as [[d a0]|].
    + split; [intros d' a' ->%list_elem_of_singleton; by left|].
      split; [repeat constructor|]. split; [repeat constructor; simpl; lia|simpl; lia].
    + split; [by intros d' a' ?%elem_of_nil|].
      split; [constructor|]. split; [constructor|simpl; lia].
  - destruct (IH (Some (t1 + wait, a1))) as (Hin & Hs & Hge & Hlen).
    { cbn [inTimeOrder] in Ho. destruct calls as [|[t2 a2] l]; [done|]. by destruct Ho. }
    { cbn [inTimeOrder] in Ho. destruct calls as [|[t2 a2] l]; [done|]. lia. }
    assert (forall d a,
              (d, a) ∈ debounceRun wait (Some (t1 + wait, a1)) calls ->
              (d - wait, a) ∈ (t1, a1) :: calls) as Hin'.
    { intros d a [[= <- <-]|H]%Hin.
      - replace (t1 + wait - wait) with t1 by lia. apply list_elem_of_here.
      - by apply list_elem_of_further. }
    cbn [debounceRun]. destruct pending as [[d a0]|].
    + destruct (Z.leb_spec d t1) as [Hle|Hgt].
      * split; [|split; [|split]].
        -- intros d' a' [[= -> ->]|H]%elem_of_cons; [by left|right; by apply Hin'].
        -- constructor; [done|]. eapply Forall_impl; [exact Hge|].
           intros [d' a']. simpl. lia.
        -- constructor; [simpl; lia|]. eapply Forall_impl; [exact Hge|].
           intros [d' a']. simpl. lia.
        -- cbn [length] in *. lia.
      * split; [|split; [|split]].
        -- intros d' a' H. right. by apply Hin'.
        -- done.
        -- eapply Forall_impl; [exact Hge|]. intros [d' a']. simpl. lia.
        -- cbn [length] in *. lia.
    + split; [|split; [|split]].
      * intros d' a' H. right. by apply Hin'.
      * done.
      * by apply Forall_forall.
      * cbn [length] in *. lia.
Qed.
End DebounceFacts.



(** X21.  A debounced function runs only [wait] after one of its calls and
    with the arguments of that call, two runs are at least [wait] apart,
    and there are never more runs than calls; for a [wait] from 1 to
    2^31 - 1 milliseconds, which is the delay that the timer then uses. *)
Theorem debounce_limits_the_rate {Args : Type} wait (calls : list (Z * Args)) :
  1 <= wait <= 2147483647 -> inTimeOrder calls ->
  (forall d a, (d, a) ∈ debounce wait calls -> (d - wait, a) ∈ calls)
  /\ StronglySorted (fun x y => fst x + wait <= fst y) (debounce wait calls)
  /\ (length (debounce wait calls) <= length calls)%nat.
Proof.
  intros Hwait Ho.
  destruct (debounceRun_invocations wait None calls) as (Hin & Hs & _ & Hlen);
    [lia|exact Ho|by destruct calls as [|[? ?] ?]|].
  split; [|split; [exact Hs|unfold debounce; lia]].
  intros d a H. by destruct (Hin d a H).
Qed.

Lemma debounce_limits_the_rate_witness :
  (forall d a,
     (d, a) ∈ debounce 1000 [(0, "a"); (400, "b"); (1400, "c")] ->
     (d - 1000, a) ∈ [(0, "a"); (400, "b"); (1400, "c")])
  /\ StronglySorted (fun x y => fst x + 1000 <= fst y)
       (debounce 1000 [(0, "a"); (400, "b"); (1400, "c")])
  /\ Nat.le (length (debounce 1000 [(0, "a"); (400, "b"); (1400, "c")]))
            (length [(0, "a"); (400, "b"); (1400, "c")]).
Proof.
  apply (debounce_limits_the_rate 1000 [(0, "a"); (400, "b"); (1400, "c")]).
  - lia.
  - cbn. lia.
Defined.

Lemma watchCall_supported t filename :
  watchCall (t, Some filename) = if isSupported filename then Some (t, tt) else None.
Proof.
  unfold watchCall, isSupported. cbn [fst snd].
  destruct (Str.isEmpty filename) eqn:E; [|done].
  apply isEmpty_true in E as ->. reflexivity.
Qed.

Lemma elem_of_watchCalls (events : list (Z * option string)) (t : Z) :
  (t, tt) ∈ omap watchCall events
  <-> exists filename, (t, Some filename) ∈ events /\ isSupported filename = true.
Proof.
  rewrite list_elem_of_omap. split.
  - intros ([t' [filename|]] & Hin & Hc); [|done].
    rewrite watchCall_supported in Hc.
    destruct (isSupported filename) eqn:E; [|done].
    injection Hc as ->. by exists filename.
  - intros (filename & Hin & Hs). exists (t, Some filename).
    split; [done|]. by rewrite watchCall_supported, Hs.
Qed.

(** X22.  In watch mode the documentation is regenerated only one second
    after a change of a file with a supported extension, and events for
    other files, or without a file name, neither cause nor delay a run:
    the runs are those for the events of supported files alone. *)
Theorem watch_runs_follow_supported_changes events :
  (forall r, r ∈ watchRuns events ->
     exists filename, (r - 1000, Some filename) ∈ events /\ isSupported filename = true)
  /\ watchRuns events = watchRuns (List.filter supportedEvent events)
  /\ ((forall t filename, (t, Some filename) ∈ events -> isSupported filename = false) ->
      watchRuns events = []).
Proof.
  assert (forall calls : list (Z * unit),
            forall pending d a, (d, a) ∈ debounceRun 1000 pending calls ->
              pending = Some (d, a) \/ (d - 1000, a) ∈ calls) as Hfrom.
  { induction calls as [|[t1 a1] calls IH]; intros pending d a.
    - cbn [debounceRun]. destruct pending as [p|].
      + intros ->%list_elem_of_singleton. by left.
      + by intros ?%elem_of_nil.
    - cbn [debounceRun].
      assert ((d, a) ∈ debounceRun 1000 (Some (t1 + 1000, a1)) calls ->
              (d - 1000, a) ∈ (t1, a1) :: calls) as Hrest.
      { intros [[= <- <-]|H]%IH.
        - replace (t1 + 1000 - 1000) with t1 by lia. apply list_elem_of_here.
        - by apply list_elem_of_further. }
      destruct pending as [[d0 a0]|]; [|by right; apply Hrest].
      destruct (d0 <=? t1); [|by right; apply Hrest].
      intros [[= -> ->]|H]%elem_of_cons; [by left|by right; apply Hrest]. }
  assert (forall events',
            omap watchCall (List.filter supportedEvent events')
            = omap watchCall events') as Hfilter.
  { induction events' as [|[t [filename|]] events' IH]; [done| |].
    - cbn [List.filter]. unfold supportedEvent at 1. cbn [snd].
      destruct (isSupported filename) eqn:E.
      + cbn [omap list_omap]. by rewrite IH.
      + cbn [omap list_omap]. rewrite watchCall_supported, E. exact IH.
    - cbn [List.filter]. unfold supportedEvent at 1. cbn [snd omap list_omap].
      exact IH. }
  split; [|split].
  - unfold watchRuns. intros r Hr.
    apply list_elem_of_fmap in Hr as ([d []] & -> & Hin). cbn [fst].
    destruct (Hfrom _ _ _ _ Hin) as [?|H]; [done|].
    by apply elem_of_watchCalls.
  - unfold watchRuns. by rewrite Hfilter.
  - intros Hnone. unfold watchRuns.
    replace (omap watchCall events) with (@nil (Z * unit)); [done|].
    symmetry. destruct (omap watchCall events) as [|[t []] l] eqn:E; [done|].
    assert ((t, tt) ∈ omap watchCall events) as Hin by (rewrite E; apply list_elem_of_here).
    apply elem_of_watchCalls in Hin as (filename & Hin & Hs).
    by rewrite (Hnone _ _ Hin) in Hs.
Qed.

Lemma watch_runs_follow_supported_changes_witness :
  watchRuns [(0, Some "notes.md"); (5, None); (700, Some "data.csv")] = [].
Proof.
  apply (proj2 (proj2 (watch_runs_follow_supported_changes
                         [(0, Some "notes.md"); (5, None); (700, Some "data.csv")]))).
  intros t filename Hin.
  apply elem_of_cons in Hin as [[= _ ->]|Hin]; [reflexivity|].
  apply elem_of_cons in Hin as [[=]|Hin].
  apply elem_of_cons in Hin as [[= _ ->]|Hin]; [reflexivity|].
  by apply elem_of_nil in Hin.
Defined.

(** ** No page is written twice *)

Lemma NoDup_flat_map_tagged {A B T} (h : A -> list B) (tagA : A -> T) (tagB : B -> T) l :
  NoDup (List.map tagA l) ->
  (forall x, x ∈ l -> NoDup (h x)) ->
  (forall x y, x ∈ l -> y ∈ h x -> tagB y = tagA x) ->
  NoDup (flat_map h l).
Proof.
  induction l as [|x l IH]; intros Hnd Hh Htag; [apply NoDup_nil_2|].
  cbn [List.map] in Hnd. apply NoDup_cons in Hnd as [Hnot Hnd]. cbn [flat_map].
  apply NoDup_app. split; [apply Hh, list_elem_of_here|]. split.
  - intros y Hy1 Hy2%list_elem_of_In. apply in_flat_map in Hy2 as (x' & Hx' & Hy2).
    apply list_elem_of_In in Hx', Hy2. apply Hnot.
    rewrite <- (Htag x y (list_elem_of_here _ _) Hy1),
      (Htag x' y (list_elem_of_further _ _ _ Hx') Hy2).
    apply list_elem_of_fmap. by exists x'.
  - apply IH; [done| |].
    + intros x' Hx'. by apply Hh, list_elem_of_further.
    + intros x' y Hx'. by apply Htag, list_elem_of_further.
Qed.

Lemma NoDup_map_filter {A B} (f : A -> B) (P : A -> Prop) `{!forall x, Decision (P x)} l :
  NoDup (List.map f l) -> NoDup (List.map f (filter P l)).
Proof.
  induction l as [|x l IH]; [done|]. cbn [List.map]. intros [Hnot Hnd]%NoDup_cons.
  rewrite filter_cons. destruct (decide (P x)); [|by apply IH].
  cbn [List.map]. apply NoDup_cons. split; [|by apply IH].
  intros (y & Hy & Hin%list_elem_of_filter)%list_elem_of_fmap. apply Hnot.
  apply list_elem_of_fmap. exists y. tauto.
Qed.

Lemma app_assoc_str a b c : (a +:+ b) +:+ c = a +:+ b +:+ c.
Proof. induction a as [|x a IH]; simpl; congruence. Qed.

Lemma detail_name_is_not_index pid ty : pid +:+ "_" +:+ ty +:+ ".mdx" <> "index.mdx".
Proof.
  intros H.
  change "index.mdx" with ("index" +:+ ".mdx") in H.
  change ("_" +:+ ty +:+ ".mdx") with (String "_" (ty +:+ ".mdx")) in H.
  change (String "_" (ty +:+ ".mdx")) with (("_" +:+ ty) +:+ ".mdx") in H.
  rewrite <- app_assoc_str in H. apply app_inv_tail_str in H.
  apply (f_equal (containsChar "_")) in H. rewrite containsChar_app in H.
  change (containsChar "_" ("_" +:+ ty)) with true in H.
  rewrite orb_true_r in H. by vm_compute in H.
Qed.

Lemma detail_name_inj pid ty ty' :
  pid +:+ "_" +:+ ty +:+ ".mdx" = pid +:+ "_" +:+ ty' +:+ ".mdx" -> ty = ty'.
Proof.
  intros H%app_inv_head_str. apply (app_inv_head_str "_") in H.
  by apply app_inv_tail_str in H.
Qed.

Section PagePaths.
Variable readText : string -> option string.
Variable detailPage : Info.t -> string -> string -> string -> Cfg.t -> string.
Variable indexPage : Info.t -> list IndexEntry -> string.

Lemma groupPages_paths (kv : string * ProgramGroup) p :
  p ∈ List.map fst (groupPages readText detailPage indexPage kv) ->
  p !! 2%nat = Some (fst kv).
Proof.
  unfold groupPages. rewrite List.map_app, elem_of_app. intros [H|H].
  - rewrite map_flat_map in H. apply list_elem_of_In, in_flat_map in H as (e & _ & H).
    unfold detailWrite in H. destruct (hasDetailPage _); [|done].
    by destruct H as [<-|[]].
  - destruct (filesListOf _ _ _ _); [by apply elem_of_nil in H|].
    by apply list_elem_of_singleton in H as ->.
Qed.

Lemma groupPages_NoDup (kv : string * ProgramGroup) :
  NoDup (List.map (fun e => Cfg.type (config e)) (files (snd kv))) ->
  NoDup (List.map fst (groupPages readText detailPage indexPage kv)).
Proof.
  intros Hnd. unfold groupPages. rewrite List.map_app. apply NoDup_app.
  split; [|split].
  - rewrite map_flat_map.
    apply (NoDup_flat_map_tagged _
             (fun e => DOCS_OUTPUT_DIR
                         ++ [Info.chapter (programInfo (snd kv)); fst kv;
                             fst kv +:+ "_" +:+ Cfg.type (config e) +:+ ".mdx"])
             (fun p => p)).
    + rewrite <- (List.map_map (fun e => Cfg.type (config e))
                    (fun ty => DOCS_OUTPUT_DIR
                                 ++ [Info.chapter (programInfo (snd kv)); fst kv;
                                     fst kv +:+ "_" +:+ ty +:+ ".mdx"])).
      apply NoDup_fmap_2_strong; [|done].
      intros ty ty' _ _ [= H]. by apply detail_name_inj in H.
    + intros e _. unfold detailWrite. destruct (hasDetailPage _); [|apply NoDup_nil_2].
      apply NoDup_singleton.
    + intros e p _. unfold detailWrite. destruct (hasDetailPage _).
      * by intros ->%list_elem_of_singleton.
      * by intros ?%elem_of_nil.
  - intros p Hp Hi. rewrite map_flat_map in Hp.
    apply list_elem_of_In, in_flat_map in Hp as (e & _ & Hp).
    unfold detailWrite in Hp. destruct (hasDetailPage _); [|done].
    destruct Hp as [<-|[]].
    destruct (filesListOf _ _ _ _); [by apply elem_of_nil in Hi|].
    apply list_elem_of_singleton in Hi. injection Hi as Hi.
    by apply detail_name_is_not_index in Hi.
  - destruct (filesListOf _ _ _ _); [apply NoDup_nil_2|apply NoDup_singleton].
Qed.
End PagePaths.

Lemma elem_of_get {V} k (v : V) m :
  NoDup (JsMap.keys m) -> (k, v) ∈ m -> JsMap.get k m = Some v.
Proof.
  induction m as [|[k' v'] m IH]; [by intros _ ?%elem_of_nil|].
  cbn [JsMap.keys List.map fst JsMap.get]. intros [Hnot Hnd]%NoDup_cons Hin.
  apply elem_of_cons in Hin as [[= -> ->]|Hin].
  - by destruct (string_dec k' k').
  - destruct (string_dec k' k) as [->|Hne]; [|by apply IH].
    exfalso. apply Hnot, list_elem_of_fmap. by exists (k, v).
Qed.

Lemma group_types_NoDup allFiles pid g :
  NoDup (List.map (fun f => (programIdOf f, typeOf f)) (supportedFiles allFiles)) ->
  JsMap.get pid (programFiles (collectPrograms allFiles)) = Some g ->
  NoDup (List.map (fun e => Cfg.type (config e)) (files g)).
Proof.
  intros Hnd Hg.
  assert (List.map filePath (files g)
          = filter (fun f => programIdOf f = pid) (supportedFiles allFiles)) as Hm.
  { pose proof (membersOf_fold _ initialStats pid (supportedFiles_Forall allFiles)) as H.
    unfold membersOf in H at 1. fold (collectPrograms allFiles) in H. by rewrite Hg in H. }
  assert (Forall (fun e => typeOf (filePath e) = Some (Cfg.type (config e))
                           /\ programIdOf (filePath e) = pid) (files g)) as Hty.
  { destruct (allEntries_collectPrograms allFiles) as (es & Hperm & _ & Hall).
    rewrite <- Hperm in Hall. rewrite Forall_forall in Hall.
    apply Forall_forall. intros e He. split.
    - destruct (Hall e) as [Hn Hc].
      { apply list_elem_of_In, in_flat_map. exists (pid, g).
        split; [by apply list_elem_of_In, get_Some_elem_of|by apply list_elem_of_In]. }
      unfold typeOf. by rewrite <- Hn, Hc.
    - assert (filePath e ∈ List.map filePath (files g)) as Hin
        by (apply list_elem_of_fmap; by exists e).
      rewrite Hm in Hin. by apply list_elem_of_filter in Hin as [? _]. }
  apply (NoDup_map_filter _ (fun f => programIdOf f = pid)) in Hnd.
  rewrite <- Hm, List.map_map in Hnd.
  apply (NoDup_fmap_1 (fun ty => (pid, Some ty))).
  replace ((fun ty => (pid, Some ty)) <$> List.map (fun e => Cfg.type (config e)) (files g))
    with (List.map (fun e => (programIdOf (filePath e), typeOf (filePath e))) (files g));
    [done|].
  change (?f <$> ?l) with (List.map f l). rewrite List.map_map.
  apply List.map_ext_in. intros e He%list_elem_of_In.
  rewrite Forall_forall in Hty. by destruct (Hty e He) as [-> ->].
Qed.

(** X23.  No page is written twice in a run: when no two supported files
    of the listing have the same programId and the same type, the paths of
    the pages that the run writes are pairwise different. *)
Theorem no_page_is_written_twice readText detailPage indexPage now allFiles out :
  NoDup (List.map (fun f => (programIdOf f, typeOf f)) (supportedFiles allFiles)) ->
  runOutput readText detailPage indexPage now allFiles = Some out ->
  NoDup (List.map fst (pages out)).
Proof.
  intros Hnd Hout. unfold runOutput, groupingPass in Hout.
  destruct (supportedFiles allFiles) as [|f0 l0] eqn:El; [done|].
  rewrite <- El in Hnd. clear f0 l0 El. injection Hout as <-. cbn [pages].
  rewrite map_flat_map.
  apply (NoDup_flat_map_tagged _ (fun kv => Some (fst kv)) (fun p => p !! 2%nat)).
  - rewrite <- (List.map_map fst Some). apply NoDup_fmap_2_strong; [by intros ? ? _ _ [=]|].
    apply (groupKeys_NoDup_fold _ initialStats (supportedFiles_Forall allFiles)).
    apply NoDup_nil_2.
  - intros [pid g] Hin. apply groupPages_NoDup. cbn [snd].
    apply (group_types_NoDup allFiles pid); [done|].
    apply elem_of_get; [|done].
    apply (groupKeys_NoDup_fold _ initialStats (supportedFiles_Forall allFiles)).
    apply NoDup_nil_2.
  - intros kv p _. apply groupPages_paths.
Qed.

Lemma no_page_is_written_twice_witness :
  NoDup [ ["docs"; "chapter3"; "Chapt3Fig2"; "Chapt3Fig2_latex.mdx"];
          ["docs"; "chapter3"; "Chapt3Fig2"; "Chapt3Fig2_pdf.mdx"];
          ["docs"; "chapter3"; "Chapt3Fig2"; "index.mdx"] ].
Proof.
  apply (no_page_is_written_twice
           (fun _ => None) (fun _ _ _ _ _ => "detail") (fun _ _ => "index")
           "2024-01-01T00:00:00.000Z" ["Chapt3Fig2.tex"; "sub/Chapt3Fig2.pdf"]
           {| pages := [ (["docs"; "chapter3"; "Chapt3Fig2"; "Chapt3Fig2_latex.mdx"], "detail");
                         (["docs"; "chapter3"; "Chapt3Fig2"; "Chapt3Fig2_pdf.mdx"], "detail");
                         (["docs"; "chapter3"; "Chapt3Fig2"; "index.mdx"], "index") ];
              sidebar := updateSidebar "2024-01-01T00:00:00.000Z"
                           (byChapter (collectPrograms ["Chapt3Fig2.tex"; "sub/Chapt3Fig2.pdf"])) |}).
  - apply (bool_decide_unpack _). by vm_compute.
  - reflexivity.
Defined.

(** ** Links and static paths *)

Lemma filesList_fold writeOk pid es d s l :
  snd (fold_left (processFile (fun _ _ => true) writeOk pid) es (d, s, l))
  = l ++ List.map (indexEntryOf pid) es.
Proof.
  revert d s l. induction es as [|e es IH]; intros d s l.
  - simpl. by rewrite app_nil_r.
  - cbn [fold_left List.map]. unfold processFile at 2. cbn [negb].
    destruct (if hasDetailPage (Cfg.type (config e))
              then if writeOk pid (Cfg.type (config e)) then (S d, s) else (d, S s)
              else (d, s)) as [d' s'].
    rewrite IH, <- app_assoc. done.
Qed.

Lemma filesListOf_all_ok pid g :
  filesListOf (fun _ _ => true) (fun _ _ => true) pid g
  = List.map (indexEntryOf pid) (files g).
Proof. unfold filesListOf. by rewrite filesList_fold. Qed.

(** X24.  The links of an index page resolve: for every card of the index
    page of a group, the detail link [./<programId>_<type>] names a detail
    page that the run writes next to the index page, as
    [<programId>_<type>.mdx]. *)
Theorem index_page_links_resolve
    readText detailPage indexPage now allFiles out pid g e :
  runOutput readText detailPage indexPage now allFiles = Some out ->
  JsMap.get pid (programFiles (collectPrograms allFiles)) = Some g ->
  e ∈ filesListOf (fun _ _ => true) (fun _ _ => true) pid g ->
  exists target,
    detailPageLink pid e = "./" +:+ target
    /\ DOCS_OUTPUT_DIR ++ [Info.chapter (programInfo g); pid; target +:+ ".mdx"]
       ∈ List.map fst (pages out)
    /\ DOCS_OUTPUT_DIR ++ [Info.chapter (programInfo g); pid; "index.mdx"]
       ∈ List.map fst (pages out).
Proof.
  intros Hout Hg He. unfold runOutput, groupingPass in Hout.
  destruct (supportedFiles allFiles) as [|f0 l0] eqn:El; [done|].
  clear f0 l0 El. injection Hout as <-. cbn [pages].
  pose proof He as He'. rewrite filesListOf_all_ok in He'.
  apply list_elem_of_fmap in He' as (m & -> & Hm).
  exists (pid +:+ "_" +:+ Cfg.type (config m)). split; [done|].
  assert (hasDetailPage (Cfg.type (config m)) = true) as Hd.
  { pose proof (entries_have_detail_pages allFiles) as Hall.
    rewrite Forall_forall in Hall. apply Hall.
    apply list_elem_of_In, in_flat_map. exists (pid, g).
    split; [by apply list_elem_of_In, get_Some_elem_of|by apply list_elem_of_In]. }
  assert (forall p,
            p ∈ List.map fst (groupPages readText detailPage indexPage (pid, g)) ->
            p ∈ List.map fst
                  (flat_map (groupPages readText detailPage indexPage)
                     (programFiles (collectPrograms allFiles)))) as Hgroup.
  { intros p Hp. rewrite map_flat_map. apply list_elem_of_In, in_flat_map.
    exists (pid, g). split; [by apply list_elem_of_In, get_Some_elem_of|].
    by apply list_elem_of_In. }
  split; apply Hgroup; unfold groupPages; cbn [fst snd];
    rewrite List.map_app, elem_of_app.
  - left. rewrite map_flat_map. apply list_elem_of_In, in_flat_map.
    exists m. split; [by apply list_elem_of_In|].
    unfold detailWrite. rewrite Hd.
    rewrite app_assoc_str. by left.
  - right. destruct (filesListOf _ _ pid g); [by apply elem_of_nil in He|].
    apply list_elem_of_here.
Qed.

Lemma index_page_links_resolve_witness :
  exists target,
    detailPageLink "Chapt3Fig2"
      (indexEntryOf "Chapt3Fig2"
         {| filename := "Chapt3Fig2.tex"; filePath := "Chapt3Fig2.tex";
            config := {| Cfg.type := "latex"; Cfg.label := "LaTeX"; Cfg.emoji := "📝";
                         Cfg.color := "#008080"; Cfg.canReadText := true;
                         Cfg.codeLanguage := Some "latex";
                         Cfg.maxPreviewLength := Some 15000;
                         Cfg.useIframe := None; Cfg.iframeHeight := None |} |})
    = "./" +:+ target
    /\ DOCS_OUTPUT_DIR ++ [Info.chapter (classify "Chapt3Fig2"); "Chapt3Fig2"; target +:+ ".mdx"]
       ∈ [ ["docs"; "chapter3"; "Chapt3Fig2"; "Chapt3Fig2_latex.mdx"];
           ["docs"; "chapter3"; "Chapt3Fig2"; "index.mdx"] ]
    /\ DOCS_OUTPUT_DIR ++ [Info.chapter (classify "Chapt3Fig2"); "Chapt3Fig2"; "index.mdx"]
       ∈ [ ["docs"; "chapter3"; "Chapt3Fig2"; "Chapt3Fig2_latex.mdx"];
           ["docs"; "chapter3"; "Chapt3Fig2"; "index.mdx"] ].
Proof.
  apply (index_page_links_resolve
           (fun _ => None) (fun _ _ _ _ _ => "detail") (fun _ _ => "index")
           "2024-01-01T00:00:00.000Z" ["notes.md"; "Chapt3Fig2.tex"]
           {| pages := [ (["docs"; "chapter3"; "Chapt3Fig2"; "Chapt3Fig2_latex.mdx"], "detail");
                         (["docs"; "chapter3"; "Chapt3Fig2"; "index.mdx"], "index") ];
              sidebar := updateSidebar "2024-01-01T00:00:00.000Z"
                           (byChapter (collectPrograms ["notes.md"; "Chapt3Fig2.tex"])) |}
           "Chapt3Fig2"
           {| programInfo := classify "Chapt3Fig2";
              files := [ {| filename := "Chapt3Fig2.tex"; filePath := "Chapt3Fig2.tex";
                            config := {| Cfg.type := "latex"; Cfg.label := "LaTeX";
                                         Cfg.emoji := "📝";
                                         Cfg.color := "#008080"; Cfg.canReadText := true;
                                         Cfg.codeLanguage := Some "latex";
                                         Cfg.maxPreviewLength := Some 15000;
                                         Cfg.useIframe := None;
                                         Cfg.iframeHeight := None |} |} ] |}).
  - reflexivity.
  - reflexivity.
  - apply list_elem_of_here.
Defined.

Lemma supported_basename_nonempty f : isSupported f = true -> Path.basename f <> "".
Proof.
  unfold isSupported, Path.extname. intros H Hb. rewrite Hb in H. by vm_compute in H.
Qed.

Lemma basename_staticPath pid (e : FileEntry) :
  filename e <> "" -> noSlash (filename e) = true ->
  Path.basename (staticPath (indexEntryOf pid e)) = filename e.
Proof.
  intros Hne Hns. cbn [indexEntryOf staticPath].
  transitivity (Path.basename (filename e)); [|by apply basename_of_noSlash].
  rewrite <- (basename_join ("/programs/" +:+ Cfg.type (config e) +:+ "/" +:+ pid)
                (filename e)).
  - unfold pathJoin. by rewrite !app_assoc_str.
  - by rewrite basename_of_noSlash.
Qed.

(** X25.  No static path is given to two files: when the supported files
    of the listing have pairwise different file names, the static paths
    [/programs/<type>/<programId>/<filename>] of the members of all groups
    are pairwise different, and the last segment of each is the file name of
    its member. *)
Theorem static_paths_do_not_collide allFiles :
  NoDup (List.map Path.basename (supportedFiles allFiles)) ->
  NoDup (staticPaths (collectPrograms allFiles))
  /\ List.map Path.basename (staticPaths (collectPrograms allFiles))
     = List.map filename (allEntries (collectPrograms allFiles)).
Proof.
  intros Hnd.
  destruct (allEntries_collectPrograms allFiles) as (es & Hperm & Hmap & Hall).
  assert (Forall (fun e => filename e <> "" /\ noSlash (filename e) = true)
            (allEntries (collectPrograms allFiles))) as Hnames.
  { rewrite Hperm. apply Forall_forall. intros e He.
    rewrite Forall_forall in Hall. destruct (Hall e He) as [Hn Hc]. rewrite Hn.
    split; [|apply basename_noSlash].
    apply supported_basename_nonempty.
    assert (filePath e ∈ supportedFiles allFiles) as Hin
      by (rewrite <- Hmap; apply list_elem_of_fmap; by exists e).
    by apply elem_of_supportedFiles in Hin as [_ ?]. }
  assert (List.map Path.basename (staticPaths (collectPrograms allFiles))
          = List.map filename (allEntries (collectPrograms allFiles))) as Hb.
  { clear -Hnames. unfold staticPaths, allEntries in *.
    induction (programFiles (collectPrograms allFiles)) as [|[pid g] m IH]; [done|].
    cbn [flat_map fst snd] in *. apply Forall_app in Hnames as [Hg Hm].
    rewrite !List.map_app, (IH Hm). f_equal.
    rewrite filesListOf_all_ok, !List.map_map. apply List.map_ext_in.
    intros e He%list_elem_of_In. rewrite Forall_forall in Hg.
    destruct (Hg e He). by apply basename_staticPath. }
  split; [|exact Hb].
  apply (NoDup_fmap_1 Path.basename).
  change (Path.basename <$> staticPaths (collectPrograms allFiles))
    with (List.map Path.basename (staticPaths (collectPrograms allFiles))).
  rewrite Hb, Hperm.
  replace (List.map filename es) with (List.map Path.basename (supportedFiles allFiles));
    [done|].
  rewrite <- Hmap, List.map_map. apply List.map_ext_in.
  intros e He%list_elem_of_In. rewrite Forall_forall in Hall.
  by destruct (Hall e He) as [-> _].
Qed.

Lemma static_paths_do_not_collide_witness :
  NoDup (staticPaths (collectPrograms ["Chapt3Fig2.tex"; "sub/Chapt3Fig2.pdf"; "Airy.m"]))
  /\ List.map Path.basename
       (staticPaths (collectPrograms ["Chapt3Fig2.tex"; "sub/Chapt3Fig2.pdf"; "Airy.m"]))
     = List.map filename
         (allEntries (collectPrograms ["Chapt3Fig2.tex"; "sub/Chapt3Fig2.pdf"; "Airy.m"])).
Proof.
  apply (static_paths_do_not_collide ["Chapt3Fig2.tex"; "sub/Chapt3Fig2.pdf"; "Airy.m"]).
  apply (bool_decide_unpack _). by vm_compute.
Defined.
